(** * diverge-mvp-backend: the /generate relay and its session memory

    A shallow embedding of the three server variants of the repository
    (the prose relay with field clamping, the structured-JSON relay with a
    server-side session store, and the bible prose relay) together with the
    part of the JavaScript platform they rely on: UTF-16 strings, IEEE
    doubles, JSON values, [JSON.parse] and [JSON.stringify]. *)

From Stdlib Require Import List ZArith NArith Bool Ascii String Lia.
From Stdlib Require Import DecimalString.
Import ListNotations.

Set Implicit Arguments.
Set Warnings "-register-all".

(* ================================================================== *)
(** * The JavaScript platform *)
(* ================================================================== *)

Module JS.

(** ** Strings: sequences of UTF-16 code units *)

Definition code_unit := N.
Definition jsstring := list code_unit.

(** Source text is UTF-8; a literal of the JavaScript source denotes the
    UTF-16 code units of the decoded text. *)
Fixpoint utf8_decode (bs : list N) : jsstring :=
  match bs with
  | [] => []
  | b0 :: r0 =>
    if (b0 <? 128)%N then b0 :: utf8_decode r0
    else match r0 with
    | [] => [65533%N]
    | b1 :: r1 =>
      if (b0 <? 224)%N then ((b0 - 192) * 64 + (b1 - 128))%N :: utf8_decode r1
      else match r1 with
      | [] => [65533%N]
      | b2 :: r2 =>
        if (b0 <? 240)%N
        then ((b0 - 224) * 4096 + (b1 - 128) * 64 + (b2 - 128))%N :: utf8_decode r2
        else match r2 with
        | [] => [65533%N]
        | b3 :: r3 =>
          let cp := ((b0 - 240) * 262144 + (b1 - 128) * 4096
                     + (b2 - 128) * 64 + (b3 - 128))%N in
          let v := (cp - 65536)%N in
          (55296 + v / 1024)%N :: (56320 + v mod 1024)%N :: utf8_decode r3
        end
      end
    end
  end.

Definition lit (s : string) : jsstring :=
  utf8_decode (map N_of_ascii (list_ascii_of_string s)).

(** The code unit of the double quote, and literals in which a backtick
    stands for it. *)
Definition dquote : code_unit := 34%N.

Definition litq (s : string) : jsstring :=
  map (fun c => if (c =? 96)%N then dquote else c) (lit s).

Definition str_eqb (a b : jsstring) : bool :=
  if list_eq_dec N.eq_dec a b then true else false.

(** [s.length] *)
Definition length (s : jsstring) : Z := Z.of_nat (List.length s).

(** [s.slice(start, end)] *)
Definition slice (s : jsstring) (start end_ : Z) : jsstring :=
  let len := length s in
  let from := if (start <? 0)%Z then Z.max (len + start) 0 else Z.min start len in
  let to := if (end_ <? 0)%Z then Z.max (len + end_) 0 else Z.min end_ len in
  firstn (Z.to_nat (to - from)) (skipn (Z.to_nat from) s).

Fixpoint is_prefix (p s : jsstring) : bool :=
  match p, s with
  | [], _ => true
  | _ :: _, [] => false
  | a :: p', b :: s' => (a =? b)%N && is_prefix p' s'
  end.

Fixpoint index_from (pat s : jsstring) (i : Z) : Z :=
  if is_prefix pat s then i
  else match s with
       | [] => (-1)%Z
       | _ :: t => index_from pat t (i + 1)%Z
       end.

(** [s.indexOf(pat)] *)
Definition indexOf (s pat : jsstring) : Z := index_from pat s 0%Z.

Fixpoint last_index_from (pat s : jsstring) (i best : Z) : Z :=
  let best' := if is_prefix pat s then i else best in
  match s with
  | [] => best'
  | _ :: t => last_index_from pat t (i + 1)%Z best'
  end.

(** [s.lastIndexOf(pat)] *)
Definition lastIndexOf (s pat : jsstring) : Z := last_index_from pat s 0%Z (-1)%Z.

(** WhiteSpace and LineTerminator code points, as stripped by [trim]. *)
Definition is_white_space (c : code_unit) : bool :=
  ((9 <=? c) && (c <=? 13) || (c =? 32) || (c =? 160) || (c =? 5760)
   || (8192 <=? c) && (c <=? 8202) || (c =? 8232) || (c =? 8233)
   || (c =? 8239) || (c =? 8287) || (c =? 12288) || (c =? 65279))%N.

Fixpoint trimStart (s : jsstring) : jsstring :=
  match s with
  | c :: t => if is_white_space c then trimStart t else s
  | [] => []
  end.

Definition trimEnd (s : jsstring) : jsstring := rev (trimStart (rev s)).

(** [s.trim()] *)
Definition trim (s : jsstring) : jsstring := trimEnd (trimStart s).

(** [parts.join(sep)] on strings *)
Fixpoint join_strings (sep : jsstring) (parts : list jsstring) : jsstring :=
  match parts with
  | [] => []
  | [p] => p
  | p :: rest => p ++ sep ++ join_strings sep rest
  end.

(** ** Numbers: IEEE 754 binary64 *)

(** A finite double is [(-1)^neg * m * 2^e]; the representation is kept
    canonical: [m] is odd, or [m = 0] and [e = 0]. *)
Inductive number :=
| NaN
| Inf (neg : bool)
| Fin (neg : bool) (m : N) (e : Z).

Local Open Scope Z_scope.

(** [num / den / 2^e] as a fraction *)
Definition scale2 (num den e : Z) : Z * Z :=
  if 0 <=? e then (num, den * 2 ^ e) else (num * 2 ^ (- e), den).

Definition scale10 (num den p : Z) : Z * Z :=
  if 0 <=? p then (num * 10 ^ p, den) else (num, den * 10 ^ (- p)).

(** floor of the binary logarithm of the positive rational [num / den] *)
Definition floor_log2 (num den : Z) : Z :=
  let l := Z.log2 num - Z.log2 den in
  let '(n, d) := scale2 num den l in
  if d <=? n then l else l - 1.

Definition round_half_even (n d : Z) : Z :=
  let q := n / d in
  match 2 * (n mod d) ?= d with
  | Lt => q
  | Gt => q + 1
  | Eq => if Z.even q then q else q + 1
  end.

Fixpoint canon (p : positive) (e : Z) : positive * Z :=
  match p with
  | xO p' => canon p' (e + 1)
  | _ => (p, e)
  end.

(** The double nearest to [num / den] (ties to even), for [0 <= num] and
    [0 < den]. *)
Definition double_of_ratio (neg : bool) (num den : Z) : number :=
  if num =? 0 then Fin neg 0 0
  else
    let e := Z.max (floor_log2 num den - 52) (-1074) in
    let '(n, d) := scale2 num den e in
    match round_half_even n d with
    | Zpos p =>
      if 1024 <=? e + Z.log2 (Zpos p) then Inf neg
      else let '(p', e') := canon p e in Fin neg (Npos p') e'
    | _ => Fin neg 0 0
    end.

(** The Number value of the decimal [d * 10^x]. *)
Definition double_of_decimal (neg : bool) (d : N) (x : Z) : number :=
  let '(n, den) := scale10 (Z.of_N d) 1 x in double_of_ratio neg n den.

Definition number_of_Z (z : Z) : number :=
  double_of_ratio (z <? 0) (Z.abs z) 1.

Definition number_eqb (a b : number) : bool :=
  match a, b with
  | NaN, NaN => true
  | Inf s, Inf t => Bool.eqb s t
  | Fin s m e, Fin t n f => Bool.eqb s t && (m =? n)%N && (e =? f)
  | _, _ => false
  end.

Definition decimal_digits (n : N) : jsstring :=
  lit (NilEmpty.string_of_uint (N.to_uint n)).

(** [num / den >= 10^c] *)
Definition ge_pow10 (num den c : Z) : bool :=
  let '(n, d) := scale10 num den (- c) in d <=? n.

(** floor of the decimal logarithm of the positive rational [num / den] *)
Definition floor_log10 (num den : Z) : Z :=
  let est := (Z.log2 num - Z.log2 den) * 30103 / 100000 in
  if ge_pow10 num den (est + 2) then est + 2
  else if ge_pow10 num den (est + 1) then est + 1
  else if ge_pow10 num den est then est
  else if ge_pow10 num den (est - 1) then est - 1
  else est - 2.

(** Number::toString, step 5: the integers [s], [k], [n] with [k] digits in
    [s], [s * 10^(n-k)] converting to the double [m * 2^e], and [k] least;
    among the candidates the one nearest to the double is taken. *)
Fixpoint shortest_from (fuel : nat) (k : Z) (m : N) (e : Z) (num den n0 : Z)
  : Z * Z * Z :=
  let p := k - n0 in
  let '(tn, td) := scale10 num den p in
  let lo := tn / td in
  let hi := lo + 1 in
  let ok s := number_eqb (double_of_decimal false (Z.to_N s) (- p)) (Fin false m e) in
  let pick s := if s =? 10 ^ k then (10 ^ (k - 1), k, n0 + 1) else (s, k, n0) in
  let prefer_lo :=
    match 2 * (tn mod td) ?= td with
    | Lt => true
    | Gt => false
    | Eq => Z.even lo
    end in
  match ok lo, ok hi with
  | true, true => if prefer_lo then pick lo else pick hi
  | true, false => pick lo
  | false, true => pick hi
  | false, false =>
    match fuel with
    | O => pick lo
    | S fuel' => shortest_from fuel' (k + 1) m e num den n0
    end
  end.

Definition shortest (m : N) (e : Z) : Z * Z * Z :=
  let '(num, den) := scale2 (Z.of_N m) 1 (- e) in
  shortest_from 17 1 m e num den (floor_log10 num den + 1).

Definition zeros (n : Z) : jsstring := repeat 48%N (Z.to_nat n).

Definition format_digits (s k n : Z) : jsstring :=
  let ds := decimal_digits (Z.to_N s) in
  if (k <=? n) && (n <=? 21) then ds ++ zeros (n - k)
  else if (0 <? n) && (n <=? 21)
  then firstn (Z.to_nat n) ds ++ lit "." ++ skipn (Z.to_nat n) ds
  else if (-6 <? n) && (n <=? 0) then lit "0." ++ zeros (- n) ++ ds
  else
    let x := n - 1 in
    let sign := if x <? 0 then lit "-" else lit "+" in
    let mant := if k =? 1 then ds else firstn 1 ds ++ lit "." ++ skipn 1 ds in
    mant ++ lit "e" ++ sign ++ decimal_digits (Z.to_N (Z.abs x)).

(** Number::toString(x), radix 10 *)
Definition Number_toString (x : number) : jsstring :=
  match x with
  | NaN => lit "NaN"
  | Inf false => lit "Infinity"
  | Inf true => lit "-Infinity"
  | Fin _ 0%N _ => lit "0"
  | Fin neg m e =>
    let '(s, k, n) := shortest m e in
    (if neg then lit "-" else []) ++ format_digits s k n
  end.

Local Close Scope Z_scope.

(** ** Values, exceptions *)

Inductive value :=
| VUndefined
| VNull
| VBool (b : bool)
| VNumber (n : number)
| VString (s : jsstring)
| VArray (elems : list value)
| VObject (props : list (jsstring * value)).

Record exn := mkExn { exn_name : jsstring; exn_message : jsstring }.

Inductive result (A : Type) :=
| Ok (a : A)
| Throw (e : exn).
Arguments Ok {A} a.
Arguments Throw {A} e.

Definition TypeError (msg : string) : exn := mkExn (lit "TypeError") (lit msg).
Definition SyntaxError (msg : string) : exn := mkExn (lit "SyntaxError") (lit msg).
Definition Error (msg : string) : exn := mkExn (lit "Error") (lit msg).

(** ToBoolean: what [!v], [v || w] and [if (v)] test *)
Definition truthy (v : value) : bool :=
  match v with
  | VUndefined | VNull => false
  | VBool b => b
  | VNumber NaN => false
  | VNumber (Fin _ 0%N _) => false
  | VNumber _ => true
  | VString [] => false
  | VString _ => true
  | VArray _ | VObject _ => true
  end.

(** [typeof v === "string"] *)
Definition is_string (v : value) : bool :=
  match v with VString _ => true | _ => false end.

(** [Array.isArray(v)] *)
Definition isArray (v : value) : bool :=
  match v with VArray _ => true | _ => false end.

Fixpoint lookup (props : list (jsstring * value)) (key : jsstring) : option value :=
  match props with
  | [] => None
  | (k, v) :: rest => if str_eqb k key then Some v else lookup rest key
  end.

Definition has_own (props : list (jsstring * value)) (key : jsstring) : bool :=
  match lookup props key with Some _ => true | None => false end.

(** [key in v], for a key that is neither an array index, [length], nor a
    member of a built-in prototype (the servers only test their field
    names): an object has it when it is an own property, an array has not,
    and anything else is a TypeError. *)
Definition has_property (key : jsstring) (v : value) : result bool :=
  match v with
  | VObject props => Ok (has_own props key)
  | VArray _ => Ok false
  | _ => Throw (TypeError "Cannot use 'in' operator to search for a key in a non-object")
  end.

(** [v.key], for such a key. *)
Definition Get (v : value) (key : jsstring) : result value :=
  match v with
  | VUndefined | VNull => Throw (TypeError "Cannot read properties of undefined or null")
  | VObject props =>
    Ok (match lookup props key with Some x => x | None => VUndefined end)
  | _ => Ok VUndefined
  end.

(** [v?.key] *)
Definition Get_optional (v : value) (key : jsstring) : value :=
  match v with
  | VObject props => match lookup props key with Some x => x | None => VUndefined end
  | _ => VUndefined
  end.

Section Join.
Variable to_string : value -> result jsstring.

(** Array.prototype.join: [undefined] and [null] elements give the empty
    string, the others their string conversion. *)
Fixpoint join_with (sep : jsstring) (l : list value) : result jsstring :=
  match l with
  | [] => Ok []
  | x :: rest =>
    let sx := match x with
              | VUndefined | VNull => Ok []
              | _ => to_string x
              end in
    match sx with
    | Throw e => Throw e
    | Ok a =>
      match rest with
      | [] => Ok a
      | _ :: _ =>
        match join_with sep rest with
        | Throw e => Throw e
        | Ok b => Ok (a ++ sep ++ b)
        end
      end
    end
  end.
End Join.

(** ToString, on the values JSON can produce. An array converts through
    [join]; an object converts through Object.prototype.toString unless an
    own [toString] property shadows it, and data is never callable, so the
    conversion to a primitive then fails. *)
Fixpoint ToString (v : value) : result jsstring :=
  match v with
  | VUndefined => Ok (lit "undefined")
  | VNull => Ok (lit "null")
  | VBool true => Ok (lit "true")
  | VBool false => Ok (lit "false")
  | VNumber n => Ok (Number_toString n)
  | VString s => Ok s
  | VArray elems => join_with ToString (lit ",") elems
  | VObject props =>
    if has_own props (lit "toString")
    then Throw (TypeError "Cannot convert object to primitive value")
    else Ok (lit "[object Object]")
  end.

(** [elems.join(sep)] *)
Definition Array_join (elems : list value) (sep : jsstring) : result jsstring :=
  join_with ToString sep elems.

(** SameValueZero, the equality of [Map] keys and of [includes]. Objects
    and arrays are compared by reference: the ones met here come from
    distinct parses, and are never the same. *)
Definition SameValueZero (a b : value) : bool :=
  match a, b with
  | VUndefined, VUndefined => true
  | VNull, VNull => true
  | VBool x, VBool y => Bool.eqb x y
  | VNumber (Fin _ 0%N _), VNumber (Fin _ 0%N _) => true
  | VNumber x, VNumber y => number_eqb x y
  | VString x, VString y => str_eqb x y
  | _, _ => false
  end.

(** ** JSON.stringify *)

Definition hex_digit (n : N) : code_unit :=
  if (n <? 10)%N then (48 + n)%N else (87 + n)%N.

(** [\uXXXX], in lower case *)
Definition unicode_escape (c : code_unit) : jsstring :=
  [92; 117; hex_digit (c / 4096 mod 16); hex_digit (c / 256 mod 16);
   hex_digit (c / 16 mod 16); hex_digit (c mod 16)]%N.

Definition is_high_surrogate (c : code_unit) : bool :=
  ((55296 <=? c) && (c <=? 56319))%N.
Definition is_low_surrogate (c : code_unit) : bool :=
  ((56320 <=? c) && (c <=? 57343))%N.

(** QuoteJSONString, without the enclosing quotes: a surrogate is kept
    when it is paired, and escaped when it is alone. *)
Fixpoint quote_units (s : jsstring) : jsstring :=
  match s with
  | [] => []
  | c :: t =>
    if (c =? 8)%N then [92; 98]%N ++ quote_units t
    else if (c =? 9)%N then [92; 116]%N ++ quote_units t
    else if (c =? 10)%N then [92; 110]%N ++ quote_units t
    else if (c =? 12)%N then [92; 102]%N ++ quote_units t
    else if (c =? 13)%N then [92; 114]%N ++ quote_units t
    else if (c =? 34)%N then [92; 34]%N ++ quote_units t
    else if (c =? 92)%N then [92; 92]%N ++ quote_units t
    else if (c <? 32)%N then unicode_escape c ++ quote_units t
    else if is_high_surrogate c then
      match t with
      | d :: t' =>
        if is_low_surrogate d then c :: d :: quote_units t'
        else unicode_escape c ++ quote_units t
      | [] => unicode_escape c
      end
    else if is_low_surrogate c then unicode_escape c ++ quote_units t
    else c :: quote_units t
  end.

Definition QuoteJSONString (s : jsstring) : jsstring :=
  dquote :: quote_units s ++ [dquote].

(** SerializeJSONProperty without indentation; [None] is [undefined]. Data
    has no callable [toJSON]. *)
Fixpoint serialize (v : value) : option jsstring :=
  match v with
  | VUndefined => None
  | VNull => Some (lit "null")
  | VBool true => Some (lit "true")
  | VBool false => Some (lit "false")
  | VNumber (Fin neg m e) => Some (Number_toString (Fin neg m e))
  | VNumber _ => Some (lit "null")
  | VString s => Some (QuoteJSONString s)
  | VArray elems =>
    Some (lit "[" ++
          join_strings (lit ",")
            (map (fun x => match serialize x with
                           | Some t => t
                           | None => lit "null"
                           end) elems)
          ++ lit "]")
  | VObject props =>
    Some (lit "{" ++
          join_strings (lit ",")
            ((fix members (l : list (jsstring * value)) : list jsstring :=
                match l with
                | [] => []
                | (k, x) :: rest =>
                  match serialize x with
                  | Some t => (QuoteJSONString k ++ lit ":" ++ t) :: members rest
                  | None => members rest
                  end
                end) props)
          ++ lit "}")
  end.

(** [JSON.stringify(v)] *)
Definition JSON_stringify (v : value) : option jsstring := serialize v.

(** ** JSON.parse *)

Inductive presult (A : Type) :=
| POk (a : A) (rest : jsstring)
| PSyntaxError
| POutOfFuel.
Arguments POk {A} a rest.
Arguments PSyntaxError {A}.
Arguments POutOfFuel {A}.

Definition is_json_ws (c : code_unit) : bool :=
  ((c =? 9) || (c =? 10) || (c =? 13) || (c =? 32))%N.

Fixpoint skip_ws (s : jsstring) : jsstring :=
  match s with
  | c :: t => if is_json_ws c then skip_ws t else s
  | [] => []
  end.

Definition is_digit (c : code_unit) : bool := ((48 <=? c) && (c <=? 57))%N.

Definition hex_value (c : code_unit) : option N :=
  if is_digit c then Some (c - 48)%N
  else if ((97 <=? c) && (c <=? 102))%N then Some (c - 87)%N
  else if ((65 <=? c) && (c <=? 70))%N then Some (c - 55)%N
  else None.

Definition hex4 (a b c d : code_unit) : option code_unit :=
  match hex_value a, hex_value b, hex_value c, hex_value d with
  | Some x, Some y, Some z, Some w => Some (x * 4096 + y * 256 + z * 16 + w)%N
  | _, _, _, _ => None
  end.

Definition simple_escape (c : code_unit) : option code_unit :=
  if (c =? 34)%N then Some 34%N
  else if (c =? 92)%N then Some 92%N
  else if (c =? 47)%N then Some 47%N
  else if (c =? 98)%N then Some 8%N
  else if (c =? 102)%N then Some 12%N
  else if (c =? 110)%N then Some 10%N
  else if (c =? 114)%N then Some 13%N
  else if (c =? 116)%N then Some 9%N
  else None.

(** The characters of a string literal, after its opening quote. *)
Fixpoint parse_string_chars (s : jsstring) (acc : jsstring) : presult jsstring :=
  match s with
  | [] => PSyntaxError
  | c :: t =>
    if (c =? 34)%N then POk (rev acc) t
    else if (c <? 32)%N then PSyntaxError
    else if (c =? 92)%N then
      match t with
      | [] => PSyntaxError
      | x :: t1 =>
        if (x =? 117)%N then
          match t1 with
          | h1 :: h2 :: h3 :: h4 :: t2 =>
            match hex4 h1 h2 h3 h4 with
            | Some u => parse_string_chars t2 (u :: acc)
            | None => PSyntaxError
            end
          | _ => PSyntaxError
          end
        else
          match simple_escape x with
          | Some u => parse_string_chars t1 (u :: acc)
          | None => PSyntaxError
          end
      end
    else parse_string_chars t (c :: acc)
  end.

(** The longest run of digits: its value, its length, and what follows. *)
Fixpoint take_digits (s : jsstring) (acc : N) (count : Z) : N * Z * jsstring :=
  match s with
  | c :: t =>
    if is_digit c then take_digits t (acc * 10 + (c - 48))%N (count + 1)%Z
    else (acc, count, s)
  | [] => (acc, count, [])
  end.

(** A number literal: [-? int frac? exp?]. *)
Definition parse_number (s : jsstring) : presult number :=
  let '(neg, s1) :=
    match s with
    | c :: t => if (c =? 45)%N then (true, t) else (false, s)
    | [] => (false, s)
    end in
  let int_part : option (N * jsstring) :=
    match s1 with
    | c :: t =>
      if (c =? 48)%N then Some (0%N, t)
      else if is_digit c then
        let '(d, _, r) := take_digits s1 0%N 0%Z in Some (d, r)
      else None
    | [] => None
    end in
  match int_part with
  | None => PSyntaxError
  | Some (d, s2) =>
    let frac_part : option (N * Z * jsstring) :=
      match s2 with
      | c :: t =>
        if (c =? 46)%N then
          let '(d', n, r) := take_digits t d 0%Z in
          if (n =? 0)%Z then None else Some (d', n, r)
        else Some (d, 0%Z, s2)
      | [] => Some (d, 0%Z, s2)
      end in
    match frac_part with
    | None => PSyntaxError
    | Some (d', scale, s3) =>
      let exp_part : option (Z * jsstring) :=
        match s3 with
        | c :: t =>
          if ((c =? 101) || (c =? 69))%N then
            let '(eneg, t') :=
              match t with
              | g :: u =>
                if (g =? 45)%N then (true, u)
                else if (g =? 43)%N then (false, u)
                else (false, t)
              | [] => (false, t)
              end in
            let '(x, n, r) := take_digits t' 0%N 0%Z in
            if (n =? 0)%Z then None
            else Some (if eneg then (- Z.of_N x)%Z else Z.of_N x, r)
          else Some (0%Z, s3)
        | [] => Some (0%Z, s3)
        end in
      match exp_part with
      | None => PSyntaxError
      | Some (x, s4) => POk (double_of_decimal neg d' (x - scale)%Z) s4
      end
    end
  end.

Fixpoint canonical_index_value (s : jsstring) (acc : N) : option N :=
  match s with
  | [] => Some acc
  | c :: t => if is_digit c then canonical_index_value t (acc * 10 + (c - 48))%N else None
  end.

(** The array index a property key denotes, if it is one. *)
Definition array_index (k : jsstring) : option N :=
  match k with
  | [] => None
  | [c] => if is_digit c then Some (c - 48)%N else None
  | c :: _ =>
    if (c =? 48)%N then None
    else if (10 <? List.length k)%nat then None
    else match canonical_index_value k 0%N with
         | Some n => if (n <? 4294967295)%N then Some n else None
         | None => None
         end
  end.

Fixpoint insert_index (props : list (jsstring * value)) (i : N) (k : jsstring) (v : value)
  : list (jsstring * value) :=
  match props with
  | [] => [(k, v)]
  | (k', v') :: rest =>
    match array_index k' with
    | Some j => if (j <? i)%N then (k', v') :: insert_index rest i k v
                else (k, v) :: props
    | None => (k, v) :: props
    end
  end.

Fixpoint replace_value (props : list (jsstring * value)) (k : jsstring) (v : value)
  : list (jsstring * value) :=
  match props with
  | [] => []
  | (k', v') :: rest =>
    if str_eqb k' k then (k', v) :: rest else (k', v') :: replace_value rest k v
  end.

(** CreateDataProperty on an ordinary object whose own keys are listed in
    enumeration order: array indices ascending, then the other keys in the
    order of their creation. *)
Definition define_property (props : list (jsstring * value)) (k : jsstring) (v : value)
  : list (jsstring * value) :=
  if has_own props k then replace_value props k v
  else match array_index k with
       | Some i => insert_index props i k v
       | None => props ++ [(k, v)]
       end.

Definition expect_literal (word : jsstring) (v : value) (s : jsstring) : presult value :=
  if is_prefix word s then POk v (skipn (List.length word) s) else PSyntaxError.

Fixpoint parse_value (fuel : nat) (s : jsstring) : presult value :=
  match fuel with
  | O => POutOfFuel
  | S fuel' =>
    match skip_ws s with
    | [] => PSyntaxError
    | c :: t =>
      if (c =? 123)%N then
        match skip_ws t with
        | c' :: t' =>
          if (c' =? 125)%N then POk (VObject []) t'
          else parse_members fuel' t []
        | [] => PSyntaxError
        end
      else if (c =? 91)%N then
        match skip_ws t with
        | c' :: t' =>
          if (c' =? 93)%N then POk (VArray []) t'
          else parse_elements fuel' t []
        | [] => PSyntaxError
        end
      else if (c =? 34)%N then
        match parse_string_chars t [] with
        | POk str r => POk (VString str) r
        | PSyntaxError => PSyntaxError
        | POutOfFuel => POutOfFuel
        end
      else if (c =? 116)%N then expect_literal (lit "true") (VBool true) (c :: t)
      else if (c =? 102)%N then expect_literal (lit "false") (VBool false) (c :: t)
      else if (c =? 110)%N then expect_literal (lit "null") VNull (c :: t)
      else if (c =? 45)%N || is_digit c then
        match parse_number (c :: t) with
        | POk n r => POk (VNumber n) r
        | PSyntaxError => PSyntaxError
        | POutOfFuel => POutOfFuel
        end
      else PSyntaxError
    end
  end

with parse_elements (fuel : nat) (s : jsstring) (acc : list value) : presult value :=
  match fuel with
  | O => POutOfFuel
  | S fuel' =>
    match parse_value fuel' s with
    | POk v r =>
      match skip_ws r with
      | c :: t =>
        if (c =? 44)%N then parse_elements fuel' t (v :: acc)
        else if (c =? 93)%N then POk (VArray (rev (v :: acc))) t
        else PSyntaxError
      | [] => PSyntaxError
      end
    | PSyntaxError => PSyntaxError
    | POutOfFuel => POutOfFuel
    end
  end

with parse_members (fuel : nat) (s : jsstring) (acc : list (jsstring * value))
  : presult value :=
  match fuel with
  | O => POutOfFuel
  | S fuel' =>
    match skip_ws s with
    | c :: t =>
      if (c =? 34)%N then
        match parse_string_chars t [] with
        | POk k r =>
          match skip_ws r with
          | c1 :: t1 =>
            if (c1 =? 58)%N then
              match parse_value fuel' t1 with
              | POk v r2 =>
                let acc' := define_property acc k v in
                match skip_ws r2 with
                | c2 :: t2 =>
                  if (c2 =? 44)%N then parse_members fuel' t2 acc'
                  else if (c2 =? 125)%N then POk (VObject acc') t2
                  else PSyntaxError
                | [] => PSyntaxError
                end
              | PSyntaxError => PSyntaxError
              | POutOfFuel => POutOfFuel
              end
            else PSyntaxError
          | [] => PSyntaxError
          end
        | PSyntaxError => PSyntaxError
        | POutOfFuel => POutOfFuel
        end
      else PSyntaxError
    | [] => PSyntaxError
    end
  end.

(** [JSON.parse(text)]: one value, surrounded by white space only. Every
    nested call of the parser follows the consumption of a character, so the
    fuel below is never used up ([JSON_parse_total]); the message of the
    SyntaxError is left to the engine. *)
Definition JSON_parse (text : jsstring) : result value :=
  match parse_value (2 * List.length text + 1) text with
  | POk v rest =>
    match skip_ws rest with
    | [] => Ok v
    | _ :: _ => Throw (SyntaxError "Unexpected token in JSON")
    end
  | PSyntaxError => Throw (SyntaxError "Unexpected token in JSON")
  | POutOfFuel => Throw (mkExn (lit "RangeError") (lit "Maximum call stack size exceeded"))
  end.

(** [list.includes(v)] *)
Definition includes (l : list value) (v : value) : bool :=
  existsb (fun x => SameValueZero x v) l.

End JS.

(* ================================================================== *)
(** * Effects of a request handler *)
(* ================================================================== *)

Import JS.

Record chat_message := mkMessage { role : jsstring; content : jsstring }.

(** The argument of [chat.completions.create]. *)
Record chat_request := mkChatRequest {
  model : jsstring;
  messages : list chat_message;
  max_tokens : number;
  temperature : number
}.

(** What a handler reads of a completion: the content of the first choice
    ([choices?.[0]?.message?.content], [None] when it is missing or null)
    and the usage record ([undefined] when missing). *)
Record completion := mkCompletion {
  first_content : option jsstring;
  usage : value
}.

Inductive event :=
| EvReadFile (path : jsstring)
| EvCreateCompletion (rq : chat_request)
| EvConsoleError (e : exn).

(** The environment of one request: the file system, the completion API
    and the process environment. *)
Record world := mkWorld {
  readFileSync : jsstring -> result jsstring;
  chat_completions_create : chat_request -> result completion;
  OPENAI_API_KEY : option jsstring;
  MODEL : option jsstring
}.

(** [res.status(code).json(body)] *)
Record response := mkResponse { status : Z; json : value }.

Definition env_value (v : option jsstring) : value :=
  match v with Some s => VString s | None => VUndefined end.

Definition LF : jsstring := [10%N].

Definition is_completion_call (ev : event) : bool :=
  match ev with EvCreateCompletion _ => true | _ => false end.

(** The number of calls of the completion API in a trace. *)
Definition completion_calls (tr : list event) : nat :=
  List.length (filter is_completion_call tr).

(** A computation of a handler: it reads the world, threads the store of
    the server and the trace of its effects, and returns or throws. *)
Section Monad.
Variable S : Type.

Definition M (A : Type) : Type :=
  world -> S -> list event -> S * list event * result A.

Definition ret {A} (a : A) : M A := fun _ st tr => (st, tr, Ok a).

Definition throw {A} (e : exn) : M A := fun _ st tr => (st, tr, Throw e).

Definition bind {A B} (m : M A) (f : A -> M B) : M B :=
  fun w st tr =>
    match m w st tr with
    | (st', tr', Ok a) => f a w st' tr'
    | (st', tr', Throw e) => (st', tr', Throw e)
    end.

Definition lift {A} (r : result A) : M A := fun _ st tr => (st, tr, r).

Definition get_store : M S := fun _ st tr => (st, tr, Ok st).

Definition put_store (st : S) : M unit := fun _ _ tr => (st, tr, Ok tt).

Definition env {A} (f : world -> A) : M A := fun w st tr => (st, tr, Ok (f w)).

(** [fs.readFileSync(path, "utf8")] *)
Definition read_file (path : jsstring) : M jsstring :=
  fun w st tr => (st, tr ++ [EvReadFile path], readFileSync w path).

(** [await client.chat.completions.create(rq)] *)
Definition create_completion (rq : chat_request) : M completion :=
  fun w st tr => (st, tr ++ [EvCreateCompletion rq], chat_completions_create w rq).

(** [try { m } catch (e) { h e }] *)
Definition try_catch {A} (m : M A) (h : exn -> M A) : M A :=
  fun w st tr =>
    match m w st tr with
    | (st', tr', Ok a) => (st', tr', Ok a)
    | (st', tr', Throw e) => h e w st' tr'
    end.
End Monad.

Arguments ret {S A} a.
Arguments throw {S A} e.
Arguments bind {S A B} m f.
Arguments lift {S A} r.
Arguments get_store {S}.
Arguments put_store {S} st.
Arguments env {S A} f.
Arguments read_file {S} path.
Arguments create_completion {S} rq.
Arguments try_catch {S A} m h.

Declare Scope monad_scope.
Delimit Scope monad_scope with monad.
Notation "x <- m ;; k" := (bind m (fun x => k))
  (at level 61, m at next level, right associativity) : monad_scope.
Notation "m ;;; k" := (bind m (fun _ => k))
  (at level 61, right associativity) : monad_scope.

(* ================================================================== *)
(** * Code shared by the variants *)
(* ================================================================== *)

(** [clampString(s, max)]; the same text in the two variants that clamp. *)
Definition clampString (s : value) (max : Z) : result jsstring :=
  if negb (truthy s) then Ok []
  else match s with
       | VString str => Ok (if (max <? length str)%Z then slice str 0 max else str)
       | _ => ToString s
       end.

Definition required : list jsstring :=
  [lit "scene_type"; lit "event_id"; lit "world_summary"; lit "event_card";
   lit "recent_memory"; lit "player_input"].

(** [for (const key of required) if (!(key in body)) return `Missing field: ${key}`]:
    the message of the first missing key, if there is one. *)
Fixpoint missing_field (keys : list jsstring) (body : value) : result (option jsstring) :=
  match keys with
  | [] => Ok None
  | key :: rest =>
    match has_property key body with
    | Throw e => Throw e
    | Ok false => Ok (Some (lit "Missing field: " ++ key))
    | Ok true => missing_field rest body
    end
  end.

(** A field of a destructuring pattern, [{ key = default }]. *)
Definition field (body : value) (key : jsstring) (default : value) : result value :=
  match Get body key with
  | Throw e => Throw e
  | Ok VUndefined => Ok default
  | Ok v => Ok v
  end.

(** [String(e?.message || e)] for a thrown error *)
Definition error_detail (e : exn) : jsstring :=
  match exn_message e with
  | [] => exn_name e
  | msg => msg
  end.

(** [completion.choices?.[0]?.message?.content], the empty string when it
    is missing or null *)
Definition message_content (c : completion) : jsstring :=
  match first_content c with Some text => text | None => [] end.

Definition error_body (msg : jsstring) : value :=
  VObject [(lit "error", VString msg)].

(** [GET /health] *)
Definition health : response := mkResponse 200 (VObject [(lit "ok", VBool true)]).

Local Open Scope monad_scope.

(* ================================================================== *)
(** * The structured-JSON variant (sessions, three choices) *)
(* ================================================================== *)

Module Part001.

Definition MAX_INPUT_CHARS : Z := 12000.
Definition MAX_TOKENS : Z := 450.

Record stats_record := mkStats { health : number; reputation : number; money : number }.

Record session := mkSession { recent_memory : jsstring; stats : stats_record }.

(** [sessions]: the Map from session ids to session objects, in insertion
    order. A session object is designated by its position. *)
Definition sessions := list (value * session).

Fixpoint Map_find (m : sessions) (k : value) (i : nat) : option nat :=
  match m with
  | [] => None
  | (k', _) :: rest => if SameValueZero k' k then Some i else Map_find rest k (S i)
  end.

Definition default_stats : stats_record :=
  mkStats (number_of_Z 10) (number_of_Z 0) (number_of_Z 0).

Definition new_session : session := mkSession [] default_stats.

Definition session_at (m : sessions) (loc : nat) : session :=
  match nth_error m loc with
  | Some (_, s) => s
  | None => new_session
  end.

Fixpoint set_recent_memory (m : sessions) (loc : nat) (mem : jsstring) : sessions :=
  match m, loc with
  | [], _ => []
  | (k, s) :: rest, O => (k, mkSession mem (stats s)) :: rest
  | entry :: rest, S loc' => entry :: set_recent_memory rest loc' mem
  end.

Definition validateGenerateBody (body : value) : result value :=
  match missing_field required body with
  | Throw e => Throw e
  | Ok (Some msg) => Ok (VString msg)
  | Ok None =>
    match Get body (lit "scene_type") with
    | Throw e => Throw e
    | Ok scene_type =>
      if negb (includes [VString (lit "choice_point"); VString (lit "narration")] scene_type)
      then Ok (VString (lit "scene_type must be 'choice_point' or 'narration'"))
      else Ok VNull
    end
  end.

(** [getSession(sessionId)]: the session object of the id, created when the
    Map has none. *)
Definition getSession (sessionId : value) (m : sessions) : sessions * nat :=
  match Map_find m sessionId 0 with
  | Some loc => (m, loc)
  | None => (m ++ [(sessionId, new_session)], List.length m)
  end.

Definition loadBible (storyId : value) : M sessions jsstring :=
  read_file (lit "bible.txt").

Definition tryParseModelJson (raw : jsstring) : result value :=
  match JSON_parse raw with
  | Ok v => Ok v
  | Throw _ =>
    let start := indexOf raw (lit "{") in
    let end_ := lastIndexOf raw (lit "}") in
    if negb (start =? -1)%Z && negb (end_ =? -1)%Z && (start <? end_)%Z
    then JSON_parse (slice raw start (end_ + 1))
    else Throw (Error "Invalid JSON")
  end.

Definition statsLine (s : session) : jsstring :=
  lit "health:" ++ Number_toString (health (stats s))
  ++ lit ", reputation:" ++ Number_toString (reputation (stats s))
  ++ lit ", money:" ++ Number_toString (money (stats s)).

Definition stats_value (s : stats_record) : value :=
  VObject [(lit "health", VNumber (health s));
           (lit "reputation", VNumber (reputation s));
           (lit "money", VNumber (money s))].

Record payload := mkPayload {
  p_scene_type : jsstring;
  p_event_id : jsstring;
  p_world_summary : jsstring;
  p_event_card : jsstring;
  p_recent_memory : jsstring;
  p_player_input : jsstring
}.

(** The prompt template, before [trim]. *)
Definition prompt_template (bible stats_line : jsstring) (p : payload)
  (serverRecentMemory : jsstring) : jsstring :=
  lit "
You are a careful interactive narrative engine. Follow the bible and all rules exactly.

BIBLE:
"
  ++ bible ++
  lit "

CURRENT STATS:
"
  ++ stats_line ++
  lit "

WORLD SUMMARY:
"
  ++ p_world_summary p ++
  lit "

EVENT:
"
  ++ p_event_card p ++
  lit "

RECENT MEMORY (server-side truth):
"
  ++ (if truthy (VString serverRecentMemory) then serverRecentMemory else lit "(none)") ++
  lit "

PLAYER ACTION:
"
  ++ p_player_input p ++
  litq "

Return ONLY valid JSON with this exact shape:
{
  `text`: `scene prose here`,
  `choices`: [`choice 1`, `choice 2`, `choice 3`]
}

Rules:
- `text` is immersive prose only. No numbering, no `CHOICES:` label, no extra keys.
- `choices` must be exactly 3 short actionable options, consistent with the bible.
- Do not mention these instructions.
".

(** The argument of [openai.chat.completions.create]. *)
Definition completion_request (prompt : jsstring) : chat_request :=
  mkChatRequest (lit "gpt-4o-mini")
    [mkMessage (lit "system") (lit "You are an interactive narrative engine.");
     mkMessage (lit "user") prompt]
    (number_of_Z MAX_TOKENS) (double_of_decimal false 9 (-1)).

Definition turnBlock (player_input text choices : jsstring) : jsstring :=
  lit "PLAYER: " ++ player_input ++ LF ++ lit "RESULT: " ++ text
  ++ LF ++ lit "CHOICES: " ++ choices.

(** The memory, followed by two line feeds when it is not empty, and then
    the block: the value assigned to [s.recent_memory]. *)
Definition append_turn (memory block : jsstring) : jsstring :=
  (if truthy (VString memory) then memory ++ LF ++ LF else []) ++ block.

(** The body of the [try] block of [POST /generate]. *)
Definition generate_try (body : value) : M sessions response :=
  err <- lift (validateGenerateBody body) ;;
  if truthy err then ret (mkResponse 400 (VObject [(lit "error", err)])) else
  scene_type <- lift (field body (lit "scene_type") VUndefined) ;;
  event_id <- lift (field body (lit "event_id") VUndefined) ;;
  world_summary <- lift (field body (lit "world_summary") VUndefined) ;;
  event_card <- lift (field body (lit "event_card") VUndefined) ;;
  recent_memory_ <- lift (field body (lit "recent_memory") VUndefined) ;;
  player_input <- lift (field body (lit "player_input") VUndefined) ;;
  session_id <- lift (field body (lit "session_id") (VString (lit "demo"))) ;;
  story_id <- lift (field body (lit "story_id") (VString (lit "pirate"))) ;;
  combinedLen <- lift (match JSON_stringify body with
                       | Some text => Ok (length text)
                       | None => Throw (TypeError "Cannot read properties of undefined")
                       end) ;;
  if (MAX_INPUT_CHARS <? combinedLen)%Z
  then ret (mkResponse 413 (error_body
              (lit "Input too large. Reduce world_summary/event_card/recent_memory.")))
  else
  m <- get_store ;;
  let '(m', s) := getSession session_id m in
  put_store m' ;;;
  serverRecentMemory <- lift (clampString (VString (recent_memory (session_at m' s))) 4000) ;;
  let stats_line := statsLine (session_at m' s) in
  bible <- loadBible story_id ;;
  c_scene_type <- lift (clampString scene_type 80) ;;
  c_event_id <- lift (clampString event_id 200) ;;
  c_world_summary <- lift (clampString world_summary 6000) ;;
  c_event_card <- lift (clampString event_card 5000) ;;
  c_recent_memory <- lift (clampString recent_memory_ 2000) ;;
  c_player_input <- lift (clampString player_input 2000) ;;
  let payload := mkPayload c_scene_type c_event_id c_world_summary c_event_card
                           c_recent_memory c_player_input in
  let prompt := trim (prompt_template bible stats_line payload serverRecentMemory) in
  completion <- create_completion (completion_request prompt) ;;
  let raw := message_content completion in
  match tryParseModelJson raw with
  | Throw _ =>
    ret (mkResponse 500
           (VObject [(lit "error", VString (lit "Model did not return valid JSON"));
                     (lit "raw", VString raw)]))
  | Ok parsed =>
    let text := Get_optional parsed (lit "text") in
    bad <- lift (if negb (truthy text) then Ok true
                 else match Get parsed (lit "choices") with
                      | Throw e => Throw e
                      | Ok (VArray elems) => Ok (negb (Z.of_nat (List.length elems) =? 3)%Z)
                      | Ok _ => Ok true
                      end) ;;
    if (bad : bool)
    then ret (mkResponse 500
                (VObject [(lit "error", VString (lit "Bad JSON shape from model"));
                          (lit "parsed", parsed);
                          (lit "raw", VString raw)]))
    else
    choices <- lift (Get parsed (lit "choices")) ;;
    text_string <- lift (ToString text) ;;
    joined <- lift (match choices with
                    | VArray elems => Array_join elems (lit " | ")
                    | _ => Throw (TypeError "parsed.choices.join is not a function")
                    end) ;;
    let block := turnBlock (p_player_input payload) text_string joined in
    m1 <- get_store ;;
    put_store (set_recent_memory m1 s (append_turn (recent_memory (session_at m1 s)) block)) ;;;
    m2 <- get_store ;;
    memory <- lift (clampString (VString (recent_memory (session_at m2 s))) 4000) ;;
    put_store (set_recent_memory m2 s memory) ;;;
    m3 <- get_store ;;
    ret (mkResponse 200
           (VObject [(lit "session_id", session_id);
                     (lit "text", text);
                     (lit "choices", choices);
                     (lit "stats", stats_value (stats (session_at m3 s)))]))
  end.

(** [POST /generate]: the resulting store, the trace and the response. *)
Definition generate (body : value) (w : world) (m : sessions)
  : sessions * list event * response :=
  match generate_try body w m [] with
  | (m', tr, Ok r) => (m', tr, r)
  | (m', tr, Throw e) =>
    (m', tr ++ [EvConsoleError e],
     mkResponse 500 (error_body (lit "server error")))
  end.

(** A sequence of requests, each with the world it meets. *)
Fixpoint serve (m : sessions) (reqs : list (value * world))
  : sessions * list response :=
  match reqs with
  | [] => (m, [])
  | (body, w) :: rest =>
    let '(m', _, r) := generate body w m in
    let '(m'', rs) := serve m' rest in
    (m'', r :: rs)
  end.

End Part001.

(* ================================================================== *)
(** * The prose variant with field clamping and a credential check *)
(* ================================================================== *)

Module Part000.

Definition MAX_INPUT_CHARS : Z := 12000.
Definition MAX_TOKENS : Z := 450.

Definition validateGenerateBody (body : value) : result value :=
  match missing_field required body with
  | Throw e => Throw e
  | Ok (Some msg) => Ok (VString msg)
  | Ok None =>
    match Get body (lit "scene_type") with
    | Throw e => Throw e
    | Ok scene_type =>
      if negb (includes [VString (lit "scene_only"); VString (lit "choice_point")] scene_type)
      then Ok (VString (lit "scene_type must be 'scene_only' or 'choice_point'"))
      else Ok VNull
    end
  end.

Definition buildSystemPrompt (sceneType : value) : result jsstring :=
  match ToString sceneType with
  | Throw e => Throw e
  | Ok scene =>
    Ok (trim (lit "
You are the narrative engine for a text-only single-player pirate campaign.

MANDATORY RULES:
- Write immersive, literary prose. 2â€“3 paragraphs maximum.
- Never use tabletop / game-master tone. Never say â€œWhat do you do?â€
- Foreground actionable objects clearly (do not hide interactables).
- Use descriptors over names; introduce at most ONE new proper name per response.
- Do not invent major plot beats beyond the provided event card.

TURN PROTOCOL (MANDATORY):
- If scene_type == scene_only: you may narrate the scene and end naturally.
- If scene_type == choice_point:
  - End narration after the final sentence.
  - DO NOT continue the story.
  - DO NOT narrate consequences.
  - Output MUST stop immediately.
  - End with the marker on its own line:
    [AWAIT PLAYER ACTION]

You must obey the Turn Protocol for the provided scene_type: "
              ++ scene ++
              lit ".
"))
  end.

Record payload := mkPayload {
  p_session_id : jsstring;
  p_scene_type : value;
  p_event_id : jsstring;
  p_world_summary : jsstring;
  p_event_card : jsstring;
  p_recent_memory : jsstring;
  p_player_input : jsstring
}.

Definition buildUserPrompt (p : payload) : jsstring :=
  trim (lit "
WORLD SUMMARY:
"
        ++ p_world_summary p ++
        lit "

CURRENT EVENT CARD (FOLLOW THIS):
"
        ++ p_event_card p ++
        lit "

RECENT MEMORY (MOST RECENT LAST):
"
        ++ p_recent_memory p ++
        lit "

PLAYER INPUT:
"
        ++ p_player_input p ++
        lit "

Write the next response for event_id="
        ++ p_event_id p ++
        lit ".
").

(** The object literal [payload] of the handler. *)
Definition make_payload (body : value) : result payload :=
  match Get body (lit "session_id") with
  | Throw e => Throw e
  | Ok sid =>
  match clampString (if truthy sid then sid else VString (lit "demo")) 80 with
  | Throw e => Throw e
  | Ok c_session_id =>
  match Get body (lit "scene_type") with
  | Throw e => Throw e
  | Ok scene_type =>
  match Get body (lit "event_id") with
  | Throw e => Throw e
  | Ok event_id =>
  match clampString event_id 200 with
  | Throw e => Throw e
  | Ok c_event_id =>
  match Get body (lit "world_summary") with
  | Throw e => Throw e
  | Ok world_summary =>
  match clampString world_summary 6000 with
  | Throw e => Throw e
  | Ok c_world_summary =>
  match Get body (lit "event_card") with
  | Throw e => Throw e
  | Ok event_card =>
  match clampString event_card 5000 with
  | Throw e => Throw e
  | Ok c_event_card =>
  match Get body (lit "recent_memory") with
  | Throw e => Throw e
  | Ok recent_memory =>
  match clampString recent_memory 4000 with
  | Throw e => Throw e
  | Ok c_recent_memory =>
  match Get body (lit "player_input") with
  | Throw e => Throw e
  | Ok player_input =>
  match clampString player_input 2000 with
  | Throw e => Throw e
  | Ok c_player_input =>
    Ok (mkPayload c_session_id scene_type c_event_id c_world_summary c_event_card
                  c_recent_memory c_player_input)
  end end end end end end end end end end end end end.

(** The argument of [client.chat.completions.create]; the model is
    [process.env.MODEL || "gpt-4o-mini"]. *)
Definition completion_request (model_name : option jsstring)
  (system_prompt : jsstring) (p : payload) : chat_request :=
  mkChatRequest
    (if truthy (env_value model_name)
     then match model_name with Some name => name | None => [] end
     else lit "gpt-4o-mini")
    [mkMessage (lit "system") system_prompt;
     mkMessage (lit "user") (buildUserPrompt p)]
    (number_of_Z MAX_TOKENS) (double_of_decimal false 8 (-1)).

(** The body of the [try] block of [POST /generate]. *)
Definition generate_try (body : value) : M unit response :=
  err <- lift (validateGenerateBody body) ;;
  if truthy err then ret (mkResponse 400 (VObject [(lit "error", err)])) else
  combined <- lift (match JSON_stringify body with
                    | Some text => Ok (length text)
                    | None => Throw (TypeError "Cannot read properties of undefined")
                    end) ;;
  if (MAX_INPUT_CHARS <? combined)%Z
  then ret (mkResponse 413 (error_body
              (lit "Input too large. Reduce world_summary/event_card/recent_memory.")))
  else
  payload <- lift (make_payload body) ;;
  api_key <- env OPENAI_API_KEY ;;
  if negb (truthy (env_value api_key))
  then ret (mkResponse 500 (error_body (lit "Missing OPENAI_API_KEY in .env")))
  else
  model_name <- env MODEL ;;
  system_prompt <- lift (buildSystemPrompt (p_scene_type payload)) ;;
  completion <- create_completion (completion_request model_name system_prompt payload) ;;
  let text := message_content completion in
  let usage_ := match usage completion with
                | VUndefined | VNull => VNull
                | u => u
                end in
  ret (mkResponse 200 (VObject [(lit "text", VString text); (lit "usage", usage_)])).

(** [POST /generate] *)
Definition generate (body : value) (w : world) : list event * response :=
  match generate_try body w tt [] with
  | (_, tr, Ok r) => (tr, r)
  | (_, tr, Throw e) =>
    (tr ++ [EvConsoleError e],
     mkResponse 500 (VObject [(lit "error", VString (lit "Server error"));
                              (lit "detail", VString (error_detail e))]))
  end.

End Part000.

(* ================================================================== *)
(** * server.js: the prose variant that reads the bible *)
(* ================================================================== *)

Module ServerJs.

Definition MAX_INPUT_CHARS : Z := 12000.
Definition MAX_TOKENS : Z := 450.

Definition validateGenerateBody (body : value) : result value :=
  match missing_field required body with
  | Throw e => Throw e
  | Ok (Some msg) => Ok (VString msg)
  | Ok None =>
    match Get body (lit "scene_type") with
    | Throw e => Throw e
    | Ok scene_type =>
      if negb (includes [VString (lit "scene_only"); VString (lit "choice_point")] scene_type)
      then Ok (VString (lit "scene_type must be 'scene_only' or 'choice_point'"))
      else Ok VNull
    end
  end.

(** The file declares no [openai]: resolving the identifier throws. *)
Definition openai : result unit :=
  Throw (mkExn (lit "ReferenceError") (lit "openai is not defined")).

Record fields := mkFields {
  f_scene_type : value;
  f_event_id : value;
  f_world_summary : value;
  f_event_card : value;
  f_recent_memory : value;
  f_player_input : value;
  f_session_id : value
}.

(** The destructuring of [req.body]. *)
Definition destructure (body : value) : result fields :=
  match field body (lit "scene_type") VUndefined with
  | Throw e => Throw e
  | Ok scene_type =>
  match field body (lit "event_id") VUndefined with
  | Throw e => Throw e
  | Ok event_id =>
  match field body (lit "world_summary") VUndefined with
  | Throw e => Throw e
  | Ok world_summary =>
  match field body (lit "event_card") VUndefined with
  | Throw e => Throw e
  | Ok event_card =>
  match field body (lit "recent_memory") VUndefined with
  | Throw e => Throw e
  | Ok recent_memory =>
  match field body (lit "player_input") VUndefined with
  | Throw e => Throw e
  | Ok player_input =>
  match field body (lit "session_id") (VString (lit "demo")) with
  | Throw e => Throw e
  | Ok session_id =>
    Ok (mkFields scene_type event_id world_summary event_card recent_memory
                 player_input session_id)
  end end end end end end end.

(** The body of the [try] block of [POST /generate]. *)
Definition generate_try (body : value) : M unit response :=
  err <- lift (validateGenerateBody body) ;;
  if truthy err then ret (mkResponse 400 (VObject [(lit "error", err)])) else
  f <- lift (destructure body) ;;
  bible <- read_file (lit "bible.txt") ;;
  world_summary <- lift (ToString (f_world_summary f)) ;;
  event_card <- lift (ToString (f_event_card f)) ;;
  recent_memory <- lift (ToString (f_recent_memory f)) ;;
  player_input <- lift (ToString (f_player_input f)) ;;
  let prompt :=
    lit "
SYSTEM BIBLE:
"
    ++ bible ++
    lit "

WORLD SUMMARY:
"
    ++ world_summary ++
    lit "

EVENT:
"
    ++ event_card ++
    lit "

RECENT MEMORY:
"
    ++ recent_memory ++
    lit "

PLAYER ACTION:
"
    ++ player_input ++
    lit "

Write the next scene in immersive prose.
Return ONLY story text.
" in
  lift openai ;;;
  completion <- create_completion
    (mkChatRequest (lit "gpt-4o-mini")
       [mkMessage (lit "system") (lit "You are an interactive narrative engine.");
        mkMessage (lit "user") prompt]
       (number_of_Z MAX_TOKENS) (double_of_decimal false 9 (-1))) ;;
  let text := message_content completion in
  ret (mkResponse 200 (VObject [(lit "text", VString text)])).

(** [POST /generate] *)
Definition generate (body : value) (w : world) : list event * response :=
  match generate_try body w tt [] with
  | (_, tr, Ok r) => (tr, r)
  | (_, tr, Throw e) =>
    (tr ++ [EvConsoleError e], mkResponse 500 (error_body (lit "server error")))
  end.

End ServerJs.

(* ================================================================== *)
(** * Vocabulary of the specification *)
(* ================================================================== *)

Local Close Scope monad_scope.

(** The first [max] code units of a string, the string itself when it has
    no more: what [clampString] returns on a string. *)
Definition truncate (s : jsstring) (max : Z) : jsstring :=
  if (max <? length s)%Z then slice s 0 max else s.

(** The session memory the server holds for an id: the memory of the
    session object [getSession] would return. *)
Definition memory_of (m : Part001.sessions) (k : value) : jsstring :=
  Part001.recent_memory (Part001.session_at (fst (Part001.getSession k m))
                                            (snd (Part001.getSession k m))).

(** A parsed model output that lacks a truthy [text], or whose [choices]
    is not an array of exactly three elements. *)
Definition lacks_shape (parsed : value) : bool :=
  negb (truthy (Get_optional parsed (lit "text")))
  || match Get_optional parsed (lit "choices") with
     | VArray elems => negb (Z.of_nat (List.length elems) =? 3)%Z
     | _ => true
     end.

(** The summary of a turn, from the request and the response it got: the
    clamped player input, the text and the choices. *)
Definition turn_summary (body : value) (r : response) : result jsstring :=
  match field body (lit "player_input") VUndefined with
  | Throw e => Throw e
  | Ok pin =>
    match clampString pin 2000 with
    | Throw e => Throw e
    | Ok player_input =>
      match ToString (Get_optional (json r) (lit "text")) with
      | Throw e => Throw e
      | Ok text =>
        match Get_optional (json r) (lit "choices") with
        | VArray elems =>
          match Array_join elems (lit " | ") with
          | Throw e => Throw e
          | Ok joined => Ok (Part001.turnBlock player_input text joined)
          end
        | _ => Throw (TypeError "choices is not an array")
        end
      end
    end
  end.

(** [sub] occurs in [s]. *)
Definition contains (s sub : jsstring) : Prop :=
  exists before after, s = before ++ sub ++ after.

(** The content of the user message of a completion request. *)
Definition user_prompt (rq : chat_request) : jsstring :=
  match messages rq with
  | [_; user] => content user
  | _ => []
  end.

(** A JavaScript object or array: what the JSON body parser hands over. *)
Definition is_object (v : value) : bool :=
  match v with VObject _ | VArray _ => true | _ => false end.

(** The request body has the field (as an own property). *)
Definition has_field (key : jsstring) (body : value) : bool :=
  match body with VObject props => has_own props key | _ => false end.

(** [key] is the first required field the body lacks. *)
Definition first_missing (body : value) (key : jsstring) : Prop :=
  exists before after,
    required = before ++ key :: after /\
    (forall k, In k before -> has_field k body = true) /\
    has_field key body = false.

(** What follows the completion call in the structured-JSON handler, in
    terms of the store after [getSession], the session object, the
    request sent and the answer of the world. *)
Definition after_call (w : world) (m1 : Part001.sessions) (loc : nat) (sid : value)
  (pl : Part001.payload) (rq : chat_request) (m' : Part001.sessions)
  (tail : list event) (r : response) : Prop :=
  let s := Part001.session_at m1 loc in
  match chat_completions_create w rq with
  | Throw e => tail = [EvConsoleError e] /\ m' = m1
               /\ r = mkResponse 500 (error_body (lit "server error"))
  | Ok c =>
    let raw := message_content c in
    match Part001.tryParseModelJson raw with
    | Throw _ =>
      tail = [] /\ m' = m1 /\
      r = mkResponse 500
            (VObject [(lit "error", VString (lit "Model did not return valid JSON"));
                      (lit "raw", VString raw)])
    | Ok parsed =>
      if lacks_shape parsed
      then tail = [] /\ m' = m1 /\
           r = mkResponse 500
                 (VObject [(lit "error", VString (lit "Bad JSON shape from model"));
                           (lit "parsed", parsed);
                           (lit "raw", VString raw)])
      else
        (exists e, tail = [EvConsoleError e] /\ m' = m1
                   /\ r = mkResponse 500 (error_body (lit "server error")))
        \/
        (exists elems t js,
            Get_optional parsed (lit "choices") = VArray elems /\
            List.length elems = 3%nat /\
            ToString (Get_optional parsed (lit "text")) = Ok t /\
            Array_join elems (lit " | ") = Ok js /\
            tail = [] /\
            m' = Part001.set_recent_memory m1 loc
                   (truncate (Part001.append_turn (Part001.recent_memory s)
                                (Part001.turnBlock (Part001.p_player_input pl) t js))
                             4000) /\
            r = mkResponse 200
                  (VObject [(lit "session_id", sid);
                            (lit "text", Get_optional parsed (lit "text"));
                            (lit "choices", VArray elems);
                            (lit "stats", Part001.stats_value (Part001.stats s))]))
    end
  end.

Definition demo : value := VString (lit "demo").

(** ** Sample requests and worlds *)

Definition request_body (scene_type player_input : jsstring) : value :=
  VObject [(lit "scene_type", VString scene_type);
           (lit "event_id", VString (lit "e1"));
           (lit "world_summary", VString (lit "A harbour town."));
           (lit "event_card", VString (lit "A stranger arrives."));
           (lit "recent_memory", VString (lit "client memory"));
           (lit "player_input", VString player_input)].

(** A world whose bible reads [BIBLE], whose model answers [raw], and
    whose credential is set or not. *)
Definition world_answering (raw : jsstring) (key : option jsstring) : world :=
  mkWorld (fun _ => Ok (lit "BIBLE"))
          (fun _ => Ok (mkCompletion (Some raw) VUndefined))
          key None.

(** A world whose completion API throws. *)
Definition world_failing (e : exn) : world :=
  mkWorld (fun _ => Ok (lit "BIBLE")) (fun _ => Throw e) (Some (lit "sk-test")) None.

Definition three_choices (text : string) : jsstring :=
  litq "{`text`:`" ++ lit text ++ litq "`,`choices`:[`a`,`b`,`c`]}".

Definition two_choices : jsstring := litq "{`text`:`B`,`choices`:[`a`,`b`]}".

(** A body without any required field, whose serialization is longer than
    the cap. *)
Definition oversized_invalid_body : value :=
  VObject [(lit "pad", VString (repeat 97%N (Z.to_nat 12000)))].

Definition too_large : jsstring :=
  lit "Input too large. Reduce world_summary/event_card/recent_memory.".

(** Three turns of the default session: two with a player input of 2000
    characters, then a short one. *)
Definition long_input : jsstring := repeat 112%N (Z.to_nat 2000).

Definition saturating_turns : list (value * world) :=
  [(request_body (lit "narration") long_input, world_answering (three_choices "A") None);
   (request_body (lit "narration") long_input, world_answering (three_choices "B") None);
   (request_body (lit "narration") (lit "look"), world_answering (three_choices "C") None)].

(** Two turns of the default session. *)
Definition look_request : value := request_body (lit "narration") (lit "look").

Definition first_run : Part001.sessions * list event * response :=
  Part001.generate look_request (world_answering (three_choices "A") None) [].

Definition second_run : Part001.sessions * list event * response :=
  Part001.generate look_request (world_answering (three_choices "B") None)
                   (fst (fst first_run)).

(** The value of the object text [three_choices "A"]. *)
Definition embedded_object : value :=
  VObject [(lit "text", VString (lit "A"));
           (lit "choices", VArray [VString (lit "a"); VString (lit "b"); VString (lit "c")])].

(** A string holds no closing brace. *)
Definition no_closing_brace (s : jsstring) : bool :=
  negb (existsb (N.eqb 125%N) s).

(** A body that passes both validators and whose serialization is longer
    than the cap. *)
Definition oversized_valid_body : value :=
  request_body (lit "choice_point") (repeat 112%N (Z.to_nat 13000)).

(** The messages of the two scene-type checks. *)
Definition bad_scene_type_001 : jsstring :=
  lit "scene_type must be 'choice_point' or 'narration'".

Definition bad_scene_type_000 : jsstring :=
  lit "scene_type must be 'scene_only' or 'choice_point'".

(** A body that has a scene type and nothing else. *)
Definition scene_type_only_body : value :=
  VObject [(lit "scene_type", VString (lit "narration"))].

(** The 500 response of the outer [catch] of the prose variant. *)
Definition server_error_with_detail (e : exn) : response :=
  mkResponse 500 (VObject [(lit "error", VString (lit "Server error"));
                           (lit "detail", VString (error_detail e))]).

Definition boom : exn := Error "upstream timeout".

Definition choice_request : value := request_body (lit "choice_point") (lit "look").

(** The ids and the stats of the sessions of a store, in order. *)
Definition stats_of (m : Part001.sessions) : list (value * Part001.stats_record) :=
  map (fun entry => (fst entry, Part001.stats (snd entry))) m.

(** Every session of the store has the stats a session is created with. *)
Definition default_stats_everywhere (m : Part001.sessions) : Prop :=
  Forall (fun entry => Part001.stats (snd entry) = Part001.default_stats) m.

(** Every session of the store holds a memory of at most 4000 characters. *)
Definition memory_bounded (m : Part001.sessions) : Prop :=
  Forall (fun entry => (length (Part001.recent_memory (snd entry)) <= 4000)%Z) m.

(** The content of the system message of a completion request. *)
Definition system_prompt (rq : chat_request) : jsstring :=
  match messages rq with
  | sys :: _ => content sys
  | [] => []
  end.

(** The field of the request body is the string [s]. *)
Definition text_field (body : value) (key : jsstring) (s : jsstring) : Prop :=
  Get_optional body key = VString s.

(** The ids of the sessions of a store, in the order of their creation. *)
Definition session_ids (m : Part001.sessions) : list value := map fst m.

(** No two sessions of the store answer to the same id. *)
Fixpoint distinct_ids (m : Part001.sessions) : Prop :=
  match m with
  | [] => True
  | (k, _) :: rest =>
    (forall entry, In entry rest -> SameValueZero k (fst entry) = false)
    /\ distinct_ids rest
  end.

(** A request of the prose variant, and a world with the credential set. *)
Definition prose_request : value := request_body (lit "scene_only") (lit "look").

Definition prose_world : world :=
  world_answering (lit "The tide turns.") (Some (lit "sk-test")).

(** A body with every required field but the last one. *)
Definition no_player_input_body : value :=
  VObject [(lit "scene_type", VString (lit "choice_point"));
           (lit "event_id", VString (lit "e1"));
           (lit "world_summary", VString (lit "A harbour town."));
           (lit "event_card", VString (lit "A stranger arrives."));
           (lit "recent_memory", VString (lit "client memory"))].
(* ================================================================== *)
(** * Properties of the platform functions *)
(* ================================================================== *)

Lemma length_nonneg (s : jsstring) : (0 <= length s)%Z.
Proof. unfold length. lia. Qed.

Lemma length_app (a b : jsstring) : length (a ++ b) = (length a + length b)%Z.
Proof. unfold length. rewrite List.length_app. lia. Qed.

Lemma slice_prefix (s : jsstring) (max : Z) :
  (0 <= max <= length s)%Z -> slice s 0 max = firstn (Z.to_nat max) s.
Proof.
  intros H. unfold slice.
  destruct (0 <? 0)%Z eqn:E0; [discriminate|].
  destruct (max <? 0)%Z eqn:E1; [apply Z.ltb_lt in E1; lia|].
  rewrite (Z.min_l 0) by lia. rewrite (Z.min_l max) by lia.
  rewrite Z.sub_0_r. reflexivity.
Qed.

Lemma length_slice_prefix (s : jsstring) (max : Z) :
  (0 <= max <= length s)%Z -> length (slice s 0 max) = max.
Proof.
  intros H. rewrite slice_prefix by exact H. unfold length in *.
  rewrite firstn_length_le by lia. lia.
Qed.

Lemma truncate_short (s : jsstring) (max : Z) :
  (length s <= max)%Z -> truncate s max = s.
Proof.
  intros H. unfold truncate.
  destruct (max <? length s)%Z eqn:E; [apply Z.ltb_lt in E; lia | reflexivity].
Qed.

Lemma truncate_long (s : jsstring) (max : Z) :
  (0 <= max < length s)%Z -> truncate s max = firstn (Z.to_nat max) s.
Proof.
  intros H. unfold truncate.
  destruct (max <? length s)%Z eqn:E; [|apply Z.ltb_ge in E; lia].
  apply slice_prefix. lia.
Qed.

Lemma length_truncate (s : jsstring) (max : Z) :
  (0 <= max)%Z -> (length (truncate s max) <= max)%Z.
Proof.
  intros H. unfold truncate.
  destruct (max <? length s)%Z eqn:E.
  - apply Z.ltb_lt in E. rewrite length_slice_prefix; lia.
  - apply Z.ltb_ge in E. exact E.
Qed.

Lemma clampString_string (s : jsstring) (max : Z) :
  clampString (VString s) max = Ok (truncate s max).
Proof.
  unfold clampString, truncate. destruct s as [|c t]; simpl; [|reflexivity].
  destruct (max <? length [])%Z; [|reflexivity].
  unfold slice. now rewrite skipn_nil, firstn_nil.
Qed.

Lemma Get_of_truthy (parsed : value) (k : jsstring) :
  truthy (Get_optional parsed k) = true ->
  forall k', Get parsed k' = Ok (Get_optional parsed k').
Proof. destruct parsed; simpl; try discriminate. reflexivity. Qed.

Lemma completion_calls_app (a b : list event) :
  completion_calls (a ++ b) = (completion_calls a + completion_calls b)%nat.
Proof. unfold completion_calls. now rewrite filter_app, List.length_app. Qed.

Lemma completion_calls_In (rq : chat_request) (tr : list event) :
  In (EvCreateCompletion rq) tr -> completion_calls tr <> 0%nat.
Proof.
  unfold completion_calls. intros H E.
  apply length_zero_iff_nil in E.
  assert (K : In (EvCreateCompletion rq) (filter is_completion_call tr))
    by (apply filter_In; split; [exact H | reflexivity]).
  rewrite E in K. exact K.
Qed.

(* ================================================================== *)
(** * The session store *)
(* ================================================================== *)

Section Store.
Import Part001.

Lemma Map_find_bound (m : sessions) (k : value) : forall i loc,
  Map_find m k i = Some loc -> (i <= loc < i + List.length m)%nat.
Proof.
  induction m as [|[k' s] rest IH]; simpl; intros i loc H; [discriminate|].
  destruct (SameValueZero k' k).
  - inversion H; subst. lia.
  - apply IH in H. lia.
Qed.

Lemma getSession_loc (sid : value) (m : sessions) :
  (snd (getSession sid m) < List.length (fst (getSession sid m)))%nat.
Proof.
  unfold getSession. destruct (Map_find m sid 0) eqn:E; simpl.
  - apply Map_find_bound in E. lia.
  - rewrite List.length_app. simpl. lia.
Qed.

Lemma session_at_set_same (m : sessions) : forall loc mem,
  (loc < List.length m)%nat ->
  session_at (set_recent_memory m loc mem) loc
  = mkSession mem (stats (session_at m loc)).
Proof.
  unfold session_at.
  induction m as [|[k s] rest IH]; intros loc mem Hlt; simpl in Hlt; [lia|].
  destruct loc; simpl; [reflexivity|]. apply IH. lia.
Qed.

Lemma set_recent_memory_twice (m : sessions) : forall loc a b,
  set_recent_memory (set_recent_memory m loc a) loc b = set_recent_memory m loc b.
Proof.
  induction m as [|[k s] rest IH]; intros loc a b; simpl; [reflexivity|].
  destruct loc; simpl; [reflexivity|]. now rewrite IH.
Qed.

Lemma set_recent_memory_length (m : sessions) : forall loc a,
  List.length (set_recent_memory m loc a) = List.length m.
Proof.
  induction m as [|[k s] rest IH]; intros loc a; simpl; [reflexivity|].
  destruct loc; simpl; [reflexivity|]. now rewrite IH.
Qed.

End Store.

(* ================================================================== *)
(** * The runs of the structured-JSON handler *)
(* ================================================================== *)

Ltac unfold_monad H :=
  cbv beta iota zeta delta [bind lift ret throw get_store put_store env read_file
                            create_completion try_catch Part001.loadBible] in H.

Ltac early H :=
  inversion H; subst; clear H; left; repeat split; simpl; auto; try discriminate.

Ltac early_session H Hsid Hget sid :=
  inversion H; subst; clear H; left; repeat split; simpl; auto; try discriminate;
  right; exists sid; split; [exact Hsid | rewrite Hget; reflexivity].

(** Every run of the handler either ends before the completion call, with
    an error status and at most the lazy creation of the session, or sends
    one request built from the server-side memory and goes on as
    [after_call] tells. *)
Lemma generate_inv body w m m' tr r :
  Part001.generate body w m = (m', tr, r) ->
  (completion_calls tr = 0%nat /\ status r <> 200%Z /\
   (m' = m \/ exists sid, field body (lit "session_id") demo = Ok sid
                          /\ m' = fst (Part001.getSession sid m)))
  \/
  exists sid pin bible pl,
    field body (lit "session_id") demo = Ok sid /\
    field body (lit "player_input") VUndefined = Ok pin /\
    clampString pin 2000 = Ok (Part001.p_player_input pl) /\
    let m1 := fst (Part001.getSession sid m) in
    let loc := snd (Part001.getSession sid m) in
    let s := Part001.session_at m1 loc in
    let rq := Part001.completion_request
                (trim (Part001.prompt_template bible (Part001.statsLine s) pl
                         (truncate (Part001.recent_memory s) 4000))) in
    exists tail,
      tr = [EvReadFile (lit "bible.txt"); EvCreateCompletion rq] ++ tail /\
      after_call w m1 loc sid pl rq m' tail r.
Proof.
  intros H.
  unfold Part001.generate, Part001.generate_try in H.
  unfold_monad H.
  destruct (Part001.validateGenerateBody body) as [err|e] eqn:Hval; [|early H].
  destruct (truthy err) eqn:Herr; [early H|].
  unfold_monad H.
  destruct (field body (lit "scene_type") VUndefined) as [scene_type|e]; [|early H].
  destruct (field body (lit "event_id") VUndefined) as [event_id|e]; [|early H].
  destruct (field body (lit "world_summary") VUndefined) as [world_summary|e]; [|early H].
  destruct (field body (lit "event_card") VUndefined) as [event_card|e]; [|early H].
  destruct (field body (lit "recent_memory") VUndefined) as [recent_memory_|e]; [|early H].
  destruct (field body (lit "player_input") VUndefined) as [pin|e] eqn:Hpin; [|early H].
  destruct (field body (lit "session_id") (VString (lit "demo"))) as [sid|e] eqn:Hsid;
    [|early H].
  destruct (field body (lit "story_id") (VString (lit "pirate"))) as [story|e]; [|early H].
  destruct (JSON_stringify body) as [text|]; [|early H].
  destruct (Part001.MAX_INPUT_CHARS <? length text)%Z; [early H|].
  unfold_monad H.
  destruct (Part001.getSession sid m) as [m1 loc] eqn:Hget.
  assert (Hloc : (loc < List.length m1)%nat).
  { pose proof (getSession_loc sid m) as P. rewrite Hget in P. exact P. }
  unfold_monad H. rewrite clampString_string in H.
  destruct (readFileSync w (lit "bible.txt")) as [bible|e];
    [|early_session H Hsid Hget sid].
  destruct (clampString scene_type 80) as [c1|e]; [|early_session H Hsid Hget sid].
  destruct (clampString event_id 200) as [c2|e]; [|early_session H Hsid Hget sid].
  destruct (clampString world_summary 6000) as [c3|e]; [|early_session H Hsid Hget sid].
  destruct (clampString event_card 5000) as [c4|e]; [|early_session H Hsid Hget sid].
  destruct (clampString recent_memory_ 2000) as [c5|e]; [|early_session H Hsid Hget sid].
  destruct (clampString pin 2000) as [c6|e] eqn:Hc6; [|early_session H Hsid Hget sid].
  set (pl := Part001.mkPayload c1 c2 c3 c4 c5 c6) in *.
  right. exists sid, pin, bible, pl.
  split; [exact Hsid|]. split; [first [exact Hpin|reflexivity]|].
  split; [first [exact Hc6|reflexivity]|].
  rewrite Hget. cbn [fst snd]. cbv zeta.
  set (rq := Part001.completion_request _) in *.
  clear Hget. unfold after_call.
  destruct (chat_completions_create w rq) as [c|e].
  2:{ injection H as <- <- <-. exists [EvConsoleError e]. auto. }
  cbv zeta.
  destruct (Part001.tryParseModelJson (message_content c)) as [parsed|e].
  2:{ unfold_monad H. injection H as <- <- <-. exists []. auto. }
  unfold lacks_shape.
  destruct (truthy (Get_optional parsed (lit "text"))) eqn:Htext; cbn [negb orb] in *.
  2:{ unfold_monad H. injection H as <- <- <-. exists []. auto. }
  rewrite (@Get_of_truthy _ _ Htext) in H.
  destruct (Get_optional parsed (lit "choices")) as [ | | | | |elems| ] eqn:Hch;
    try (unfold_monad H; injection H as <- <- <-; exists []; now auto).
  destruct (Z.of_nat (List.length elems) =? 3)%Z eqn:Hlen; cbn [negb] in *.
  2:{ unfold_monad H. injection H as <- <- <-. exists []. auto. }
  apply Z.eqb_eq in Hlen.
  unfold_monad H.
  destruct (ToString (Get_optional parsed (lit "text"))) as [t|e] eqn:Ht.
  2:{ injection H as <- <- <-. exists [EvConsoleError e]. split; [reflexivity|].
      left. eauto. }
  destruct (Array_join elems (lit " | ")) as [js|e] eqn:Hjs.
  2:{ injection H as <- <- <-. exists [EvConsoleError e]. split; [reflexivity|].
      left. eauto. }
  rewrite clampString_string in H.
  rewrite set_recent_memory_twice in H.
  rewrite !session_at_set_same in H by (rewrite ?set_recent_memory_length; exact Hloc).
  cbn [Part001.recent_memory Part001.stats] in H.
  injection H as <- <- <-. exists []. split; [reflexivity|].
  right. exists elems, t, js. repeat split; auto. lia.
Qed.

Section StoreMemory.
Import Part001.

Lemma Map_find_app (a b : sessions) (k : value) : forall i,
  Map_find (a ++ b) k i
  = match Map_find a k i with
    | Some l => Some l
    | None => Map_find b k (i + List.length a)
    end.
Proof.
  induction a as [|[k' s] rest IH]; simpl; intros i.
  - f_equal. lia.
  - destruct (SameValueZero k' k); [reflexivity|].
    rewrite IH. destruct (Map_find rest k (S i)); [reflexivity|]. f_equal. lia.
Qed.

Lemma session_at_app_l (a b : sessions) (loc : nat) :
  (loc < List.length a)%nat -> session_at (a ++ b) loc = session_at a loc.
Proof. intros H. unfold session_at. now rewrite nth_error_app1. Qed.

Lemma session_at_app_new (a : sessions) (k : value) (rest : sessions) :
  session_at (a ++ (k, new_session) :: rest) (List.length a) = new_session.
Proof.
  unfold session_at. rewrite nth_error_app2 by lia.
  now rewrite Nat.sub_diag.
Qed.

Lemma memory_of_found (m : sessions) (k : value) (loc : nat) :
  Map_find m k 0 = Some loc -> memory_of m k = recent_memory (session_at m loc).
Proof. intros H. unfold memory_of, getSession. now rewrite H. Qed.

Lemma memory_of_absent (m : sessions) (k : value) :
  Map_find m k 0 = None -> memory_of m k = [].
Proof.
  intros H. unfold memory_of, getSession. rewrite H. cbn [fst snd].
  now rewrite session_at_app_new.
Qed.

(** The lazy creation of a session changes the memory of no session. *)
Lemma memory_of_getSession (sid : value) (m : sessions) (k : value) :
  memory_of (fst (getSession sid m)) k = memory_of m k.
Proof.
  unfold getSession at 1. destruct (Map_find m sid 0) eqn:E; cbn [fst]; [reflexivity|].
  destruct (Map_find m k 0) as [l|] eqn:Ek.
  - rewrite (@memory_of_found _ _ _ Ek).
    assert (F : Map_find (m ++ [(sid, new_session)]) k 0 = Some l)
      by (rewrite Map_find_app, Ek; reflexivity).
    rewrite (@memory_of_found _ _ _ F).
    apply Map_find_bound in Ek. now rewrite session_at_app_l by lia.
  - rewrite (@memory_of_absent _ _ Ek).
    destruct (Map_find (m ++ [(sid, new_session)]) k 0) as [l|] eqn:F.
    + rewrite (@memory_of_found _ _ _ F).
      rewrite Map_find_app, Ek in F. simpl in F.
      destruct (SameValueZero sid k); [|discriminate].
      injection F as <-. now rewrite session_at_app_new.
    + apply memory_of_absent. exact F.
Qed.

End StoreMemory.

Lemma after_call_tail w m1 loc sid pl rq m' tail r :
  after_call w m1 loc sid pl rq m' tail r -> completion_calls tail = 0%nat.
Proof.
  unfold after_call.
  destruct (chat_completions_create w rq) as [c|e]; cbv zeta.
  - destruct (Part001.tryParseModelJson (message_content c)) as [parsed|e].
    + destruct (lacks_shape parsed).
      * intros (-> & _). reflexivity.
      * intros [(e & -> & _) | (elems & t & js & _ & _ & _ & _ & -> & _)]; reflexivity.
    + intros (-> & _). reflexivity.
  - intros (-> & _). reflexivity.
Qed.

(** The one completion request of a run. *)
Lemma the_completion_call (rq rq0 : chat_request) (path : jsstring) (tail : list event) :
  In (EvCreateCompletion rq) ([EvReadFile path; EvCreateCompletion rq0] ++ tail) ->
  completion_calls tail = 0%nat -> rq = rq0.
Proof.
  simpl. intros [H | [H | H]] Ht.
  - discriminate.
  - now injection H.
  - now apply completion_calls_In in H.
Qed.

(* ================================================================== *)
(** * C1: the shape of the model output *)
(* ================================================================== *)

(** C1. In the structured-JSON variant, when the model was called and its
    output parses to a value that lacks a truthy [text] or whose [choices]
    is not an array of exactly three elements, the response is 500 with the
    error "Bad JSON shape from model" and the memory of every session is
    what it was; and every 200 response carries a [choices] array of
    exactly three elements. *)
Theorem bad_shape_is_500_and_200_has_three_choices :
  forall body w m m' tr r,
    Part001.generate body w m = (m', tr, r) ->
    (forall rq c parsed,
        In (EvCreateCompletion rq) tr ->
        chat_completions_create w rq = Ok c ->
        Part001.tryParseModelJson (message_content c) = Ok parsed ->
        lacks_shape parsed = true ->
        r = mkResponse 500
              (VObject [(lit "error", VString (lit "Bad JSON shape from model"));
                        (lit "parsed", parsed);
                        (lit "raw", VString (message_content c))])
        /\ forall k, memory_of m' k = memory_of m k)
    /\ (status r = 200%Z ->
        exists a b c, Get_optional (json r) (lit "choices") = VArray [a; b; c]).
Proof.
  intros body w m m' tr r H.
  apply generate_inv in H.
  destruct H as [(Hcalls & Hst & _) | (sid & pin & bible & pl & Hsid & Hpin & Hc & H)].
  - split.
    + intros rq c parsed Hin. now apply completion_calls_In in Hin.
    + intros E. contradiction.
  - cbv zeta in H. destruct H as (tail & -> & Hafter).
    pose proof (@after_call_tail _ _ _ _ _ _ _ _ _ Hafter) as Htail.
    split.
    + intros rq c parsed Hin Hchat Hparse Hshape.
      apply the_completion_call in Hin; [|exact Htail]. subst rq.
      unfold after_call in Hafter. rewrite Hchat in Hafter. cbv zeta in Hafter.
      rewrite Hparse, Hshape in Hafter. destruct Hafter as (_ & -> & ->).
      split; [reflexivity|]. intros k. apply memory_of_getSession.
    + intros E. unfold after_call in Hafter.
      destruct (chat_completions_create w _) as [c|e]; cbv zeta in Hafter.
      * destruct (Part001.tryParseModelJson (message_content c)) as [parsed|e].
        -- destruct (lacks_shape parsed).
           ++ destruct Hafter as (_ & _ & ->). discriminate.
           ++ destruct Hafter as [(e & _ & _ & ->)
                                 | (elems & t & js & _ & Hlen & _ & _ & _ & _ & ->)];
                [discriminate|].
              destruct elems as [|a [|b [|c0 [|d rest]]]]; try discriminate.
              exists a, b, c0. reflexivity.
        -- destruct Hafter as (_ & _ & ->). discriminate.
      * destruct Hafter as (_ & _ & ->). discriminate.
Qed.

Lemma bad_shape_witness :
  snd (Part001.generate (request_body (lit "narration") (lit "look"))
         (world_answering two_choices None) [])
  = mkResponse 500
      (VObject [(lit "error", VString (lit "Bad JSON shape from model"));
                (lit "parsed",
                 VObject [(lit "text", VString (lit "B"));
                          (lit "choices", VArray [VString (lit "a"); VString (lit "b")])]);
                (lit "raw", VString two_choices)])
  /\ memory_of (fst (fst (Part001.generate (request_body (lit "narration") (lit "look"))
                            (world_answering two_choices None) []))) demo
     = memory_of [] demo.
Proof.
  set (body := request_body (lit "narration") (lit "look")).
  set (w := world_answering two_choices None).
  set (X := Part001.generate body w []).
  assert (E : Part001.generate body w [] = (fst (fst X), snd (fst X), snd X))
    by (subst X; destruct (Part001.generate body w []) as [[? ?] ?]; reflexivity).
  destruct (bad_shape_is_500_and_200_has_three_choices body w [] E) as [K _].
  destruct (K (Part001.completion_request
                 (trim (Part001.prompt_template (lit "BIBLE")
                          (Part001.statsLine Part001.new_session)
                          (Part001.mkPayload (lit "narration") (lit "e1")
                             (lit "A harbour town.") (lit "A stranger arrives.")
                             (lit "client memory") (lit "look"))
                          [])))
              (mkCompletion (Some two_choices) VUndefined)
              (VObject [(lit "text", VString (lit "B"));
                        (lit "choices", VArray [VString (lit "a"); VString (lit "b")])]))
    as [R M].
  - vm_compute. right. left. reflexivity.
  - reflexivity.
  - vm_compute. reflexivity.
  - vm_compute. reflexivity.
  - split; [rewrite R; reflexivity | rewrite (M demo); reflexivity].
Defined.

(* ================================================================== *)
(** * The validator *)
(* ================================================================== *)

Lemma missing_field_ok_object (body : value) :
  missing_field required body = Ok None -> exists props, body = VObject props.
Proof.
  unfold required. cbn [missing_field].
  destruct body; cbn [has_property]; try discriminate.
  intros _. eauto.
Qed.

Lemma field_object (props : list (jsstring * value)) (k : jsstring) (d : value) :
  exists v, field (VObject props) k d = Ok v.
Proof.
  unfold field. cbn [Get].
  destruct (lookup props k) as [[]|]; eauto.
Qed.

Lemma validate_ok_object_001 (body : value) :
  Part001.validateGenerateBody body = Ok VNull -> exists props, body = VObject props.
Proof.
  unfold Part001.validateGenerateBody.
  destruct (missing_field required body) as [[msg|]|e] eqn:E; try discriminate.
  intros _. now apply missing_field_ok_object.
Qed.

Lemma validate_ok_object_000 (body : value) :
  Part000.validateGenerateBody body = Ok VNull -> exists props, body = VObject props.
Proof.
  unfold Part000.validateGenerateBody.
  destruct (missing_field required body) as [[msg|]|e] eqn:E; try discriminate.
  intros _. now apply missing_field_ok_object.
Qed.

(* ================================================================== *)
(** * C2: the global cap *)
(* ================================================================== *)

(** C2, as stated, fails: a request whose serialized body exceeds 12000
    characters and that lacks a required field is answered 400 by the
    validator, which runs before the cap is looked at. *)
Lemma oversized_invalid_request_is_400 :
  option_map length (JSON_stringify oversized_invalid_body) = Some 12010%Z
  /\ snd (Part001.generate oversized_invalid_body (world_answering [] None) [])
     = mkResponse 400 (error_body (lit "Missing field: scene_type"))
  /\ snd (Part000.generate oversized_invalid_body (world_answering [] None))
     = mkResponse 400 (error_body (lit "Missing field: scene_type")).
Proof. vm_compute. repeat split. Qed.

(** C2, amended. A request that passes the validator and whose serialized
    body exceeds 12000 characters is answered 413 "Input too large" by the
    two variants that have the cap, whatever its fields hold: the check
    comes before the clamping, the session lookup, the file read and the
    completion call, so the store is untouched and the trace is empty. *)
Theorem oversized_valid_request_is_413 :
  forall body text,
    JSON_stringify body = Some text ->
    (12000 < length text)%Z ->
    (forall w m,
        Part001.validateGenerateBody body = Ok VNull ->
        Part001.generate body w m = (m, [], mkResponse 413 (error_body too_large)))
    /\ (forall w,
        Part000.validateGenerateBody body = Ok VNull ->
        Part000.generate body w = ([], mkResponse 413 (error_body too_large))).
Proof.
  intros body text Hs Hlen.
  assert (Hcap : (12000 <? length text)%Z = true) by (apply Z.ltb_lt; exact Hlen).
  split.
  - intros w m Hv.
    destruct (validate_ok_object_001 _ Hv) as [props ->].
    unfold Part001.generate, Part001.generate_try.
    cbv beta iota zeta delta [bind lift ret].
    rewrite Hv. cbn [truthy].
    destruct (field_object props (lit "scene_type") VUndefined) as [v1 ->].
    destruct (field_object props (lit "event_id") VUndefined) as [v2 ->].
    destruct (field_object props (lit "world_summary") VUndefined) as [v3 ->].
    destruct (field_object props (lit "event_card") VUndefined) as [v4 ->].
    destruct (field_object props (lit "recent_memory") VUndefined) as [v5 ->].
    destruct (field_object props (lit "player_input") VUndefined) as [v6 ->].
    destruct (field_object props (lit "session_id") (VString (lit "demo"))) as [v7 ->].
    destruct (field_object props (lit "story_id") (VString (lit "pirate"))) as [v8 ->].
    rewrite Hs. unfold Part001.MAX_INPUT_CHARS. rewrite Hcap. unfold too_large. reflexivity.
  - intros w Hv.
    unfold Part000.generate, Part000.generate_try.
    cbv beta iota zeta delta [bind lift ret].
    rewrite Hv. cbn [truthy].
    rewrite Hs. unfold Part000.MAX_INPUT_CHARS. rewrite Hcap. unfold too_large. reflexivity.
Qed.

Lemma oversized_valid_request_is_413_witness :
  Part001.generate oversized_valid_body (world_answering [] None) []
  = ([], [], mkResponse 413 (error_body too_large))
  /\ Part000.generate oversized_valid_body (world_answering [] None)
     = ([], mkResponse 413 (error_body too_large)).
Proof.
  assert (S : exists text, JSON_stringify oversized_valid_body = Some text
                           /\ (12000 <? length text)%Z = true).
  { eexists. split; [reflexivity|]. vm_compute. reflexivity. }
  destruct S as (text & Hs & Hlen). apply Z.ltb_lt in Hlen.
  destruct (oversized_valid_request_is_413 _ Hs Hlen) as [A B].
  split.
  - apply A. vm_compute. reflexivity.
  - apply B. vm_compute. reflexivity.
Defined.

(* ================================================================== *)
(** * C3: what the re-clamp of the session memory drops *)
(* ================================================================== *)

(** C3, evaluated. Three successful turns of the default session. After
    the second turn the memory is full: it holds the first turn and the
    beginning of the second, cut at 4000 characters, so the result of the
    second turn is already lost. The third turn leaves the memory as it
    was: the truncation keeps the oldest content and drops the newest. *)
Theorem saturated_memory_drops_the_newest_turns :
  let first_turn := Part001.turnBlock long_input (lit "A") (lit "a | b | c") in
  let kept := first_turn ++ LF ++ LF ++ lit "PLAYER: " ++ repeat 112%N (Z.to_nat 1953) in
  map status (snd (Part001.serve [] saturating_turns)) = [200; 200; 200]%Z
  /\ memory_of (fst (Part001.serve [] (firstn 1 saturating_turns))) demo = first_turn
  /\ memory_of (fst (Part001.serve [] (firstn 2 saturating_turns))) demo = kept
  /\ memory_of (fst (Part001.serve [] saturating_turns)) demo = kept
  /\ length kept = 4000%Z.
Proof. vm_compute. repeat split. Qed.

(* ================================================================== *)
(** * The prompt of the structured-JSON variant *)
(* ================================================================== *)

Ltac list_norm :=
  unfold LF; repeat (progress (cbn [app]; rewrite <- ?app_assoc)).

Lemma trimStart_nonspace (c : code_unit) (s : jsstring) :
  is_white_space c = false -> trimStart (c :: s) = c :: s.
Proof. intros H. simpl. now rewrite H. Qed.

(** [trim] on a text that starts and ends with one line feed next to a
    character that is no white space. *)
Lemma trim_framed (c d : code_unit) (mid : jsstring) :
  is_white_space c = false -> is_white_space d = false ->
  trim (10%N :: c :: mid ++ [d; 10%N]) = c :: mid ++ [d].
Proof.
  intros Hc Hd. unfold trim, trimEnd.
  change (trimStart (10%N :: c :: mid ++ [d; 10%N])) with (trimStart (c :: mid ++ [d; 10%N])).
  rewrite trimStart_nonspace by exact Hc.
  change (c :: mid ++ [d; 10%N]) with ((c :: mid) ++ [d; 10%N]).
  rewrite rev_app_distr.
  change (rev [d; 10%N]) with [10%N; d].
  change (trimStart ([10%N; d] ++ rev (c :: mid))) with (trimStart (d :: rev (c :: mid))).
  rewrite trimStart_nonspace by exact Hd.
  change (d :: rev (c :: mid)) with (rev [d] ++ rev (c :: mid)).
  rewrite <- rev_app_distr. now rewrite rev_involutive.
Qed.

(** The template, cut at its substitutions: it starts with a line feed
    and [Y], ends with a full stop and a line feed, and the memory stands
    between the header of its section and the header of the next one. *)
Lemma prompt_template_shape (bible stats_line : jsstring) (pl : Part001.payload)
  (memory : jsstring) :
  memory <> [] ->
  exists Q0 P1 P2 P3 Q6,
    Part001.prompt_template bible stats_line pl memory
    = (10%N :: 89%N :: Q0) ++ bible ++ P1 ++ stats_line ++ P2
      ++ Part001.p_world_summary pl ++ P3 ++ Part001.p_event_card pl
      ++ ([10%N; 10%N] ++ lit "RECENT MEMORY (server-side truth):" ++ LF)
      ++ memory ++ (LF ++ LF ++ lit "PLAYER ACTION:" ++ LF)
      ++ Part001.p_player_input pl ++ Q6 ++ [46%N; 10%N].
Proof.
  intros Hne. unfold Part001.prompt_template.
  assert (Ht : truthy (VString memory) = true)
    by (destruct memory; [contradiction|reflexivity]).
  rewrite Ht. cbv iota.
  match goal with
  | |- exists _ _ _ _ _, (?p0 ++ _ ++ ?p1 ++ _ ++ ?p2 ++ _ ++ ?p3 ++ _ ++ ?p4 ++ _
                          ++ ?p5 ++ _ ++ ?p6) = _ =>
    set (P0 := p0); set (P1 := p1); set (P2 := p2); set (P3 := p3);
    set (P4 := p4); set (P5 := p5); set (P6 := p6)
  end.
  set (H4 := lit "RECENT MEMORY (server-side truth):").
  set (H5 := lit "PLAYER ACTION:").
  assert (E0 : P0 = 10%N :: 89%N :: skipn 2 P0) by (vm_compute; reflexivity).
  assert (E6 : P6 = removelast (removelast P6) ++ [46%N; 10%N])
    by (vm_compute; reflexivity).
  assert (E4 : P4 = [10%N; 10%N] ++ H4 ++ LF) by (vm_compute; reflexivity).
  assert (E5 : P5 = LF ++ LF ++ H5 ++ LF) by (vm_compute; reflexivity).
  set (Q0 := skipn 2 P0) in *. set (Q6 := removelast (removelast P6)) in *.
  clearbody Q0 Q6 H4 H5 P1 P2 P3. clearbody P0 P4 P5 P6.
  subst P0 P6 P4 P5.
  exists Q0, P1, P2, P3, Q6. reflexivity.
Qed.

(** The prompt shows the server-side memory, when there is some, between
    the header of its section and the header of the next one. *)
Lemma prompt_shows_memory (bible stats_line : jsstring) (pl : Part001.payload)
  (memory : jsstring) :
  memory <> [] ->
  contains (trim (Part001.prompt_template bible stats_line pl memory))
           (lit "RECENT MEMORY (server-side truth):" ++ LF ++ memory
            ++ LF ++ LF ++ lit "PLAYER ACTION:").
Proof.
  intros Hne.
  destruct (prompt_template_shape bible stats_line pl Hne)
    as (Q0 & P1 & P2 & P3 & Q6 & ->).
  generalize (lit "RECENT MEMORY (server-side truth):") (lit "PLAYER ACTION:").
  intros H4 H5.
  set (mid := Q0 ++ bible ++ P1 ++ stats_line ++ P2 ++ Part001.p_world_summary pl ++ P3
              ++ Part001.p_event_card pl ++ ([10%N; 10%N] ++ H4 ++ LF) ++ memory
              ++ (LF ++ LF ++ H5 ++ LF) ++ Part001.p_player_input pl ++ Q6).
  match goal with
  | |- contains (trim ?t) _ =>
    assert (Em : t = 10%N :: 89%N :: mid ++ [46%N; 10%N])
  end.
  { subst mid. list_norm. reflexivity. }
  rewrite Em. rewrite trim_framed by reflexivity.
  exists (89%N :: Q0 ++ bible ++ P1 ++ stats_line ++ P2 ++ Part001.p_world_summary pl
          ++ P3 ++ Part001.p_event_card pl ++ [10%N; 10%N]),
         (LF ++ Part001.p_player_input pl ++ Q6 ++ [46%N]).
  subst mid. list_norm. reflexivity.
Qed.
(* ================================================================== *)
(** * The memory section of a prompt, with or without memory *)
(* ================================================================== *)

Lemma prompt_template_shape_shown (bible stats_line : jsstring) (pl : Part001.payload)
  (memory : jsstring) :
  exists Q0 P1 P2 P3 Q6,
    Part001.prompt_template bible stats_line pl memory
    = (10%N :: 89%N :: Q0) ++ bible ++ P1 ++ stats_line ++ P2
      ++ Part001.p_world_summary pl ++ P3 ++ Part001.p_event_card pl
      ++ ([10%N; 10%N] ++ lit "RECENT MEMORY (server-side truth):" ++ LF)
      ++ (if truthy (VString memory) then memory else lit "(none)")
      ++ (LF ++ LF ++ lit "PLAYER ACTION:" ++ LF)
      ++ Part001.p_player_input pl ++ Q6 ++ [46%N; 10%N].
Proof.
  unfold Part001.prompt_template.
  generalize (if truthy (VString memory) then memory else lit "(none)").
  intros shown.
  match goal with
  | |- exists _ _ _ _ _, (?p0 ++ _ ++ ?p1 ++ _ ++ ?p2 ++ _ ++ ?p3 ++ _ ++ ?p4 ++ _
                          ++ ?p5 ++ _ ++ ?p6) = _ =>
    set (P0 := p0); set (P1 := p1); set (P2 := p2); set (P3 := p3);
    set (P4 := p4); set (P5 := p5); set (P6 := p6)
  end.
  set (H4 := lit "RECENT MEMORY (server-side truth):").
  set (H5 := lit "PLAYER ACTION:").
  assert (E0 : P0 = 10%N :: 89%N :: skipn 2 P0) by (vm_compute; reflexivity).
  assert (E6 : P6 = removelast (removelast P6) ++ [46%N; 10%N])
    by (vm_compute; reflexivity).
  assert (E4 : P4 = [10%N; 10%N] ++ H4 ++ LF) by (vm_compute; reflexivity).
  assert (E5 : P5 = LF ++ LF ++ H5 ++ LF) by (vm_compute; reflexivity).
  set (Q0 := skipn 2 P0) in *. set (Q6 := removelast (removelast P6)) in *.
  clearbody Q0 Q6 H4 H5 P1 P2 P3. clearbody P0 P4 P5 P6.
  subst P0 P6 P4 P5.
  exists Q0, P1, P2, P3, Q6. reflexivity.
Qed.

Lemma prompt_shows_section (bible stats_line : jsstring) (pl : Part001.payload)
  (memory : jsstring) :
  contains (trim (Part001.prompt_template bible stats_line pl memory))
           (lit "RECENT MEMORY (server-side truth):" ++ LF
            ++ (if truthy (VString memory) then memory else lit "(none)")
            ++ LF ++ LF ++ lit "PLAYER ACTION:").
Proof.
  destruct (prompt_template_shape_shown bible stats_line pl memory)
    as (Q0 & P1 & P2 & P3 & Q6 & ->).
  assert (S : exists shown : jsstring,
             (if truthy (VString memory) then memory else lit "(none)") = shown)
    by (eexists; reflexivity).
  destruct S as (shown & S).
  destruct (truthy (VString memory)); cbv iota in *; rewrite S; clear S;
    generalize (lit "RECENT MEMORY (server-side truth):") (lit "PLAYER ACTION:");
    intros H4 H5.
  all: set (mid := Q0 ++ bible ++ P1 ++ stats_line ++ P2 ++ Part001.p_world_summary pl
               ++ P3 ++ Part001.p_event_card pl ++ ([10%N; 10%N] ++ H4 ++ LF) ++ shown
               ++ (LF ++ LF ++ H5 ++ LF) ++ Part001.p_player_input pl ++ Q6).
  all: match goal with
       | |- contains (trim ?t) _ =>
         assert (Em : t = 10%N :: 89%N :: mid ++ [46%N; 10%N])
           by (subst mid; list_norm; reflexivity)
       end.
  all: rewrite Em; rewrite trim_framed by reflexivity.
  all: exists (89%N :: Q0 ++ bible ++ P1 ++ stats_line ++ P2 ++ Part001.p_world_summary pl
               ++ P3 ++ Part001.p_event_card pl ++ [10%N; 10%N]),
              (LF ++ Part001.p_player_input pl ++ Q6 ++ [46%N]).
  all: subst mid; list_norm; reflexivity.
Qed.

(* ================================================================== *)
(** * C4: the memory of a session reaches the next prompt *)
(* ================================================================== *)

Section SessionLookup.
Import Part001.

Lemma Map_find_set (m : sessions) (k : value) : forall loc mem i,
  Map_find (set_recent_memory m loc mem) k i = Map_find m k i.
Proof.
  induction m as [|[k' s] rest IH]; intros loc mem i; simpl; [reflexivity|].
  destruct loc; simpl; [reflexivity|]. now rewrite IH.
Qed.

Lemma Map_find_getSession (sid : value) (m : sessions) :
  SameValueZero sid sid = true ->
  Map_find (fst (getSession sid m)) sid 0 = Some (snd (getSession sid m)).
Proof.
  intros Hs. unfold getSession. destruct (Map_find m sid 0) eqn:E; cbn [fst snd].
  - exact E.
  - rewrite Map_find_app, E. simpl. now rewrite Hs.
Qed.

Lemma getSession_found (k : value) (m : sessions) (loc : nat) :
  Map_find m k 0 = Some loc -> getSession k m = (m, loc).
Proof. intros H. unfold getSession. now rewrite H. Qed.

(** The memory of the session after a turn that wrote [mem] into it. *)
Lemma memory_of_written (sid : value) (m : sessions) (mem : jsstring) :
  SameValueZero sid sid = true ->
  memory_of (set_recent_memory (fst (getSession sid m)) (snd (getSession sid m)) mem) sid
  = mem.
Proof.
  intros Hs.
  assert (F : Map_find (set_recent_memory (fst (getSession sid m))
                          (snd (getSession sid m)) mem) sid 0
              = Some (snd (getSession sid m)))
    by (rewrite Map_find_set; now apply Map_find_getSession).
  rewrite (@memory_of_found _ _ _ F).
  rewrite session_at_set_same by apply getSession_loc. reflexivity.
Qed.

End SessionLookup.

Lemma turnBlock_nonempty (pi text js : jsstring) : Part001.turnBlock pi text js <> [].
Proof. unfold Part001.turnBlock. discriminate. Qed.

Lemma append_turn_contains (memory pi text js : jsstring) :
  contains (Part001.append_turn memory (Part001.turnBlock pi text js)) text.
Proof.
  unfold Part001.append_turn, Part001.turnBlock.
  exists ((if truthy (VString memory) then memory ++ LF ++ LF else [])
          ++ lit "PLAYER: " ++ pi ++ LF ++ lit "RESULT: "),
         (LF ++ lit "CHOICES: " ++ js).
  repeat rewrite <- app_assoc. reflexivity.
Qed.

Lemma append_turn_nonempty (memory block : jsstring) :
  block <> [] -> Part001.append_turn memory block <> [].
Proof.
  unfold Part001.append_turn. intros Hb E.
  apply app_eq_nil in E. tauto.
Qed.

(** C4. Two successful requests in a row with the same session id, an id
    the session Map finds again: when the summary of the first turn fits
    the 4000 characters of the memory, the prompt sent for the second
    request shows, in its RECENT MEMORY section, the memory the server
    holds for the session, and that memory contains the text of the first
    response. *)
Theorem second_prompt_contains_first_result :
  forall body1 w1 body2 w2 m m1 tr1 r1 m2 tr2 r2 sid,
    Part001.generate body1 w1 m = (m1, tr1, r1) ->
    status r1 = 200%Z ->
    Part001.generate body2 w2 m1 = (m2, tr2, r2) ->
    status r2 = 200%Z ->
    field body1 (lit "session_id") demo = Ok sid ->
    field body2 (lit "session_id") demo = Ok sid ->
    SameValueZero sid sid = true ->
    (forall block,
        turn_summary body1 r1 = Ok block ->
        (length (Part001.append_turn (memory_of m sid) block) <= 4000)%Z) ->
    exists text rq,
      ToString (Get_optional (json r1) (lit "text")) = Ok text /\
      In (EvCreateCompletion rq) tr2 /\
      contains (user_prompt rq)
               (lit "RECENT MEMORY (server-side truth):" ++ LF ++ memory_of m1 sid
                ++ LF ++ LF ++ lit "PLAYER ACTION:") /\
      contains (memory_of m1 sid) text.
Proof.
  intros body1 w1 body2 w2 m m1 tr1 r1 m2 tr2 r2 sid H1 S1 H2 S2 F1 F2 Hs Hfit.
  (* the first turn *)
  apply generate_inv in H1.
  destruct H1 as [(_ & Hst & _) | (sid1 & pin & bible & pl & Hsid & Hpin & Hc & H1)];
    [contradiction|].
  rewrite F1 in Hsid. injection Hsid as <-.
  cbv zeta in H1. destruct H1 as (tail & _ & Hafter).
  unfold after_call in Hafter.
  destruct (chat_completions_create w1 _) as [c|e]; cbv zeta in Hafter;
    [|destruct Hafter as (_ & _ & ->); discriminate].
  destruct (Part001.tryParseModelJson (message_content c)) as [parsed|e];
    [|destruct Hafter as (_ & _ & ->); discriminate].
  destruct (lacks_shape parsed); [destruct Hafter as (_ & _ & ->); discriminate|].
  destruct Hafter as [(e & _ & _ & ->)
                     | (elems & t & js & Hch & Hlen & Ht & Hjs & _ & Hm1 & Hr1)];
    [discriminate|].
  assert (Htext : Get_optional (json r1) (lit "text") = Get_optional parsed (lit "text"))
    by (rewrite Hr1; reflexivity).
  assert (Hchoices : Get_optional (json r1) (lit "choices") = VArray elems)
    by (rewrite Hr1; reflexivity).
  assert (Hsum : turn_summary body1 r1
                 = Ok (Part001.turnBlock (Part001.p_player_input pl) t js)).
  { unfold turn_summary. rewrite Hpin, Hc, Htext, Ht, Hchoices, Hjs. reflexivity. }
  specialize (Hfit _ Hsum).
  change (Part001.recent_memory
            (Part001.session_at (fst (Part001.getSession sid m))
                                (snd (Part001.getSession sid m))))
    with (memory_of m sid) in Hm1.
  rewrite truncate_short in Hm1 by exact Hfit.
  assert (Hmem : memory_of m1 sid
                 = Part001.append_turn (memory_of m sid)
                     (Part001.turnBlock (Part001.p_player_input pl) t js))
    by (rewrite Hm1; now apply memory_of_written).
  (* the second turn *)
  apply generate_inv in H2.
  destruct H2 as [(_ & Hst & _) | (sid2 & pin2 & bible2 & pl2 & Hsid2 & _ & _ & H2)];
    [contradiction|].
  rewrite F2 in Hsid2. injection Hsid2 as <-.
  cbv zeta in H2. destruct H2 as (tail2 & -> & _).
  change (Part001.recent_memory
            (Part001.session_at (fst (Part001.getSession sid m1))
                                (snd (Part001.getSession sid m1))))
    with (memory_of m1 sid).
  rewrite truncate_short by (rewrite Hmem; exact Hfit).
  exists t. eexists. split; [rewrite Htext; exact Ht|].
  split; [right; left; reflexivity|].
  split.
  - change (user_prompt (Part001.completion_request ?p)) with p.
    apply prompt_shows_memory.
    rewrite Hmem. apply append_turn_nonempty, turnBlock_nonempty.
  - rewrite Hmem. apply append_turn_contains.
Qed.

Lemma second_prompt_contains_first_result_witness :
  exists text rq,
    ToString (Get_optional (json (snd first_run)) (lit "text")) = Ok text /\
    In (EvCreateCompletion rq) (snd (fst second_run)) /\
    contains (user_prompt rq)
             (lit "RECENT MEMORY (server-side truth):" ++ LF
              ++ memory_of (fst (fst first_run)) demo
              ++ LF ++ LF ++ lit "PLAYER ACTION:") /\
    contains (memory_of (fst (fst first_run)) demo) text.
Proof.
  apply (@second_prompt_contains_first_result
           look_request (world_answering (three_choices "A") None)
           look_request (world_answering (three_choices "B") None)
           [] (fst (fst first_run)) (snd (fst first_run)) (snd first_run)
           (fst (fst second_run)) (snd (fst second_run)) (snd second_run) demo).
  - unfold first_run.
    destruct (Part001.generate look_request _ []) as [[? ?] ?]. reflexivity.
  - vm_compute. reflexivity.
  - unfold second_run.
    destruct (Part001.generate look_request _ (fst (fst first_run))) as [[? ?] ?].
    reflexivity.
  - vm_compute. reflexivity.
  - vm_compute. reflexivity.
  - vm_compute. reflexivity.
  - vm_compute. reflexivity.
  - intros block H. vm_compute in H. injection H as <-.
    apply Z.leb_le. vm_compute. reflexivity.
Defined.

(* ================================================================== *)
(** * C5: the recovery parser *)
(* ================================================================== *)

Lemma is_prefix_single (c x : code_unit) (s : jsstring) :
  is_prefix [c] (x :: s) = (c =? x)%N.
Proof. simpl. apply andb_true_r. Qed.

Lemma index_from_first (c : code_unit) (rest : jsstring) : forall pre i,
  existsb (N.eqb c) pre = false ->
  index_from [c] (pre ++ c :: rest) i = (i + length pre)%Z.
Proof.
  induction pre as [|x pre IH]; intros i H.
  - cbn [app index_from]. rewrite is_prefix_single, N.eqb_refl.
    unfold length. simpl. lia.
  - cbn [existsb] in H. apply orb_false_iff in H. destruct H as [Hx Hp].
    cbn [app index_from]. rewrite is_prefix_single, Hx.
    rewrite IH by exact Hp. unfold length. cbn [List.length]. lia.
Qed.

(** [indexOf] finds the first occurrence of a character. *)
Lemma indexOf_first (c : code_unit) (pre rest : jsstring) :
  existsb (N.eqb c) pre = false ->
  indexOf (pre ++ c :: rest) [c] = length pre.
Proof. intros H. unfold indexOf. now rewrite index_from_first. Qed.

Lemma last_index_from_absent (c : code_unit) : forall s i best,
  existsb (N.eqb c) s = false -> last_index_from [c] s i best = best.
Proof.
  induction s as [|x s IH]; intros i best H.
  - reflexivity.
  - cbn [existsb] in H. apply orb_false_iff in H. destruct H as [Hx Hs].
    cbn [last_index_from]. rewrite is_prefix_single, Hx. now apply IH.
Qed.

Lemma last_index_from_last (c : code_unit) (post : jsstring) : forall pre i best,
  existsb (N.eqb c) post = false ->
  last_index_from [c] (pre ++ c :: post) i best = (i + length pre)%Z.
Proof.
  induction pre as [|x pre IH]; intros i best H.
  - cbn [app last_index_from]. rewrite is_prefix_single, N.eqb_refl.
    rewrite last_index_from_absent by exact H. unfold length. simpl. lia.
  - cbn [app last_index_from]. rewrite IH by exact H.
    unfold length. cbn [List.length]. lia.
Qed.

(** [lastIndexOf] finds the last occurrence of a character. *)
Lemma lastIndexOf_last (c : code_unit) (pre post : jsstring) :
  existsb (N.eqb c) post = false ->
  lastIndexOf (pre ++ c :: post) [c] = length pre.
Proof. intros H. unfold lastIndexOf. now rewrite last_index_from_last. Qed.

(** [slice] cuts out the middle of a concatenation. *)
Lemma slice_middle (a b c : jsstring) :
  slice (a ++ b ++ c) (length a) (length a + length b) = b.
Proof.
  unfold slice. rewrite !length_app.
  pose proof (length_nonneg a). pose proof (length_nonneg b).
  pose proof (length_nonneg c).
  destruct (length a <? 0)%Z eqn:E1; [apply Z.ltb_lt in E1; lia|].
  destruct (length a + length b <? 0)%Z eqn:E2; [apply Z.ltb_lt in E2; lia|].
  rewrite Z.min_l by lia. rewrite Z.min_l by lia.
  replace (length a + length b - length a)%Z with (length b) by lia.
  unfold length. rewrite !Nat2Z.id.
  rewrite skipn_app, skipn_all, Nat.sub_diag. cbn [skipn app].
  rewrite firstn_app, firstn_all, Nat.sub_diag. cbn [firstn]. apply app_nil_r.
Qed.

(** A text whose first character is no white space and starts no JSON
    value is not JSON. *)
Lemma JSON_parse_bad_start (c : code_unit) (t : jsstring) :
  is_json_ws c = false ->
  existsb (N.eqb c) [123; 91; 34; 116; 102; 110; 45]%N = false ->
  is_digit c = false ->
  JSON_parse (c :: t) = Throw (SyntaxError "Unexpected token in JSON").
Proof.
  intros Hws Hstart Hdigit. unfold JSON_parse.
  replace (2 * List.length (c :: t) + 1)%nat with (S (2 * List.length (c :: t)))
    by lia.
  cbn [parse_value skip_ws]. rewrite Hws.
  cbn [existsb] in Hstart. repeat (apply orb_false_iff in Hstart; destruct Hstart as [? Hstart]).
  repeat match goal with H : (?a =? ?b)%N = false |- _ => rewrite H; clear H end.
  rewrite Hdigit. reflexivity.
Qed.

(** C5, as stated, fails: after the note and the object, trailing junk
    that holds a closing brace moves the end of the slice, and the parser
    throws. *)
Lemma junk_with_brace_is_not_recovered :
  Part001.tryParseModelJson (lit "Note: " ++ three_choices "A" ++ lit " }")
  = Throw (SyntaxError "Unexpected token in JSON").
Proof. vm_compute. reflexivity. Qed.

(** C5, amended. The recovery parser returns what [JSON.parse] returns on
    the raw output when that succeeds; otherwise, when a first opening
    brace stands before a last closing brace, it returns or throws what
    [JSON.parse] does on the slice between them, and without such a slice
    it throws "Invalid JSON". So a note, the object and trailing junk
    without a closing brace parse to the object. *)
Theorem tryParseModelJson_recovers_outer_braces :
  (forall raw v, JSON_parse raw = Ok v -> Part001.tryParseModelJson raw = Ok v)
  /\ (forall raw e,
         JSON_parse raw = Throw e ->
         let start := indexOf raw (lit "{") in
         let end_ := lastIndexOf raw (lit "}") in
         (start <> (-1)%Z /\ end_ <> (-1)%Z /\ (start < end_)%Z ->
          Part001.tryParseModelJson raw = JSON_parse (slice raw start (end_ + 1)))
         /\ (~ (start <> (-1)%Z /\ end_ <> (-1)%Z /\ (start < end_)%Z) ->
             Part001.tryParseModelJson raw = Throw (Error "Invalid JSON")))
  /\ (forall junk,
         no_closing_brace junk = true ->
         Part001.tryParseModelJson (lit "Note: " ++ three_choices "A" ++ junk)
         = Ok embedded_object).
Proof.
  split; [|split].
  - intros raw v H. unfold Part001.tryParseModelJson. now rewrite H.
  - intros raw e H. cbv zeta. unfold Part001.tryParseModelJson. rewrite H.
    destruct (Z.eqb_spec (indexOf raw (lit "{")) (-1));
      destruct (Z.eqb_spec (lastIndexOf raw (lit "}")) (-1));
      destruct (Z.ltb_spec (indexOf raw (lit "{")) (lastIndexOf raw (lit "}")));
      cbn [negb andb]; split; intros K; try reflexivity; try tauto; try lia.
  - intros junk Hj. unfold no_closing_brace in Hj. apply negb_true_iff in Hj.
    set (obj := three_choices "A").
    assert (Eopen : obj = 123%N :: tl obj) by (vm_compute; reflexivity).
    assert (Eclose : obj = removelast obj ++ [125%N]) by (vm_compute; reflexivity).
    assert (Enote : lit "Note: " = 78%N :: tl (lit "Note: ")) by (vm_compute; reflexivity).
    assert (Hparse : JSON_parse obj = Ok embedded_object) by (vm_compute; reflexivity).
    assert (Hpre : existsb (N.eqb 123%N) (lit "Note: ") = false) by (vm_compute; reflexivity).
    assert (Hlen : (length (lit "Note: ") < length (lit "Note: " ++ removelast obj))%Z)
      by (vm_compute; reflexivity).
    assert (Hend : (length (lit "Note: " ++ removelast obj) + 1
                    = length (lit "Note: ") + length obj)%Z)
      by (vm_compute; reflexivity).
    unfold Part001.tryParseModelJson.
    assert (Hfail : JSON_parse (lit "Note: " ++ obj ++ junk)
                    = Throw (SyntaxError "Unexpected token in JSON")).
    { rewrite Enote. cbn [app]. apply JSON_parse_bad_start; reflexivity. }
    rewrite Hfail.
    change (lit "{") with [123%N]. change (lit "}") with [125%N].
    assert (Hstart : indexOf (lit "Note: " ++ obj ++ junk) [123%N] = length (lit "Note: ")).
    { rewrite Eopen. cbn [app]. now apply indexOf_first. }
    assert (Hlast : lastIndexOf (lit "Note: " ++ obj ++ junk) [125%N]
                    = length (lit "Note: " ++ removelast obj)).
    { rewrite Eclose at 1. rewrite <- app_assoc. cbn [app]. rewrite app_assoc.
      now apply lastIndexOf_last. }
    rewrite Hstart, Hlast.
    pose proof (length_nonneg (lit "Note: ")) as Hn.
    destruct (length (lit "Note: ") =? -1)%Z eqn:E1; [apply Z.eqb_eq in E1; lia|].
    destruct (length (lit "Note: " ++ removelast obj) =? -1)%Z eqn:E2;
      [apply Z.eqb_eq in E2; lia|].
    destruct (length (lit "Note: ") <? length (lit "Note: " ++ removelast obj))%Z eqn:E3;
      [|apply Z.ltb_ge in E3; lia].
    cbn [negb andb]. rewrite Hend, slice_middle. exact Hparse.
Qed.

Lemma tryParseModelJson_recovers_witness :
  Part001.tryParseModelJson (lit "Note: " ++ three_choices "A" ++ lit " trailing junk")
  = Ok embedded_object.
Proof.
  apply (proj2 (proj2 tryParseModelJson_recovers_outer_braces)).
  vm_compute. reflexivity.
Defined.

(* ================================================================== *)
(** * C6: clampString *)
(* ================================================================== *)

(** C6, as stated, fails on values that are no strings: a truthy one is
    returned as its string representation without being cut ([true] with
    the limit 3 gives four characters), and a falsy one gives the empty
    string, not its representation ([null] does not give [null]). *)
Lemma clampString_non_strings_escape :
  clampString (VBool true) 3 = Ok (lit "true")
  /\ length (lit "true") = 4%Z
  /\ clampString VNull 10 = Ok []
  /\ ToString VNull = Ok (lit "null").
Proof. vm_compute. repeat split. Qed.

(** C6, amended. With a limit that is not negative, [clampString] returns
    a string no longer than the limit as it is, cuts a longer string to
    its first characters, exactly as many as the limit, returns the empty
    string for every falsy value, and returns the string representation of
    a truthy value that is no string when that representation fits the
    limit. *)
Theorem clampString_cuts_strings_and_blanks_falsy :
  forall max,
    (0 <= max)%Z ->
    (forall s, (length s <= max)%Z -> clampString (VString s) max = Ok s)
    /\ (forall s, (max < length s)%Z ->
                  clampString (VString s) max = Ok (firstn (Z.to_nat max) s)
                  /\ length (firstn (Z.to_nat max) s) = max)
    /\ (forall v, truthy v = false -> clampString v max = Ok [])
    /\ (forall v t, is_string v = false -> truthy v = true ->
                    ToString v = Ok t -> (length t <= max)%Z ->
                    clampString v max = Ok t).
Proof.
  intros max Hmax. repeat split.
  - intros s Hs. rewrite clampString_string. now rewrite truncate_short.
  - rewrite clampString_string. now rewrite truncate_long by lia.
  - unfold length in *. rewrite firstn_length_le by lia. lia.
  - intros v Hv. unfold clampString. now rewrite Hv.
  - intros v t Hs Hv Ht _. unfold clampString. rewrite Hv. cbn [negb].
    destruct v; try discriminate; exact Ht.
Qed.

Lemma clampString_cuts_strings_and_blanks_falsy_witness :
  clampString (VString (lit "hi")) 3 = Ok (lit "hi")
  /\ clampString (VString (lit "hello")) 3 = Ok (lit "hel")
  /\ clampString VNull 3 = Ok []
  /\ clampString (VNumber (number_of_Z 42)) 3 = Ok (lit "42").
Proof.
  assert (H : (0 <= 3)%Z) by lia.
  destruct (clampString_cuts_strings_and_blanks_falsy H) as (A & B & C & D).
  split; [|split; [|split]].
  - apply A. vm_compute. discriminate.
  - destruct (B (lit "hello")) as [E _]; [vm_compute; reflexivity|].
    rewrite E. vm_compute. reflexivity.
  - apply C. reflexivity.
  - apply D; [reflexivity | reflexivity | vm_compute; reflexivity
              | vm_compute; discriminate].
Defined.

(* ================================================================== *)
(** * C7: the validator and the 400 response *)
(* ================================================================== *)

Lemma has_property_object (key : jsstring) (body : value) :
  is_object body = true -> has_property key body = Ok (has_field key body).
Proof. destruct body; try discriminate; reflexivity. Qed.

Lemma missing_field_find (body : value) :
  is_object body = true ->
  forall keys,
    missing_field keys body
    = Ok (option_map (fun k => lit "Missing field: " ++ k)
                     (find (fun k => negb (has_field k body)) keys)).
Proof.
  intros Hobj. induction keys as [|k keys IH]; [reflexivity|].
  cbn [missing_field find]. rewrite has_property_object by exact Hobj.
  destruct (has_field k body); cbn [negb]; [exact IH | reflexivity].
Qed.

Lemma find_first {A : Type} (f : A -> bool) (before : list A) (x : A) (after : list A) :
  (forall y, In y before -> f y = false) -> f x = true ->
  find f (before ++ x :: after) = Some x.
Proof.
  induction before as [|y before IH]; intros Hb Hx; cbn [app find].
  - now rewrite Hx.
  - rewrite (Hb y) by (left; reflexivity). apply IH; [|exact Hx].
    intros z Hz. apply Hb. now right.
Qed.

Lemma find_none_all {A : Type} (f : A -> bool) (l : list A) :
  (forall y, In y l -> f y = false) -> find f l = None.
Proof.
  induction l as [|y l IH]; intros H; [reflexivity|]. cbn [find].
  rewrite (H y) by (left; reflexivity). apply IH. intros z Hz. apply H. now right.
Qed.

Lemma missing_field_first (body : value) (key : jsstring) :
  is_object body = true -> first_missing body key ->
  missing_field required body = Ok (Some (lit "Missing field: " ++ key)).
Proof.
  intros Hobj (before & after & Hreq & Hb & Hk).
  rewrite missing_field_find by exact Hobj. rewrite Hreq.
  rewrite find_first; [reflexivity| |now rewrite Hk].
  intros y Hy. now rewrite (Hb y Hy).
Qed.

Lemma missing_field_none (body : value) :
  is_object body = true ->
  (forall k, In k required -> has_field k body = true) ->
  missing_field required body = Ok None.
Proof.
  intros Hobj Hall. rewrite missing_field_find by exact Hobj.
  rewrite find_none_all; [reflexivity|].
  intros y Hy. now rewrite (Hall y Hy).
Qed.

Lemma missing_field_message (body : value) : forall keys msg,
  missing_field keys body = Ok (Some msg) -> truthy (VString msg) = true.
Proof.
  induction keys as [|k keys IH]; intros msg H; [discriminate|].
  cbn [missing_field] in H.
  destruct (has_property k body) as [[|]|e]; try discriminate.
  - now apply IH.
  - injection H as <-. reflexivity.
Qed.

Lemma Get_object (body : value) (key : jsstring) :
  is_object body = true -> Get body key = Ok (Get_optional body key).
Proof. destruct body; try discriminate; reflexivity. Qed.

Lemma validate_message_001 (body : value) (msg : jsstring) :
  Part001.validateGenerateBody body = Ok (VString msg) -> truthy (VString msg) = true.
Proof.
  unfold Part001.validateGenerateBody.
  destruct (missing_field required body) as [[m|]|e] eqn:E; try discriminate.
  - intros H. injection H as <-. exact (@missing_field_message _ _ _ E).
  - destruct (Get body (lit "scene_type")) as [st|e]; try discriminate.
    destruct (negb _); try discriminate.
    intros H. injection H as <-. vm_compute. reflexivity.
Qed.

Lemma validate_message_000 (body : value) (msg : jsstring) :
  Part000.validateGenerateBody body = Ok (VString msg) -> truthy (VString msg) = true.
Proof.
  unfold Part000.validateGenerateBody.
  destruct (missing_field required body) as [[m|]|e] eqn:E; try discriminate.
  - intros H. injection H as <-. exact (@missing_field_message _ _ _ E).
  - destruct (Get body (lit "scene_type")) as [st|e]; try discriminate.
    destruct (negb _); try discriminate.
    intros H. injection H as <-. vm_compute. reflexivity.
Qed.

Lemma validate_message_js (body : value) (msg : jsstring) :
  ServerJs.validateGenerateBody body = Ok (VString msg) -> truthy (VString msg) = true.
Proof.
  unfold ServerJs.validateGenerateBody.
  destruct (missing_field required body) as [[m|]|e] eqn:E; try discriminate.
  - intros H. injection H as <-. exact (@missing_field_message _ _ _ E).
  - destruct (Get body (lit "scene_type")) as [st|e]; try discriminate.
    destruct (negb _); try discriminate.
    intros H. injection H as <-. vm_compute. reflexivity.
Qed.

(** C7. On a body that is an object, each validator returns the message
    naming the first of the six fields scene_type, event_id,
    world_summary, event_card, recent_memory, player_input (in this order)
    that is missing; when none of the six is missing, it returns the
    message of its scene-type check if the scene type is not one of its
    two accepted values, and no error otherwise. Each handler answers a
    message of its validator with 400 and that message, without touching
    anything else. *)
Theorem validator_names_first_missing_field_and_handler_answers_400 :
  forall body,
    is_object body = true ->
    (forall before key after,
        [lit "scene_type"; lit "event_id"; lit "world_summary"; lit "event_card";
         lit "recent_memory"; lit "player_input"] = before ++ key :: after ->
        (forall k, In k before -> has_field k body = true) ->
        has_field key body = false ->
        let msg := VString (lit "Missing field: " ++ key) in
        Part001.validateGenerateBody body = Ok msg
        /\ Part000.validateGenerateBody body = Ok msg
        /\ ServerJs.validateGenerateBody body = Ok msg)
    /\ ((forall k,
            In k [lit "scene_type"; lit "event_id"; lit "world_summary"; lit "event_card";
                  lit "recent_memory"; lit "player_input"] ->
            has_field k body = true) ->
        let scene_type := Get_optional body (lit "scene_type") in
        Part001.validateGenerateBody body
        = Ok (if includes [VString (lit "choice_point"); VString (lit "narration")] scene_type
              then VNull
              else VString (lit "scene_type must be 'choice_point' or 'narration'"))
        /\ Part000.validateGenerateBody body
           = Ok (if includes [VString (lit "scene_only"); VString (lit "choice_point")] scene_type
                 then VNull
                 else VString (lit "scene_type must be 'scene_only' or 'choice_point'"))
        /\ ServerJs.validateGenerateBody body
           = Ok (if includes [VString (lit "scene_only"); VString (lit "choice_point")] scene_type
                 then VNull
                 else VString (lit "scene_type must be 'scene_only' or 'choice_point'")))
    /\ (forall msg w,
           (Part001.validateGenerateBody body = Ok (VString msg) ->
            forall m, Part001.generate body w m
                      = (m, [], mkResponse 400 (VObject [(lit "error", VString msg)])))
           /\ (Part000.validateGenerateBody body = Ok (VString msg) ->
               Part000.generate body w
               = ([], mkResponse 400 (VObject [(lit "error", VString msg)])))
           /\ (ServerJs.validateGenerateBody body = Ok (VString msg) ->
               ServerJs.generate body w
               = ([], mkResponse 400 (VObject [(lit "error", VString msg)])))).
Proof.
  intros body Hobj. split; [|split].
  - intros before key after Hreq Hb Hk. cbv zeta.
    assert (Hkey : first_missing body key).
    { exists before, after. split; [exact Hreq|]. split; [exact Hb|exact Hk]. }
    unfold Part001.validateGenerateBody, Part000.validateGenerateBody,
           ServerJs.validateGenerateBody.
    rewrite (@missing_field_first body key Hobj Hkey). auto.
  - intros Hall. cbv zeta.
    assert (Hall' : forall k, In k required -> has_field k body = true) by exact Hall.
    unfold Part001.validateGenerateBody, Part000.validateGenerateBody,
           ServerJs.validateGenerateBody.
    rewrite (@missing_field_none body Hobj Hall'). rewrite Get_object by exact Hobj.
    repeat split; match goal with |- context [includes ?l ?v] => destruct (includes l v) end;
      reflexivity.
  - intros msg w. split; [|split].
    + intros Hv m. pose proof (@validate_message_001 _ _ Hv) as Ht.
      unfold Part001.generate, Part001.generate_try.
      cbv beta iota zeta delta [bind lift ret]. rewrite Hv, Ht. reflexivity.
    + intros Hv. pose proof (@validate_message_000 _ _ Hv) as Ht.
      unfold Part000.generate, Part000.generate_try.
      cbv beta iota zeta delta [bind lift ret]. rewrite Hv, Ht. reflexivity.
    + intros Hv. pose proof (@validate_message_js _ _ Hv) as Ht.
      unfold ServerJs.generate, ServerJs.generate_try.
      cbv beta iota zeta delta [bind lift ret]. rewrite Hv, Ht. reflexivity.
Qed.

Lemma validator_names_first_missing_field_witness :
  (Part001.validateGenerateBody scene_type_only_body
   = Ok (VString (lit "Missing field: " ++ lit "event_id"))
   /\ Part001.generate scene_type_only_body (world_answering [] None) []
      = ([], [], mkResponse 400 (VObject [(lit "error",
                                           VString (lit "Missing field: " ++ lit "event_id"))])))
  /\ (Part001.validateGenerateBody no_player_input_body
      = Ok (VString (lit "Missing field: " ++ lit "player_input"))
      /\ Part000.validateGenerateBody no_player_input_body
         = Ok (VString (lit "Missing field: " ++ lit "player_input"))
      /\ ServerJs.generate no_player_input_body (world_answering [] None)
         = ([], mkResponse 400 (VObject [(lit "error",
                                          VString (lit "Missing field: " ++ lit "player_input"))]))).
Proof.
  split.
  - assert (Hobj : is_object scene_type_only_body = true) by reflexivity.
    destruct (validator_names_first_missing_field_and_handler_answers_400 _ Hobj)
      as (A & _ & C).
    assert (V : Part001.validateGenerateBody scene_type_only_body
                = Ok (VString (lit "Missing field: " ++ lit "event_id"))).
    { refine (proj1 (A [lit "scene_type"] (lit "event_id")
                       [lit "world_summary"; lit "event_card"; lit "recent_memory";
                        lit "player_input"] eq_refl _ _)).
      - intros k [<-|[]]. vm_compute. reflexivity.
      - vm_compute. reflexivity. }
    split; [exact V|].
    destruct (C (lit "Missing field: " ++ lit "event_id") (world_answering [] None))
      as (G & _ & _).
    apply G. exact V.
  - assert (Hobj : is_object no_player_input_body = true) by reflexivity.
    destruct (validator_names_first_missing_field_and_handler_answers_400 _ Hobj)
      as (A & _ & C).
    assert (V : Part001.validateGenerateBody no_player_input_body
                = Ok (VString (lit "Missing field: " ++ lit "player_input"))
                /\ Part000.validateGenerateBody no_player_input_body
                   = Ok (VString (lit "Missing field: " ++ lit "player_input"))
                /\ ServerJs.validateGenerateBody no_player_input_body
                   = Ok (VString (lit "Missing field: " ++ lit "player_input"))).
    { refine (A [lit "scene_type"; lit "event_id"; lit "world_summary"; lit "event_card";
                 lit "recent_memory"] (lit "player_input") [] eq_refl _ _).
      - intros k [<-|[<-|[<-|[<-|[<-|[]]]]]]; vm_compute; reflexivity.
      - vm_compute. reflexivity. }
    destruct V as (V1 & V0 & Vj).
    split; [exact V1|]. split; [exact V0|].
    destruct (C (lit "Missing field: " ++ lit "player_input") (world_answering [] None))
      as (_ & _ & G).
    apply G. exact Vj.
Defined.

(* ================================================================== *)
(** * C8: failures are answered 500, once *)
(* ================================================================== *)

Ltac no_call H :=
  injection H as <- <-; left; split; [reflexivity|discriminate].

(** Every run of the prose handler either ends without a completion call
    and without success, or makes exactly one call, answers its failure
    with 500 and the message of the error, and its success with 200. *)
Lemma generate000_inv body w tr r :
  Part000.generate body w = (tr, r) ->
  (completion_calls tr = 0%nat /\ status r <> 200%Z)
  \/ exists pl sys,
      truthy (env_value (OPENAI_API_KEY w)) = true /\
      let rq := Part000.completion_request (MODEL w) sys pl in
      match chat_completions_create w rq with
      | Throw e => tr = [EvCreateCompletion rq; EvConsoleError e]
                   /\ r = server_error_with_detail e
      | Ok c => tr = [EvCreateCompletion rq]
                /\ r = mkResponse 200
                         (VObject [(lit "text", VString (message_content c));
                                   (lit "usage", match usage c with
                                                 | VUndefined | VNull => VNull
                                                 | u => u
                                                 end)])
      end.
Proof.
  intros H. unfold Part000.generate, Part000.generate_try in H.
  cbv beta iota zeta delta [bind lift ret env create_completion] in H.
  destruct (Part000.validateGenerateBody body) as [err|e]; [|no_call H].
  destruct (truthy err); [no_call H|].
  destruct (JSON_stringify body) as [text|]; [|no_call H].
  destruct (Part000.MAX_INPUT_CHARS <? length text)%Z; [no_call H|].
  destruct (Part000.make_payload body) as [pl|e]; [|no_call H].
  destruct (truthy (env_value (OPENAI_API_KEY w))) eqn:Hkey; cbn [negb] in H;
    [|no_call H].
  destruct (Part000.buildSystemPrompt (Part000.p_scene_type pl)) as [sys|e];
    [|no_call H].
  right. exists pl, sys. split; [reflexivity|]. cbv zeta.
  destruct (chat_completions_create w _) as [c|e]; injection H as <- <-;
    split; reflexivity.
Qed.

(** C8, as stated, fails: with the credential absent, a request that
    lacks a required field is answered 400, not 500, since the validator
    comes before the credential check. *)
Lemma absent_credential_invalid_request_is_400 :
  truthy (env_value (OPENAI_API_KEY (world_answering [] None))) = false
  /\ Part000.generate scene_type_only_body (world_answering [] None)
     = ([], mkResponse 400 (VObject [(lit "error",
                                      VString (lit "Missing field: event_id"))])).
Proof. split; vm_compute; reflexivity. Qed.

(** C8, amended. With the credential absent, the variant that checks it never
    calls the completion API and answers 400, 413 or 500; a request that
    passed the validator and the cap is answered 500, with the message
    that names the missing credential once the payload is built. An
    exception of the completion call is answered 500 by both variants
    that can call: with "Server error" and, as detail, the message of the
    error (its name when the message is empty) in the prose variant, with
    "server error" in the structured-JSON variant; a model output that
    does not parse is answered 500 too. In each case the API was called
    once, no success is reported and the session memory is what it was;
    no run calls the API twice. *)
Theorem failures_are_answered_500_without_retry :
  (forall body w,
      truthy (env_value (OPENAI_API_KEY w)) = false ->
      completion_calls (fst (Part000.generate body w)) = 0%nat
      /\ (status (snd (Part000.generate body w)) = 400%Z
          \/ status (snd (Part000.generate body w)) = 413%Z
          \/ status (snd (Part000.generate body w)) = 500%Z))
  /\ (forall body w text,
         truthy (env_value (OPENAI_API_KEY w)) = false ->
         Part000.validateGenerateBody body = Ok VNull ->
         JSON_stringify body = Some text ->
         (length text <= 12000)%Z ->
         status (snd (Part000.generate body w)) = 500%Z
         /\ (forall pl, Part000.make_payload body = Ok pl ->
                        Part000.generate body w
                        = ([], mkResponse 500
                                 (VObject [(lit "error",
                                            VString (lit "Missing OPENAI_API_KEY in .env"))]))))
  /\ (forall body w tr r rq e,
         Part000.generate body w = (tr, r) ->
         In (EvCreateCompletion rq) tr ->
         chat_completions_create w rq = Throw e ->
         completion_calls tr = 1%nat
         /\ exists detail,
             r = mkResponse 500 (VObject [(lit "error", VString (lit "Server error"));
                                          (lit "detail", VString detail)])
             /\ (exn_message e <> [] -> detail = exn_message e)
             /\ (exn_message e = [] -> detail = exn_name e))
  /\ (forall body w m m' tr r rq,
         Part001.generate body w m = (m', tr, r) ->
         In (EvCreateCompletion rq) tr ->
         completion_calls tr = 1%nat
         /\ (forall e,
                chat_completions_create w rq = Throw e ->
                r = mkResponse 500 (VObject [(lit "error", VString (lit "server error"))])
                /\ forall k, memory_of m' k = memory_of m k)
         /\ (forall c e,
                chat_completions_create w rq = Ok c ->
                Part001.tryParseModelJson (message_content c) = Throw e ->
                r = mkResponse 500
                      (VObject [(lit "error", VString (lit "Model did not return valid JSON"));
                                (lit "raw", VString (message_content c))])
                /\ forall k, memory_of m' k = memory_of m k))
  /\ (forall body w, (completion_calls (fst (Part000.generate body w)) <= 1)%nat)
  /\ (forall body w m, (completion_calls (snd (fst (Part001.generate body w m))) <= 1)%nat).
Proof.
  split; [|split; [|split; [|split; [|split]]]].
  - intros body w Hkey.
    unfold Part000.generate, Part000.generate_try.
    cbv beta iota zeta delta [bind lift ret env create_completion].
    destruct (Part000.validateGenerateBody body) as [err|e];
      [|split; [reflexivity|right; right; reflexivity]].
    destruct (truthy err); [split; [reflexivity|left; reflexivity]|].
    destruct (JSON_stringify body) as [text|];
      [|split; [reflexivity|right; right; reflexivity]].
    destruct (Part000.MAX_INPUT_CHARS <? length text)%Z;
      [split; [reflexivity|right; left; reflexivity]|].
    destruct (Part000.make_payload body) as [pl|e];
      [|split; [reflexivity|right; right; reflexivity]].
    rewrite Hkey. cbn [negb]. split; [reflexivity|right; right; reflexivity].
  - intros body w text Hkey Hv Hs Hlen.
    assert (Hcap : (12000 <? length text)%Z = false) by (apply Z.ltb_ge; exact Hlen).
    unfold Part000.generate, Part000.generate_try.
    cbv beta iota zeta delta [bind lift ret env create_completion].
    rewrite Hv. cbn [truthy]. rewrite Hs. unfold Part000.MAX_INPUT_CHARS. rewrite Hcap.
    destruct (Part000.make_payload body) as [pl|e].
    + rewrite Hkey. cbn [negb]. split; [reflexivity|]. intros pl0 _. reflexivity.
    + split; [reflexivity|]. intros pl Hpl. discriminate.
  - intros body w tr r rq e H Hin Hc.
    apply generate000_inv in H.
    destruct H as [(Hcalls & _) | (pl & sys & _ & H)].
    + now apply completion_calls_In in Hin.
    + cbv zeta in H.
      destruct (chat_completions_create w (Part000.completion_request _ sys pl))
        as [c|e0] eqn:Hc0; destruct H as (-> & ->).
      * destruct Hin as [Hin|[]]. injection Hin as <-. congruence.
      * destruct Hin as [Hin|[Hin|[]]]; [|discriminate].
        injection Hin as <-. rewrite Hc0 in Hc. injection Hc as <-.
        split; [reflexivity|].
        exists (error_detail e0). split; [reflexivity|].
        unfold error_detail. destruct (exn_message e0) as [|c0 msg].
        -- split; [intros N; now contradiction N|reflexivity].
        -- split; [reflexivity|discriminate].
  - intros body w m m' tr r rq H Hin.
    apply generate_inv in H.
    destruct H as [(Hcalls & _) | (sid & pin & bible & pl & _ & _ & _ & H)];
      [now apply completion_calls_In in Hin|].
    cbv zeta in H. destruct H as (tail & -> & Hafter).
    pose proof (@after_call_tail _ _ _ _ _ _ _ _ _ Hafter) as Htail.
    apply the_completion_call in Hin; [|exact Htail]. subst rq.
    split; [|split].
    + rewrite completion_calls_app, Htail. reflexivity.
    + intros e Hc. unfold after_call in Hafter. rewrite Hc in Hafter.
      destruct Hafter as (_ & -> & ->). split; [reflexivity|].
      intros k. apply memory_of_getSession.
    + intros c e Hc Hp. unfold after_call in Hafter. rewrite Hc in Hafter.
      cbv zeta in Hafter. rewrite Hp in Hafter.
      destruct Hafter as (_ & -> & ->). split; [reflexivity|].
      intros k. apply memory_of_getSession.
  - intros body w. destruct (Part000.generate body w) as [tr r] eqn:H.
    apply generate000_inv in H. cbn [fst].
    destruct H as [(-> & _) | (pl & sys & _ & H)]; [lia|].
    cbv zeta in H. destruct (chat_completions_create w _); destruct H as (-> & _);
      cbn; lia.
  - intros body w m. destruct (Part001.generate body w m) as [[m' tr] r] eqn:H.
    apply generate_inv in H. cbn [fst snd].
    destruct H as [(-> & _) | (sid & pin & bible & pl & _ & _ & _ & H)]; [lia|].
    cbv zeta in H. destruct H as (tail & -> & Hafter).
    rewrite completion_calls_app, (@after_call_tail _ _ _ _ _ _ _ _ _ Hafter).
    cbn. lia.
Qed.

Lemma failures_are_answered_500_witness :
  Part000.generate choice_request (world_answering [] None)
  = ([], mkResponse 500 (VObject [(lit "error",
                                   VString (lit "Missing OPENAI_API_KEY in .env"))]))
  /\ snd (Part000.generate choice_request (world_failing boom))
     = mkResponse 500 (VObject [(lit "error", VString (lit "Server error"));
                                (lit "detail", VString (lit "upstream timeout"))])
  /\ snd (Part001.generate choice_request (world_failing boom) [])
     = mkResponse 500 (VObject [(lit "error", VString (lit "server error"))]).
Proof.
  destruct failures_are_answered_500_without_retry as (_ & A & B & C & _).
  assert (S : exists text, JSON_stringify choice_request = Some text
                           /\ (length text <=? 12000)%Z = true).
  { eexists. split; [reflexivity|]. vm_compute. reflexivity. }
  destruct S as (text & Hs & Hlen). apply Z.leb_le in Hlen.
  destruct (A choice_request (world_answering [] None) text) as (_ & A3);
    [reflexivity | vm_compute; reflexivity | exact Hs | exact Hlen |].
  split; [|split].
  - assert (P : exists pl, Part000.make_payload choice_request = Ok pl)
      by (eexists; vm_compute; reflexivity).
    destruct P as (pl & Hpl). exact (A3 pl Hpl).
  - destruct (Part000.generate choice_request (world_failing boom)) as [tr r] eqn:G.
    assert (Q : exists rq, In (EvCreateCompletion rq) tr).
    { assert (T : tr = fst (Part000.generate choice_request (world_failing boom)))
        by (rewrite G; reflexivity).
      rewrite T. eexists. vm_compute. left. reflexivity. }
    destruct Q as (rq & Hin).
    destruct (B _ _ _ _ rq boom G Hin eq_refl) as (_ & detail & -> & D & _).
    cbn [snd]. rewrite D; [reflexivity|]. vm_compute. discriminate.
  - destruct (Part001.generate choice_request (world_failing boom) []) as [[m' tr] r] eqn:G.
    assert (Q : exists rq, In (EvCreateCompletion rq) tr).
    { assert (T : tr = snd (fst (Part001.generate choice_request (world_failing boom) [])))
        by (rewrite G; reflexivity).
      rewrite T. eexists. vm_compute. right. left. reflexivity. }
    destruct Q as (rq & Hin).
    destruct (C _ _ _ _ _ _ rq G Hin) as (_ & D & _).
    exact (proj1 (D boom eq_refl)).
Defined.

(* ================================================================== *)
(** * C9: the stats of a session *)
(* ================================================================== *)

Section Stats.
Import Part001.

Lemma stats_of_set (m : sessions) : forall loc mem,
  stats_of (set_recent_memory m loc mem) = stats_of m.
Proof.
  induction m as [|[k s] rest IH]; intros loc mem; simpl; [reflexivity|].
  destruct loc; simpl; [reflexivity|]. now rewrite IH.
Qed.

Lemma stats_of_getSession (sid : value) (m : sessions) :
  stats_of (fst (getSession sid m)) = stats_of m
  \/ stats_of (fst (getSession sid m)) = stats_of m ++ [(sid, default_stats)].
Proof.
  unfold getSession. destruct (Map_find m sid 0); cbn [fst]; [now left|].
  right. unfold stats_of. now rewrite map_app.
Qed.

Lemma default_stats_of (m : sessions) :
  default_stats_everywhere m
  <-> Forall (fun p => snd p = default_stats) (stats_of m).
Proof.
  unfold default_stats_everywhere, stats_of. rewrite Forall_map. reflexivity.
Qed.

Lemma default_stats_session_at (m : sessions) (loc : nat) :
  default_stats_everywhere m -> stats (session_at m loc) = default_stats.
Proof.
  intros H. unfold session_at.
  destruct (nth_error m loc) as [[k s]|] eqn:E; [|reflexivity].
  apply nth_error_In in E.
  unfold default_stats_everywhere in H. rewrite Forall_forall in H.
  exact (H _ E).
Qed.

(** One request changes no stats: the ids and stats of the store are what
    they were, with at most one new session that has the default stats. *)
Lemma generate_keeps_stats body w m m' tr r :
  generate body w m = (m', tr, r) ->
  stats_of m' = stats_of m
  \/ exists sid, stats_of m' = stats_of m ++ [(sid, default_stats)].
Proof.
  intros H. apply generate_inv in H.
  assert (G : forall sid,
             stats_of (fst (getSession sid m)) = stats_of m
             \/ exists sid', stats_of (fst (getSession sid m))
                             = stats_of m ++ [(sid', default_stats)]).
  { intros sid. destruct (stats_of_getSession sid m) as [E|E]; [now left|].
    right. now exists sid. }
  destruct H as [(_ & _ & [-> | (sid & _ & ->)])
                | (sid & pin & bible & pl & _ & _ & _ & H)].
  - now left.
  - apply G.
  - cbv zeta in H. destruct H as (tail & _ & Hafter). unfold after_call in Hafter.
    destruct (chat_completions_create w _) as [c|e]; cbv zeta in Hafter.
    + destruct (tryParseModelJson (message_content c)) as [parsed|e].
      * destruct (lacks_shape parsed).
        -- destruct Hafter as (_ & -> & _). apply G.
        -- destruct Hafter as [(e & _ & -> & _)
                              | (elems & t & js & _ & _ & _ & _ & _ & -> & _)].
           ++ apply G.
           ++ rewrite stats_of_set. apply G.
      * destruct Hafter as (_ & -> & _). apply G.
    + destruct Hafter as (_ & -> & _). apply G.
Qed.

Lemma generate_keeps_default_stats body w m m' tr r :
  generate body w m = (m', tr, r) ->
  default_stats_everywhere m -> default_stats_everywhere m'.
Proof.
  intros H Hm. rewrite default_stats_of in *.
  destruct (@generate_keeps_stats _ _ _ _ _ _ H) as [-> | (sid & ->)]; [exact Hm|].
  apply Forall_app. split; [exact Hm|]. now constructor.
Qed.

Lemma default_stats_getSession (sid : value) (m : sessions) :
  default_stats_everywhere m -> default_stats_everywhere (fst (getSession sid m)).
Proof.
  intros Hm. rewrite default_stats_of in *.
  destruct (stats_of_getSession sid m) as [-> | ->]; [exact Hm|].
  apply Forall_app. split; [exact Hm|]. now constructor.
Qed.

(** A 200 response shows the default stats when the store holds only
    default stats. *)
Lemma generate_shows_default_stats body w m m' tr r :
  generate body w m = (m', tr, r) ->
  default_stats_everywhere m ->
  status r = 200%Z ->
  Get_optional (json r) (lit "stats") = stats_value default_stats.
Proof.
  intros H Hm Hs. apply generate_inv in H.
  destruct H as [(_ & Hst & _) | (sid & pin & bible & pl & _ & _ & _ & H)];
    [contradiction|].
  cbv zeta in H. destruct H as (tail & _ & Hafter). unfold after_call in Hafter.
  destruct (chat_completions_create w _) as [c|e]; cbv zeta in Hafter;
    [|destruct Hafter as (_ & _ & ->); discriminate].
  destruct (tryParseModelJson (message_content c)) as [parsed|e];
    [|destruct Hafter as (_ & _ & ->); discriminate].
  destruct (lacks_shape parsed); [destruct Hafter as (_ & _ & ->); discriminate|].
  destruct Hafter as [(e & _ & _ & ->)
                     | (elems & t & js & _ & _ & _ & _ & _ & _ & ->)];
    [discriminate|].
  rewrite (@default_stats_session_at _ _ (@default_stats_getSession sid _ Hm)).
  reflexivity.
Qed.

End Stats.

(** C9. In the structured-JSON variant a session is created with the
    stats health 10, reputation 0, money 0, and no request changes the
    stats of any session: after any sequence of requests on a server that
    started with no session, every session has these stats and every 200
    response carries them, as the object that is serialized
    [{"health":10,"reputation":0,"money":0}]; one request leaves the ids
    and stats of the store as they were, with at most one new session,
    which has these stats. *)
Theorem stats_are_never_modified :
  (forall sid m,
      Part001.Map_find m sid 0 = None ->
      Part001.stats (Part001.session_at (fst (Part001.getSession sid m))
                                        (snd (Part001.getSession sid m)))
      = Part001.mkStats (number_of_Z 10) (number_of_Z 0) (number_of_Z 0))
  /\ (forall reqs,
         Forall (fun entry =>
                   Part001.stats (snd entry)
                   = Part001.mkStats (number_of_Z 10) (number_of_Z 0) (number_of_Z 0))
                (fst (Part001.serve [] reqs))
         /\ Forall (fun r =>
                      status r = 200%Z ->
                      Get_optional (json r) (lit "stats")
                      = VObject [(lit "health", VNumber (number_of_Z 10));
                                 (lit "reputation", VNumber (number_of_Z 0));
                                 (lit "money", VNumber (number_of_Z 0))]
                      /\ JSON_stringify (Get_optional (json r) (lit "stats"))
                         = Some (litq "{`health`:10,`reputation`:0,`money`:0}"))
                   (snd (Part001.serve [] reqs)))
  /\ (forall body w m,
         stats_of (fst (fst (Part001.generate body w m))) = stats_of m
         \/ exists sid,
             stats_of (fst (fst (Part001.generate body w m)))
             = stats_of m
               ++ [(sid, Part001.mkStats (number_of_Z 10) (number_of_Z 0) (number_of_Z 0))]).
Proof.
  split; [|split].
  - intros sid m F. unfold Part001.getSession. rewrite F. cbn [fst snd].
    rewrite session_at_app_new. reflexivity.
  - intros reqs.
    assert (K : forall m, default_stats_everywhere m ->
                default_stats_everywhere (fst (Part001.serve m reqs))
                /\ Forall (fun r => status r = 200%Z ->
                                    Get_optional (json r) (lit "stats")
                                    = Part001.stats_value Part001.default_stats)
                          (snd (Part001.serve m reqs))).
    { induction reqs as [|[body w] rest IH]; intros m Hm.
      - split; [exact Hm | constructor].
      - cbn [Part001.serve].
        destruct (Part001.generate body w m) as [[m' tr] r] eqn:G.
        pose proof (@generate_keeps_default_stats _ _ _ _ _ _ G Hm) as Hm'.
        destruct (IH m' Hm') as [A B].
        destruct (Part001.serve m' rest) as [m'' rs]. cbn [fst snd] in *.
        split; [exact A|]. constructor; [|exact B].
        intros Hs. exact (@generate_shows_default_stats _ _ _ _ _ _ G Hm Hs). }
    destruct (K [] (Forall_nil _)) as [A B]. split; [exact A|].
    revert B. apply Forall_impl. intros r Hr Hs. rewrite (Hr Hs).
    split; [reflexivity|]. vm_compute. reflexivity.
  - intros body w m.
    destruct (Part001.generate body w m) as [[m' tr] r] eqn:G. cbn [fst].
    exact (@generate_keeps_stats _ _ _ _ _ _ G).
Qed.

Lemma stats_are_never_modified_witness :
  exists r rest,
    snd (Part001.serve [] saturating_turns) = r :: rest
    /\ status r = 200%Z
    /\ Get_optional (json r) (lit "stats")
       = VObject [(lit "health", VNumber (number_of_Z 10));
                  (lit "reputation", VNumber (number_of_Z 0));
                  (lit "money", VNumber (number_of_Z 0))]
    /\ JSON_stringify (Get_optional (json r) (lit "stats"))
       = Some (litq "{`health`:10,`reputation`:0,`money`:0}").
Proof.
  destruct stats_are_never_modified as (_ & K & _).
  destruct (K saturating_turns) as [_ B].
  assert (E : exists r rest,
             snd (Part001.serve [] saturating_turns) = r :: rest /\ status r = 200%Z).
  { eexists. eexists. split; vm_compute; reflexivity. }
  destruct E as (r & rest & E & S). exists r, rest.
  rewrite E in B. apply Forall_inv in B.
  split; [exact E|]. split; [exact S|]. exact (B S).
Defined.

(* ================================================================== *)
(** * C10: the default session id *)
(* ================================================================== *)

Section OtherSessions.
Import Part001.

Lemma Map_find_key (m : sessions) (k : value) : forall i loc,
  Map_find m k i = Some loc ->
  exists k' s, nth_error m (loc - i) = Some (k', s) /\ SameValueZero k' k = true.
Proof.
  induction m as [|[k' s] rest IH]; intros i loc H; [discriminate|].
  cbn [Map_find] in H. destruct (SameValueZero k' k) eqn:E.
  - injection H as <-. rewrite Nat.sub_diag. exists k', s. now split.
  - pose proof (Map_find_bound _ _ _ H) as B.
    destruct (IH _ _ H) as (k'' & s' & Hn & Hk).
    exists k'', s'. split; [|exact Hk].
    replace (loc - i)%nat with (S (loc - S i)) by lia. exact Hn.
Qed.

Lemma session_at_set_other (m : sessions) : forall loc loc' mem,
  loc <> loc' ->
  session_at (set_recent_memory m loc mem) loc' = session_at m loc'.
Proof.
  unfold session_at.
  induction m as [|[k s] rest IH]; intros loc loc' mem Hne; [reflexivity|].
  destruct loc, loc'; simpl; try reflexivity; [contradiction|].
  apply IH. congruence.
Qed.

(** Writing the memory of one session leaves the memory of the ids that
    designate another session, or none, as it was. *)
Lemma memory_of_set_other (m : sessions) (loc : nat) (mem : jsstring) (k : value) :
  Map_find m k 0 <> Some loc ->
  memory_of (set_recent_memory m loc mem) k = memory_of m k.
Proof.
  intros Hne. destruct (Map_find m k 0) as [l|] eqn:E.
  - assert (F : Map_find (set_recent_memory m loc mem) k 0 = Some l)
      by (rewrite Map_find_set; exact E).
    rewrite (@memory_of_found _ _ _ F), (@memory_of_found _ _ _ E).
    rewrite session_at_set_other by congruence. reflexivity.
  - assert (F : Map_find (set_recent_memory m loc mem) k 0 = None)
      by (rewrite Map_find_set; exact E).
    now rewrite (@memory_of_absent _ _ F), (@memory_of_absent _ _ E).
Qed.

Lemma SameValueZero_string (k : value) (s : jsstring) :
  SameValueZero k (VString s) = true -> k = VString s.
Proof.
  destruct k as [ | | |n|x| | ]; cbn [SameValueZero]; try discriminate.
  - destruct n as [| |neg [|p] e]; discriminate.
  - unfold str_eqb. destruct (list_eq_dec N.eq_dec x s); [now subst|discriminate].
Qed.

Lemma SameValueZero_string_refl (s : jsstring) :
  SameValueZero (VString s) (VString s) = true.
Proof.
  cbn [SameValueZero]. unfold str_eqb.
  destruct (list_eq_dec N.eq_dec s s); [reflexivity|contradiction].
Qed.

(** A turn of the session of a string id leaves the memory of every other
    id as it was. *)
Lemma memory_of_other_session (s : jsstring) (m : sessions) (mem : jsstring) (k : value) :
  SameValueZero (VString s) k = false ->
  memory_of (set_recent_memory (fst (getSession (VString s) m))
                               (snd (getSession (VString s) m)) mem) k
  = memory_of m k.
Proof.
  intros Hk. rewrite memory_of_set_other; [apply memory_of_getSession|].
  intros F.
  pose proof (@Map_find_getSession (VString s) m (SameValueZero_string_refl s)) as G.
  destruct (Map_find_key _ _ _ F) as (k1 & s1 & N1 & K1).
  destruct (Map_find_key _ _ _ G) as (k2 & s2 & N2 & K2).
  rewrite N1 in N2. injection N2 as <- <-.
  apply SameValueZero_string in K2. subst k1. congruence.
Qed.

End OtherSessions.

Lemma field_absent (props : list (jsstring * value)) (key : jsstring) (default : value) :
  has_own props key = false -> field (VObject props) key default = Ok default.
Proof.
  unfold has_own, field. cbn [Get].
  destruct (lookup props key); [discriminate|reflexivity].
Qed.

(** C10. A request body without [session_id] is handled with the session
    id [demo]: the destructuring of the structured-JSON variant and of
    server.js defaults to it, and so does the payload of the prose variant.
    In the structured-JSON variant the prompt of the request shows, in
    its RECENT MEMORY section, the memory the server holds for the session
    [demo]; a 200 response echoes [demo], and the memory of the session
    [demo] is afterwards what it was, then the lines PLAYER, RESULT and
    CHOICES of this turn, cut at 4000 characters; the memory of every
    other id is left as it was. *)
Theorem omitted_session_id_is_demo :
  forall props,
    has_own props (lit "session_id") = false ->
    field (VObject props) (lit "session_id") (VString (lit "demo")) = Ok (VString (lit "demo"))
    /\ (forall w m m' tr r,
           Part001.generate (VObject props) w m = (m', tr, r) ->
           (status r = 200%Z ->
            Get_optional (json r) (lit "session_id") = VString (lit "demo")
            /\ exists sent player_input text elems choices,
                field (VObject props) (lit "player_input") VUndefined = Ok sent
                /\ clampString sent 2000 = Ok player_input
                /\ ToString (Get_optional (json r) (lit "text")) = Ok text
                /\ Get_optional (json r) (lit "choices") = VArray elems
                /\ Array_join elems (lit " | ") = Ok choices
                /\ memory_of m' (VString (lit "demo"))
                   = truncate
                       (match memory_of m (VString (lit "demo")) with
                        | [] => []
                        | old => old ++ LF ++ LF
                        end
                        ++ lit "PLAYER: " ++ player_input ++ LF
                        ++ lit "RESULT: " ++ text ++ LF
                        ++ lit "CHOICES: " ++ choices)
                       4000)
           /\ (forall rq,
                  In (EvCreateCompletion rq) tr ->
                  contains (user_prompt rq)
                           (lit "RECENT MEMORY (server-side truth):" ++ LF
                            ++ (match truncate (memory_of m (VString (lit "demo"))) 4000 with
                                | [] => lit "(none)"
                                | shown => shown
                                end)
                            ++ LF ++ LF ++ lit "PLAYER ACTION:"))
           /\ (forall k, SameValueZero (VString (lit "demo")) k = false ->
                         memory_of m' k = memory_of m k))
    /\ (forall pl, Part000.make_payload (VObject props) = Ok pl ->
                   Part000.p_session_id pl = lit "demo")
    /\ (forall f, ServerJs.destructure (VObject props) = Ok f ->
                  ServerJs.f_session_id f = VString (lit "demo")).
Proof.
  intros props Hno. change (VString (lit "demo")) with demo.
  assert (Hfield : field (VObject props) (lit "session_id") demo = Ok demo)
    by (now apply field_absent).
  split; [exact Hfield|]. split; [|split].
  - intros w m m' tr r H. apply generate_inv in H.
    destruct H as [(Hcalls & Hst & Hm) | (sid & pin & bible & pl & Hsid & Hpin & Hc & H)].
    + split; [intros E; contradiction|]. split.
      * intros rq Hin. now apply completion_calls_In in Hin.
      * intros k Hk. destruct Hm as [-> | (sid & _ & ->)]; [reflexivity|].
        apply memory_of_getSession.
    + rewrite Hfield in Hsid. injection Hsid as <-.
      cbv zeta in H. destruct H as (tail & -> & Hafter).
      pose proof (@after_call_tail _ _ _ _ _ _ _ _ _ Hafter) as Htail.
      split; [|split].
      * intros Hs. unfold after_call in Hafter.
        destruct (chat_completions_create w _) as [c|e]; cbv zeta in Hafter;
          [|destruct Hafter as (_ & _ & ->); discriminate].
        destruct (Part001.tryParseModelJson (message_content c)) as [parsed|e];
          [|destruct Hafter as (_ & _ & ->); discriminate].
        destruct (lacks_shape parsed); [destruct Hafter as (_ & _ & ->); discriminate|].
        destruct Hafter as [(e & _ & _ & ->)
                           | (elems & t & js & Hch & Hlen & Ht & Hjs & _ & -> & Hr)];
          [discriminate|].
        assert (Htext : Get_optional (json r) (lit "text")
                        = Get_optional parsed (lit "text"))
          by (rewrite Hr; reflexivity).
        assert (Hchoices : Get_optional (json r) (lit "choices") = VArray elems)
          by (rewrite Hr; reflexivity).
        split; [rewrite Hr; reflexivity|].
        exists pin, (Part001.p_player_input pl), t, elems, js.
        split; [exact Hpin|]. split; [exact Hc|].
        split; [rewrite Htext; exact Ht|]. split; [exact Hchoices|].
        split; [exact Hjs|].
        rewrite memory_of_written by reflexivity.
        change (Part001.recent_memory
                  (Part001.session_at (fst (Part001.getSession demo m))
                                      (snd (Part001.getSession demo m))))
          with (memory_of m demo).
        unfold Part001.append_turn, Part001.turnBlock.
        destruct (memory_of m demo) as [|c0 old]; reflexivity.
      * intros rq Hin. apply the_completion_call in Hin; [|exact Htail]. subst rq.
        change (user_prompt (Part001.completion_request ?p)) with p.
        change (Part001.recent_memory
                  (Part001.session_at (fst (Part001.getSession demo m))
                                      (snd (Part001.getSession demo m))))
          with (memory_of m demo).
        pose proof (prompt_shows_section bible
                      (Part001.statsLine
                         (Part001.session_at (fst (Part001.getSession demo m))
                                             (snd (Part001.getSession demo m))))
                      pl (truncate (memory_of m demo) 4000)) as P.
        destruct (truncate (memory_of m demo) 4000); exact P.
      * intros k Hk. unfold after_call in Hafter.
        destruct (chat_completions_create w _) as [c|e]; cbv zeta in Hafter;
          [|destruct Hafter as (_ & -> & _); apply memory_of_getSession].
        destruct (Part001.tryParseModelJson (message_content c)) as [parsed|e];
          [|destruct Hafter as (_ & -> & _); apply memory_of_getSession].
        destruct (lacks_shape parsed);
          [destruct Hafter as (_ & -> & _); apply memory_of_getSession|].
        destruct Hafter as [(e & _ & -> & _)
                           | (elems & t & js & _ & _ & _ & _ & _ & -> & _)];
          [apply memory_of_getSession|].
        apply memory_of_other_session. exact Hk.
  - intros pl. unfold Part000.make_payload. cbn [Get].
    assert (L : lookup props (lit "session_id") = None)
      by (unfold has_own in Hno; destruct (lookup props (lit "session_id"));
          [discriminate|reflexivity]).
    rewrite L. cbn [truthy]. rewrite clampString_string.
    assert (T : truncate (lit "demo") 80 = lit "demo") by (vm_compute; reflexivity).
    rewrite T.
    repeat match goal with
           | |- match ?x with _ => _ end = _ -> _ =>
             destruct x; try discriminate
           end.
    intros H. injection H as <-. reflexivity.
  - intros f. unfold ServerJs.destructure.
    change (VString (lit "demo")) with demo. rewrite Hfield.
    repeat match goal with
           | |- match ?x with _ => _ end = _ -> _ =>
             destruct x; try discriminate
           end.
    intros H. injection H as <-. reflexivity.
Qed.

Lemma omitted_session_id_is_demo_witness :
  Get_optional (json (snd first_run)) (lit "session_id") = VString (lit "demo")
  /\ memory_of (fst (fst first_run)) (VString (lit "demo"))
     = lit "PLAYER: look" ++ LF ++ lit "RESULT: A" ++ LF ++ lit "CHOICES: a | b | c"
  /\ (exists rq,
         In (EvCreateCompletion rq) (snd (fst second_run))
         /\ contains (user_prompt rq)
                     (lit "RECENT MEMORY (server-side truth):" ++ LF
                      ++ (lit "PLAYER: look" ++ LF ++ lit "RESULT: A" ++ LF
                          ++ lit "CHOICES: a | b | c")
                      ++ LF ++ LF ++ lit "PLAYER ACTION:"))
  /\ forall k, SameValueZero (VString (lit "demo")) k = false ->
               memory_of (fst (fst first_run)) k = memory_of [] k.
Proof.
  set (props := [(lit "scene_type", VString (lit "narration"));
                 (lit "event_id", VString (lit "e1"));
                 (lit "world_summary", VString (lit "A harbour town."));
                 (lit "event_card", VString (lit "A stranger arrives."));
                 (lit "recent_memory", VString (lit "client memory"));
                 (lit "player_input", VString (lit "look"))]).
  assert (Hno : has_own props (lit "session_id") = false) by (vm_compute; reflexivity).
  destruct (omitted_session_id_is_demo props Hno) as (_ & K & _).
  assert (G : Part001.generate (VObject props)
                (world_answering (three_choices "A") None) []
              = (fst (fst first_run), snd (fst first_run), snd first_run)).
  { unfold first_run, look_request, request_body. fold props.
    destruct (Part001.generate (VObject props) _ []) as [[? ?] ?]. reflexivity. }
  assert (G2 : Part001.generate (VObject props)
                 (world_answering (three_choices "B") None) (fst (fst first_run))
               = (fst (fst second_run), snd (fst second_run), snd second_run)).
  { unfold second_run, look_request, request_body. fold props.
    destruct (Part001.generate (VObject props) _ (fst (fst first_run))) as [[? ?] ?].
    reflexivity. }
  destruct (K _ _ _ _ _ G) as (A & _ & C).
  destruct (K _ _ _ _ _ G2) as (_ & R & _).
  assert (S : status (snd first_run) = 200%Z) by (vm_compute; reflexivity).
  destruct (A S) as (E & sent & player_input & text & elems & choices
                     & Hsent & Hpin & Htext & Hch & Hjoin & Hmem).
  vm_compute in Hsent. injection Hsent as <-.
  vm_compute in Hpin. injection Hpin as <-.
  vm_compute in Htext. injection Htext as <-.
  vm_compute in Hch. injection Hch as <-.
  vm_compute in Hjoin. injection Hjoin as <-.
  assert (M : memory_of (fst (fst first_run)) (VString (lit "demo"))
              = lit "PLAYER: look" ++ LF ++ lit "RESULT: A" ++ LF
                ++ lit "CHOICES: a | b | c")
    by (rewrite Hmem; vm_compute; reflexivity).
  split; [exact E|]. split; [exact M|]. split; [|exact C].
  assert (Q : exists rq, In (EvCreateCompletion rq) (snd (fst second_run))).
  { eexists. vm_compute. right. left. reflexivity. }
  destruct Q as (rq & Hin). exists rq. split; [exact Hin|].
  pose proof (R rq Hin) as P. rewrite M in P.
  revert P. generalize (user_prompt rq). intros prompt P.
  vm_compute in P. vm_compute. exact P.
Defined.

(* ================================================================== *)
(** * Further properties: clamping *)
(* ================================================================== *)

Lemma truncate_truncate (s : jsstring) (a b : Z) :
  (0 <= a <= b)%Z -> truncate (truncate s b) a = truncate s a.
Proof.
  intros H. pose proof (length_nonneg s) as Hs.
  destruct (Z_le_gt_dec (length s) b) as [Hb|Hb].
  - now rewrite (truncate_short s) by exact Hb.
  - rewrite (truncate_long s (max := b)) by lia.
    assert (Hl : length (firstn (Z.to_nat b) s) = b)
      by (unfold length in *; rewrite firstn_length_le by lia; lia).
    destruct (Z_le_gt_dec b a) as [Hab|Hab].
    + assert (a = b) by lia. subst a.
      rewrite truncate_short by lia. now rewrite truncate_long by lia.
    + rewrite truncate_long by lia. rewrite truncate_long by lia.
      rewrite firstn_firstn. f_equal. lia.
Qed.

Lemma truncate_prefix (s : jsstring) (max : Z) :
  (0 <= max)%Z -> exists rest, s = truncate s max ++ rest.
Proof.
  intros H. destruct (Z_le_gt_dec (length s) max) as [Hm|Hm].
  - exists []. rewrite truncate_short by exact Hm. now rewrite app_nil_r.
  - exists (skipn (Z.to_nat max) s). rewrite truncate_long by lia.
    symmetry. apply firstn_skipn.
Qed.

(** X1. Clamping composes: a string that was clamped to a limit is a
    prefix of the original, clamping it again to the same limit changes
    nothing, and clamping it to a smaller limit gives what clamping the
    original to the smaller limit gives. *)
Theorem clampString_composes :
  forall s t a b,
    (0 <= a <= b)%Z ->
    clampString (VString s) b = Ok t ->
    clampString (VString t) b = Ok t
    /\ clampString (VString t) a = clampString (VString s) a
    /\ exists rest, s = t ++ rest.
Proof.
  intros s t a b H Hc. rewrite clampString_string in Hc. injection Hc as <-.
  rewrite !clampString_string.
  split; [now rewrite truncate_truncate by lia|].
  split; [now rewrite truncate_truncate|].
  apply truncate_prefix. lia.
Qed.

Lemma clampString_composes_witness :
  clampString (VString (lit "abcde")) 5 = Ok (lit "abcde")
  /\ clampString (VString (lit "abcde")) 3 = clampString (VString (lit "abcdefgh")) 3
  /\ exists rest, lit "abcdefgh" = lit "abcde" ++ rest.
Proof.
  assert (H : (0 <= 3 <= 5)%Z) by lia.
  apply (@clampString_composes (lit "abcdefgh") (lit "abcde") 3 5 H).
  vm_compute. reflexivity.
Defined.

(* ================================================================== *)
(** * Further properties: the session store *)
(* ================================================================== *)

(** X2. [getSession] finds or creates: the store it leaves is the store
    it got, or that store with one new session for the id, empty and with
    the default stats, at the end; the session it returns is in the
    store; the memory of every id is what it was; and looking the id up
    again, when the Map can find it, returns the same session and adds
    nothing. *)
Theorem getSession_finds_or_creates_once :
  forall sid m,
    (Part001.getSession sid m = (m, snd (Part001.getSession sid m))
     \/ Part001.getSession sid m = (m ++ [(sid, Part001.new_session)], List.length m))
    /\ (snd (Part001.getSession sid m) < List.length (fst (Part001.getSession sid m)))%nat
    /\ (forall k, memory_of (fst (Part001.getSession sid m)) k = memory_of m k)
    /\ (SameValueZero sid sid = true ->
        Part001.getSession sid (fst (Part001.getSession sid m))
        = Part001.getSession sid m).
Proof.
  intros sid m. split; [|split; [|split]].
  - unfold Part001.getSession. destruct (Part001.Map_find m sid 0); [left|right]; reflexivity.
  - apply getSession_loc.
  - apply memory_of_getSession.
  - intros Hs. rewrite (@getSession_found _ _ _ (@Map_find_getSession sid m Hs)).
    now destruct (Part001.getSession sid m).
Qed.

Lemma getSession_finds_or_creates_once_witness :
  Part001.getSession demo (fst (Part001.getSession demo []))
  = Part001.getSession demo [].
Proof.
  destruct (getSession_finds_or_creates_once demo []) as (_ & _ & _ & D).
  apply D. reflexivity.
Defined.

Section MemoryBound.
Import Part001.

Lemma memory_bounded_getSession (sid : value) (m : sessions) :
  memory_bounded m -> memory_bounded (fst (getSession sid m)).
Proof.
  intros H. unfold getSession. destruct (Map_find m sid 0); cbn [fst]; [exact H|].
  apply Forall_app. split; [exact H|]. constructor; [|constructor].
  cbn. unfold length. cbn. lia.
Qed.

Lemma memory_bounded_set (m : sessions) : forall loc mem,
  (length mem <= 4000)%Z -> memory_bounded m ->
  memory_bounded (set_recent_memory m loc mem).
Proof.
  unfold memory_bounded.
  induction m as [|[k s] rest IH]; intros loc mem Hl H; [constructor|].
  inversion H as [|? ? Hs Hrest]; subst.
  destruct loc; cbn [set_recent_memory].
  - constructor; [exact Hl | exact Hrest].
  - constructor; [exact Hs | now apply IH].
Qed.

(** One request keeps the bound on the memories. *)
Lemma generate_keeps_memory_bounded body w m m' tr r :
  generate body w m = (m', tr, r) -> memory_bounded m -> memory_bounded m'.
Proof.
  intros H Hm. apply generate_inv in H.
  destruct H as [(_ & _ & [-> | (sid & _ & ->)])
                | (sid & pin & bible & pl & _ & _ & _ & H)].
  - exact Hm.
  - now apply memory_bounded_getSession.
  - pose proof (memory_bounded_getSession sid Hm) as H1.
    cbv zeta in H. destruct H as (tail & _ & Hafter). unfold after_call in Hafter.
    destruct (chat_completions_create w _) as [c|e]; cbv zeta in Hafter.
    + destruct (tryParseModelJson (message_content c)) as [parsed|e].
      * destruct (lacks_shape parsed).
        -- now destruct Hafter as (_ & -> & _).
        -- destruct Hafter as [(e & _ & -> & _)
                              | (elems & t & js & _ & _ & _ & _ & _ & -> & _)];
             [exact H1|].
           apply memory_bounded_set; [|exact H1]. apply length_truncate. lia.
      * now destruct Hafter as (_ & -> & _).
    + now destruct Hafter as (_ & -> & _).
Qed.

End MemoryBound.

(** X3. The memory of a session never exceeds 4000 characters: on a
    server that started with no session, after any sequence of requests,
    whatever the model answered, every session holds at most 4000
    characters. *)
Theorem session_memory_never_exceeds_4000 :
  forall reqs, memory_bounded (fst (Part001.serve [] reqs)).
Proof.
  intros reqs.
  assert (K : forall m, memory_bounded m -> memory_bounded (fst (Part001.serve m reqs))).
  { induction reqs as [|[body w] rest IH]; intros m Hm; [exact Hm|].
    cbn [Part001.serve].
    destruct (Part001.generate body w m) as [[m' tr] r] eqn:G.
    pose proof (@generate_keeps_memory_bounded _ _ _ _ _ _ G Hm) as Hm'.
    specialize (IH m' Hm').
    destruct (Part001.serve m' rest) as [m'' rs]. exact IH. }
  apply K. constructor.
Qed.

(* ================================================================== *)
(** * Further properties: what a turn does to the memory *)
(* ================================================================== *)

Lemma truncate_app_prefix (mem x : jsstring) (max : Z) :
  (length mem <= max)%Z ->
  truncate (mem ++ x) max = mem ++ truncate x (max - length mem).
Proof.
  intros H. pose proof (length_nonneg mem) as Hm. pose proof (length_nonneg x) as Hx.
  destruct (Z_le_gt_dec (length (mem ++ x)) max) as [Hl|Hl].
  - rewrite truncate_short by exact Hl. rewrite length_app in Hl.
    now rewrite truncate_short by lia.
  - rewrite truncate_long by lia. rewrite length_app in Hl.
    rewrite truncate_long by lia.
    rewrite firstn_app. rewrite firstn_all2 by (unfold length in *; lia).
    f_equal. f_equal. unfold length. lia.
Qed.

(** X4. A successful turn only adds to the memory of its session: what
    the memory held is the beginning of what it holds afterwards, so the
    truncation to 4000 characters cuts the new turn and never the old
    content; and a memory that has reached 4000 characters is left as it
    is by every later turn. *)
Theorem successful_turn_keeps_old_memory :
  forall body w m m' tr r sid,
    Part001.generate body w m = (m', tr, r) ->
    status r = 200%Z ->
    field body (lit "session_id") demo = Ok sid ->
    SameValueZero sid sid = true ->
    (length (memory_of m sid) <= 4000)%Z ->
    (exists added, memory_of m' sid = memory_of m sid ++ added)
    /\ (length (memory_of m sid) = 4000%Z -> memory_of m' sid = memory_of m sid).
Proof.
  intros body w m m' tr r sid H Hs Hf Hsvz Hlen.
  apply generate_inv in H.
  destruct H as [(_ & Hst & _) | (sid1 & pin & bible & pl & Hsid & _ & _ & H)];
    [contradiction|].
  rewrite Hf in Hsid. injection Hsid as <-.
  cbv zeta in H. destruct H as (tail & _ & Hafter). unfold after_call in Hafter.
  destruct (chat_completions_create w _) as [c|e]; cbv zeta in Hafter;
    [|destruct Hafter as (_ & _ & ->); discriminate].
  destruct (Part001.tryParseModelJson (message_content c)) as [parsed|e];
    [|destruct Hafter as (_ & _ & ->); discriminate].
  destruct (lacks_shape parsed); [destruct Hafter as (_ & _ & ->); discriminate|].
  destruct Hafter as [(e & _ & _ & ->)
                     | (elems & t & js & _ & _ & _ & _ & _ & -> & _)];
    [discriminate|].
  rewrite memory_of_written by exact Hsvz.
  change (Part001.recent_memory
            (Part001.session_at (fst (Part001.getSession sid m))
                                (snd (Part001.getSession sid m))))
    with (memory_of m sid).
  set (block := Part001.turnBlock _ t js).
  unfold Part001.append_turn.
  destruct (memory_of m sid) as [|c0 mem0] eqn:E.
  - cbn [truthy app]. split; [eexists; reflexivity|].
    unfold length. cbn. lia.
  - cbn [truthy]. rewrite <- !app_assoc. rewrite truncate_app_prefix by exact Hlen.
    split; [eexists; reflexivity|].
    intros H4. rewrite H4, Z.sub_diag.
    assert (T : truncate (LF ++ LF ++ block) 0 = []).
    { unfold LF. cbn [app]. rewrite truncate_long.
      - reflexivity.
      - unfold length. cbn [List.length]. lia. }
    rewrite T. apply app_nil_r.
Qed.

Lemma successful_turn_keeps_old_memory_witness :
  (exists added,
      memory_of (fst (fst second_run)) demo = memory_of (fst (fst first_run)) demo ++ added)
  /\ ((length (memory_of (fst (fst first_run)) demo) = 4000)%Z ->
      memory_of (fst (fst second_run)) demo = memory_of (fst (fst first_run)) demo).
Proof.
  apply (@successful_turn_keeps_old_memory
           look_request (world_answering (three_choices "B") None)
           (fst (fst first_run)) (fst (fst second_run)) (snd (fst second_run))
           (snd second_run) demo).
  - unfold second_run.
    destruct (Part001.generate look_request _ (fst (fst first_run))) as [[? ?] ?].
    reflexivity.
  - vm_compute. reflexivity.
  - vm_compute. reflexivity.
  - reflexivity.
  - apply Z.leb_le. vm_compute. reflexivity.
Defined.

(* ================================================================== *)
(** * Further properties: statuses and traces *)
(* ================================================================== *)

Ltac break_hyp H :=
  match type of H with
  | context [match ?x with _ => _ end] =>
    lazymatch x with
    | context [match _ with _ => _ end] => fail
    | _ => destruct x eqn:?
    end
  end.

Ltac run_cases H :=
  repeat (cbv beta iota zeta delta [bind lift ret throw get_store put_store env
                                    read_file create_completion try_catch
                                    Part001.loadBible ServerJs.openai] in H;
          break_hyp H);
  cbv beta iota zeta delta [bind lift ret throw get_store put_store env
                            read_file create_completion try_catch
                            Part001.loadBible ServerJs.openai] in H.

(** X5. A request the structured-JSON variant answers 400 or 413 leaves
    no trace: the session store is what it was, no session was created,
    no file was read, nothing was logged and the completion API was not
    called. The same holds for the trace of the prose variant. *)
Theorem client_errors_leave_no_trace :
  (forall body w m m' tr r,
      Part001.generate body w m = (m', tr, r) ->
      status r = 400%Z \/ status r = 413%Z ->
      m' = m /\ tr = [])
  /\ (forall body w tr r,
         Part000.generate body w = (tr, r) ->
         status r = 400%Z \/ status r = 413%Z ->
         tr = []).
Proof.
  split.
  - intros body w m m' tr r H S.
    unfold Part001.generate, Part001.generate_try in H.
    run_cases H;
      injection H as <- <- <-;
      first [ split; reflexivity
            | exfalso; destruct S as [S|S]; discriminate S ].
  - intros body w tr r H S.
    unfold Part000.generate, Part000.generate_try in H.
    run_cases H;
      injection H as <- <-;
      first [ reflexivity
            | exfalso; destruct S as [S|S]; discriminate S ].
Qed.

Lemma client_errors_leave_no_trace_witness :
  status (snd (Part001.generate oversized_valid_body
                 (world_answering (three_choices "A") None) [])) = 413%Z
  /\ fst (Part001.generate oversized_valid_body
            (world_answering (three_choices "A") None) []) = ([], []).
Proof.
  assert (S : status (snd (Part001.generate oversized_valid_body
                             (world_answering (three_choices "A") None) [])) = 413%Z)
    by (vm_compute; reflexivity).
  destruct (Part001.generate oversized_valid_body
              (world_answering (three_choices "A") None) []) as [[m' tr] r] eqn:G.
  cbn [fst snd] in *. split; [exact S|].
  destruct (proj1 client_errors_leave_no_trace _ _ _ _ _ _ G (or_intror S)) as [-> ->].
  reflexivity.
Defined.

(** X6. server.js never completes a turn: its handler names a client it
    never declares, so a request that passes the validator is answered
    500 "server error" (also when its body is larger than the cap of the
    other variants, which this one does not check), every other request
    is answered 400 or 500, and the completion API is never called. *)
Theorem server_js_never_succeeds :
  forall body w,
    completion_calls (fst (ServerJs.generate body w)) = 0%nat
    /\ (status (snd (ServerJs.generate body w)) = 400%Z
        \/ snd (ServerJs.generate body w) = mkResponse 500 (error_body (lit "server error")))
    /\ (ServerJs.validateGenerateBody body = Ok VNull ->
        snd (ServerJs.generate body w) = mkResponse 500 (error_body (lit "server error"))).
Proof.
  intros body w.
  destruct (ServerJs.generate body w) as [tr r] eqn:H. cbn [fst snd].
  unfold ServerJs.generate, ServerJs.generate_try in H.
  run_cases H; injection H as <- <-;
    (split; [reflexivity|]); (split; [first [left; reflexivity | right; reflexivity]|]);
    intros V; first [reflexivity | discriminate V | idtac].
  all: injection V as ->; discriminate.
Qed.

Lemma server_js_never_succeeds_witness :
  snd (ServerJs.generate (request_body (lit "scene_only") (lit "look"))
                         (world_answering (lit "Once upon a time") (Some (lit "sk-test"))))
  = mkResponse 500 (error_body (lit "server error")).
Proof.
  apply server_js_never_succeeds. vm_compute. reflexivity.
Defined.

(** X7. The statuses of the two variants that can call the model are
    200, 400, 413 and 500. A 200 of the structured-JSON variant comes
    after one read of the bible and one completion call and nothing
    else; a 200 of the prose variant comes after one completion call and
    nothing else, and relays the content of the completion as it is. *)
Theorem statuses_and_traces_of_success :
  (forall body w m,
      let '(_, tr, r) := Part001.generate body w m in
      (status r = 200%Z \/ status r = 400%Z \/ status r = 413%Z \/ status r = 500%Z)
      /\ (status r = 200%Z ->
          exists rq, tr = [EvReadFile (lit "bible.txt"); EvCreateCompletion rq]))
  /\ (forall body w,
         let '(tr, r) := Part000.generate body w in
         (status r = 200%Z \/ status r = 400%Z \/ status r = 413%Z \/ status r = 500%Z)
         /\ (status r = 200%Z ->
             exists rq c,
               tr = [EvCreateCompletion rq]
               /\ chat_completions_create w rq = Ok c
               /\ Get_optional (json r) (lit "text") = VString (message_content c))).
Proof.
  split.
  - intros body w m. destruct (Part001.generate body w m) as [[m' tr] r] eqn:H.
    unfold Part001.generate, Part001.generate_try in H.
    run_cases H; injection H as <- <- <-;
      (split; [cbn [status]; tauto|]); intros S;
      first [ discriminate S | eexists; reflexivity ].
  - intros body w. destruct (Part000.generate body w) as [tr r] eqn:H.
    unfold Part000.generate, Part000.generate_try in H.
    run_cases H; injection H as <- <-;
      (split; [cbn [status]; tauto|]); intros S;
      first [ discriminate S
            | eexists; eexists; split; [reflexivity|]; split; [eassumption|reflexivity] ].
Qed.

Lemma statuses_and_traces_of_success_witness :
  exists rq,
    snd (fst first_run) = [EvReadFile (lit "bible.txt"); EvCreateCompletion rq].
Proof.
  pose proof (proj1 statuses_and_traces_of_success look_request
                (world_answering (three_choices "A") None) []) as P.
  assert (S : status (snd first_run) = 200%Z) by (vm_compute; reflexivity).
  unfold first_run in *.
  destruct (Part001.generate look_request (world_answering (three_choices "A") None) [])
    as [[m tr] r].
  cbn [fst snd] in *. apply P. exact S.
Defined.

(* ================================================================== *)
(** * Further properties: the recovery parser at its edges *)
(* ================================================================== *)

Lemma index_from_absent (c : code_unit) : forall s i,
  existsb (N.eqb c) s = false -> index_from [c] s i = (-1)%Z.
Proof.
  induction s as [|x s IH]; intros i H.
  - reflexivity.
  - cbn [existsb] in H. apply orb_false_iff in H. destruct H as [Hx Hs].
    cbn [index_from]. rewrite is_prefix_single, Hx. now apply IH.
Qed.

(** X8. Without an opening brace, or without a closing brace, an output
    that is not JSON is not recovered: the parser throws "Invalid JSON".
    This covers the empty output. *)
Theorem tryParseModelJson_needs_both_braces :
  forall raw e,
    JSON_parse raw = Throw e ->
    existsb (N.eqb 123%N) raw = false \/ existsb (N.eqb 125%N) raw = false ->
    Part001.tryParseModelJson raw = Throw (Error "Invalid JSON").
Proof.
  intros raw e Hp H. unfold Part001.tryParseModelJson. rewrite Hp.
  change (lit "{") with [123%N]. change (lit "}") with [125%N].
  destruct H as [H|H].
  - unfold indexOf. rewrite index_from_absent by exact H. reflexivity.
  - unfold lastIndexOf. rewrite last_index_from_absent by exact H.
    rewrite andb_false_r. reflexivity.
Qed.

Lemma tryParseModelJson_needs_both_braces_witness :
  Part001.tryParseModelJson [] = Throw (Error "Invalid JSON")
  /\ Part001.tryParseModelJson (lit "Sorry, I cannot { do that") = Throw (Error "Invalid JSON").
Proof.
  split.
  - apply (@tryParseModelJson_needs_both_braces [] (SyntaxError "Unexpected token in JSON")).
    + vm_compute. reflexivity.
    + left. reflexivity.
  - apply (@tryParseModelJson_needs_both_braces (lit "Sorry, I cannot { do that")
             (SyntaxError "Unexpected token in JSON")).
    + vm_compute. reflexivity.
    + right. vm_compute. reflexivity.
Defined.

(** X9. A completion without content (missing or null) is treated as the
    empty output: the structured-JSON variant answers 500 "Model did not
    return valid JSON" with an empty [raw], and the memory of every
    session is what it was. *)
Theorem missing_content_is_invalid_json :
  forall body w m m' tr r rq c,
    Part001.generate body w m = (m', tr, r) ->
    In (EvCreateCompletion rq) tr ->
    chat_completions_create w rq = Ok c ->
    first_content c = None ->
    r = mkResponse 500
          (VObject [(lit "error", VString (lit "Model did not return valid JSON"));
                    (lit "raw", VString [])])
    /\ forall k, memory_of m' k = memory_of m k.
Proof.
  intros body w m m' tr r rq c H Hin Hc Hnone.
  apply generate_inv in H.
  destruct H as [(Hcalls & _) | (sid & pin & bible & pl & _ & _ & _ & H)];
    [now apply completion_calls_In in Hin|].
  cbv zeta in H. destruct H as (tail & -> & Hafter).
  pose proof (@after_call_tail _ _ _ _ _ _ _ _ _ Hafter) as Htail.
  apply the_completion_call in Hin; [|exact Htail]. subst rq.
  unfold after_call in Hafter. rewrite Hc in Hafter. cbv zeta in Hafter.
  assert (Hraw : message_content c = []) by (unfold message_content; now rewrite Hnone).
  rewrite Hraw in Hafter.
  assert (Hp : Part001.tryParseModelJson [] = Throw (Error "Invalid JSON"))
    by (vm_compute; reflexivity).
  rewrite Hp in Hafter. destruct Hafter as (_ & -> & ->).
  split; [reflexivity|]. intros k. apply memory_of_getSession.
Qed.

Lemma missing_content_is_invalid_json_witness :
  snd (Part001.generate look_request
         (mkWorld (fun _ => Ok (lit "BIBLE"))
                  (fun _ => Ok (mkCompletion None VUndefined)) None None) [])
  = mkResponse 500
      (VObject [(lit "error", VString (lit "Model did not return valid JSON"));
                (lit "raw", VString [])]).
Proof.
  set (w := mkWorld (fun _ => Ok (lit "BIBLE"))
                    (fun _ => Ok (mkCompletion None VUndefined)) None None).
  destruct (Part001.generate look_request w []) as [[m' tr] r] eqn:G.
  assert (Q : exists rq, In (EvCreateCompletion rq) tr).
  { assert (T : tr = snd (fst (Part001.generate look_request w [])))
      by (rewrite G; reflexivity).
    rewrite T. eexists. vm_compute. right. left. reflexivity. }
  destruct Q as (rq & Hin).
  exact (proj1 (@missing_content_is_invalid_json _ _ _ _ _ _ rq
                  (mkCompletion None VUndefined) G Hin eq_refl eq_refl)).
Defined.

(* ================================================================== *)
(** * Further properties: the memory section of a first turn *)
(* ================================================================== *)

(** X10. The memory section of every prompt of the structured-JSON
    variant shows the memory the server holds for the session of the
    request, cut to 4000 characters, and [(none)] when it holds nothing,
    as on the first turn of a session; what the client sent as
    [recent_memory] plays no part. *)
Theorem prompt_shows_server_memory_or_none :
  forall body w m m' tr r rq sid,
    Part001.generate body w m = (m', tr, r) ->
    In (EvCreateCompletion rq) tr ->
    field body (lit "session_id") demo = Ok sid ->
    contains (user_prompt rq)
             (lit "RECENT MEMORY (server-side truth):" ++ LF
              ++ (match truncate (memory_of m sid) 4000 with
                  | [] => lit "(none)"
                  | shown => shown
                  end)
              ++ LF ++ LF ++ lit "PLAYER ACTION:").
Proof.
  intros body w m m' tr r rq sid H Hin Hf.
  apply generate_inv in H.
  destruct H as [(Hcalls & _) | (sid1 & pin & bible & pl & Hsid & _ & _ & H)];
    [now apply completion_calls_In in Hin|].
  rewrite Hf in Hsid. injection Hsid as <-.
  cbv zeta in H. destruct H as (tail & -> & Hafter).
  pose proof (@after_call_tail _ _ _ _ _ _ _ _ _ Hafter) as Htail.
  apply the_completion_call in Hin; [|exact Htail]. subst rq.
  change (user_prompt (Part001.completion_request ?p)) with p.
  change (Part001.recent_memory
            (Part001.session_at (fst (Part001.getSession sid m))
                                (snd (Part001.getSession sid m))))
    with (memory_of m sid).
  pose proof (prompt_shows_section bible
                (Part001.statsLine
                   (Part001.session_at (fst (Part001.getSession sid m))
                                       (snd (Part001.getSession sid m))))
                pl (truncate (memory_of m sid) 4000)) as P.
  destruct (truncate (memory_of m sid) 4000); exact P.
Qed.

Lemma prompt_shows_server_memory_or_none_witness :
  exists rq,
    In (EvCreateCompletion rq) (snd (fst first_run))
    /\ contains (user_prompt rq)
                (lit "RECENT MEMORY (server-side truth):" ++ LF ++ lit "(none)"
                 ++ LF ++ LF ++ lit "PLAYER ACTION:").
Proof.
  assert (Q : exists rq, In (EvCreateCompletion rq) (snd (fst first_run))).
  { eexists. vm_compute. right. left. reflexivity. }
  destruct Q as (rq & Hin). exists rq. split; [exact Hin|].
  assert (G : Part001.generate look_request (world_answering (three_choices "A") None) []
              = (fst (fst first_run), snd (fst first_run), snd first_run)).
  { unfold first_run.
    destruct (Part001.generate look_request _ []) as [[? ?] ?]. reflexivity. }
  assert (F : field look_request (lit "session_id") demo = Ok demo)
    by (vm_compute; reflexivity).
  exact (@prompt_shows_server_memory_or_none _ _ _ _ _ _ rq demo G Hin F).
Defined.
(* ================================================================== *)
(** * Further properties: what the validators accept *)
(* ================================================================== *)

Lemma SameValueZero_string_l (s : jsstring) (v : value) :
  SameValueZero (VString s) v = true -> v = VString s.
Proof.
  destruct v as [ | | |n|x| | ]; cbn [SameValueZero]; try discriminate.
  unfold str_eqb. destruct (list_eq_dec N.eq_dec s x); [now subst|discriminate].
Qed.

Lemma scene_type_required : In (lit "scene_type") required.
Proof. unfold required. left. reflexivity. Qed.

Lemma has_field_object (k : jsstring) (body : value) :
  has_field k body = true -> exists props, body = VObject props.
Proof. destruct body; try discriminate. eauto. Qed.

(** The validators differ in the two scene types they accept and in
    nothing else. *)
Lemma scene_check_accepts (a b msg : jsstring) (body : value) :
  match missing_field required body with
  | Throw e => Throw e
  | Ok (Some m) => Ok (VString m)
  | Ok None =>
    match Get body (lit "scene_type") with
    | Throw e => Throw e
    | Ok scene_type =>
      if negb (includes [VString a; VString b] scene_type)
      then Ok (VString msg)
      else Ok VNull
    end
  end = Ok VNull
  <-> (forall k, In k required -> has_field k body = true)
      /\ (text_field body (lit "scene_type") a \/ text_field body (lit "scene_type") b).
Proof.
  unfold text_field. split.
  - destruct (missing_field required body) as [[m|]|e] eqn:E; try discriminate.
    destruct (@missing_field_ok_object _ E) as (props & ->).
    rewrite missing_field_find in E by reflexivity.
    destruct (find (fun k => negb (has_field k (VObject props))) required) eqn:F;
      [discriminate|].
    cbn [Get Get_optional].
    destruct (includes _ _) eqn:I; cbn [negb]; [|discriminate].
    intros _. split.
    + intros k Hk. pose proof (find_none _ _ F k Hk) as N.
      now apply negb_false_iff in N.
    + unfold includes in I. cbn [existsb] in I.
      rewrite orb_false_r in I. apply orb_true_iff in I.
      destruct I as [I|I]; apply SameValueZero_string_l in I; [now left|now right].
  - intros (Hall & Hst).
    destruct (@has_field_object _ _ (Hall _ scene_type_required)) as (props & ->).
    rewrite missing_field_none; [|reflexivity|exact Hall].
    cbn [Get Get_optional] in *.
    assert (I : includes [VString a; VString b]
                  match lookup props (lit "scene_type") with
                  | Some x => x
                  | None => VUndefined
                  end = true).
    { unfold includes. cbn [existsb]. apply orb_true_iff.
      destruct Hst as [-> | ->].
      - left. apply SameValueZero_string_refl.
      - right. rewrite orb_false_r. apply SameValueZero_string_refl. }
    rewrite I. reflexivity.
Qed.

(** X11. Each validator accepts a body exactly when it is an object with
    the six fields scene_type, event_id, world_summary, event_card,
    recent_memory and player_input whose scene type is one of two
    strings. The structured-JSON variant takes [choice_point] and
    [narration], the prose variant and server.js take [scene_only] and
    [choice_point]; no other field is looked at, whatever its value. *)
Theorem validators_accept_exactly :
  forall body,
    (Part001.validateGenerateBody body = Ok VNull
     <-> (forall k,
             In k [lit "scene_type"; lit "event_id"; lit "world_summary";
                   lit "event_card"; lit "recent_memory"; lit "player_input"] ->
             has_field k body = true)
         /\ (text_field body (lit "scene_type") (lit "choice_point")
             \/ text_field body (lit "scene_type") (lit "narration")))
    /\ (Part000.validateGenerateBody body = Ok VNull
        <-> (forall k,
                In k [lit "scene_type"; lit "event_id"; lit "world_summary";
                      lit "event_card"; lit "recent_memory"; lit "player_input"] ->
                has_field k body = true)
            /\ (text_field body (lit "scene_type") (lit "scene_only")
                \/ text_field body (lit "scene_type") (lit "choice_point")))
    /\ (ServerJs.validateGenerateBody body = Ok VNull
        <-> Part000.validateGenerateBody body = Ok VNull).
Proof.
  intros body. split; [|split].
  - pose proof (scene_check_accepts (lit "choice_point") (lit "narration")
                  (lit "scene_type must be 'choice_point' or 'narration'") body) as S.
    unfold required in S. exact S.
  - pose proof (scene_check_accepts (lit "scene_only") (lit "choice_point")
                  (lit "scene_type must be 'scene_only' or 'choice_point'") body) as S.
    unfold required in S. exact S.
  - reflexivity.
Qed.

Lemma validators_accept_exactly_witness :
  Part001.validateGenerateBody choice_request = Ok VNull
  /\ Part000.validateGenerateBody choice_request = Ok VNull
  /\ Part001.validateGenerateBody look_request = Ok VNull
  /\ Part000.validateGenerateBody look_request <> Ok VNull
  /\ Part001.validateGenerateBody no_player_input_body <> Ok VNull.
Proof.
  assert (F : forall body,
             (has_field (lit "scene_type") body = true
              /\ has_field (lit "event_id") body = true
              /\ has_field (lit "world_summary") body = true
              /\ has_field (lit "event_card") body = true
              /\ has_field (lit "recent_memory") body = true
              /\ has_field (lit "player_input") body = true) ->
             forall k,
               In k [lit "scene_type"; lit "event_id"; lit "world_summary";
                     lit "event_card"; lit "recent_memory"; lit "player_input"] ->
               has_field k body = true).
  { intros body (H1 & H2 & H3 & H4 & H5 & H6) k
           [<-|[<-|[<-|[<-|[<-|[<-|[]]]]]]]; assumption. }
  assert (Hc : forall k,
             In k [lit "scene_type"; lit "event_id"; lit "world_summary";
                   lit "event_card"; lit "recent_memory"; lit "player_input"] ->
             has_field k choice_request = true)
    by (apply F; vm_compute; repeat split; reflexivity).
  assert (Hl : forall k,
             In k [lit "scene_type"; lit "event_id"; lit "world_summary";
                   lit "event_card"; lit "recent_memory"; lit "player_input"] ->
             has_field k look_request = true)
    by (apply F; vm_compute; repeat split; reflexivity).
  destruct (validators_accept_exactly choice_request) as (A1 & A0 & _).
  destruct (validators_accept_exactly look_request) as (B1 & B0 & _).
  destruct (validators_accept_exactly no_player_input_body) as (C1 & _ & _).
  split; [|split; [|split; [|split]]].
  - apply (proj2 A1). split; [exact Hc|]. left. vm_compute. reflexivity.
  - apply (proj2 A0). split; [exact Hc|]. right. vm_compute. reflexivity.
  - apply (proj2 B1). split; [exact Hl|]. right. vm_compute. reflexivity.
  - intros V. destruct (proj1 B0 V) as (_ & [T|T]); vm_compute in T; discriminate T.
  - intros V. destruct (proj1 C1 V) as (H & _).
    specialize (H (lit "player_input")).
    assert (N : has_field (lit "player_input") no_player_input_body = false)
      by (vm_compute; reflexivity).
    rewrite H in N; [discriminate N|].
    right. right. right. right. right. left. reflexivity.
Defined.

(* ================================================================== *)
(** * Further properties: the prompts of the prose variant *)
(* ================================================================== *)

Lemma buildUserPrompt_untrimmed (p : Part000.payload) :
  Part000.buildUserPrompt p
  = trim (LF ++ lit "WORLD SUMMARY:" ++ LF ++ Part000.p_world_summary p
          ++ (LF ++ LF ++ lit "CURRENT EVENT CARD (FOLLOW THIS):" ++ LF)
          ++ Part000.p_event_card p
          ++ (LF ++ LF ++ lit "RECENT MEMORY (MOST RECENT LAST):" ++ LF)
          ++ Part000.p_recent_memory p
          ++ (LF ++ LF ++ lit "PLAYER INPUT:" ++ LF)
          ++ Part000.p_player_input p
          ++ (LF ++ LF ++ lit "Write the next response for event_id=")
          ++ Part000.p_event_id p ++ [46%N; 10%N]).
Proof.
  unfold Part000.buildUserPrompt.
  match goal with
  | |- trim (?p0 ++ _ ++ ?p1 ++ _ ++ ?p2 ++ _ ++ ?p3 ++ _ ++ ?p4 ++ _ ++ ?p5) = _ =>
    set (P0 := p0); set (P1 := p1); set (P2 := p2); set (P3 := p3);
    set (P4 := p4); set (P5 := p5)
  end.
  set (W := lit "WORLD SUMMARY:").
  set (H1 := lit "CURRENT EVENT CARD (FOLLOW THIS):").
  set (H2 := lit "RECENT MEMORY (MOST RECENT LAST):").
  set (H3 := lit "PLAYER INPUT:").
  set (H4 := lit "Write the next response for event_id=").
  assert (E0 : P0 = LF ++ W ++ LF) by (vm_compute; reflexivity).
  assert (E1 : P1 = LF ++ LF ++ H1 ++ LF) by (vm_compute; reflexivity).
  assert (E2 : P2 = LF ++ LF ++ H2 ++ LF) by (vm_compute; reflexivity).
  assert (E3 : P3 = LF ++ LF ++ H3 ++ LF) by (vm_compute; reflexivity).
  assert (E4 : P4 = LF ++ LF ++ H4) by (vm_compute; reflexivity).
  assert (E5 : P5 = [46%N; 10%N]) by (vm_compute; reflexivity).
  clearbody W H1 H2 H3 H4. clearbody P0 P1 P2 P3 P4 P5.
  subst P0 P1 P2 P3 P4 P5.
  apply (f_equal trim). unfold LF. rewrite <- !app_assoc. reflexivity.
Qed.

(** The user prompt of the prose variant is its five sections in order,
    each a header line followed by the field as it is, and the closing
    line with the event id and a full stop: [trim] removes the line feed
    at each end of the template and nothing of the fields. *)
Lemma buildUserPrompt_trimmed (p : Part000.payload) :
  Part000.buildUserPrompt p
  = lit "WORLD SUMMARY:" ++ LF ++ Part000.p_world_summary p ++ LF ++ LF
    ++ lit "CURRENT EVENT CARD (FOLLOW THIS):" ++ LF ++ Part000.p_event_card p ++ LF ++ LF
    ++ lit "RECENT MEMORY (MOST RECENT LAST):" ++ LF ++ Part000.p_recent_memory p ++ LF ++ LF
    ++ lit "PLAYER INPUT:" ++ LF ++ Part000.p_player_input p ++ LF ++ LF
    ++ lit "Write the next response for event_id=" ++ Part000.p_event_id p ++ lit ".".
Proof.
  rewrite buildUserPrompt_untrimmed.
  assert (EW : lit "WORLD SUMMARY:" = 87%N :: tl (lit "WORLD SUMMARY:"))
    by (vm_compute; reflexivity).
  assert (Edot : lit "." = [46%N]) by (vm_compute; reflexivity).
  rewrite Edot, EW. clear Edot EW.
  generalize (tl (lit "WORLD SUMMARY:")) (lit "CURRENT EVENT CARD (FOLLOW THIS):")
             (lit "RECENT MEMORY (MOST RECENT LAST):") (lit "PLAYER INPUT:")
             (lit "Write the next response for event_id=").
  intros T H1 H2 H3 H4.
  set (mid := T ++ LF ++ Part000.p_world_summary p ++ (LF ++ LF ++ H1 ++ LF)
              ++ Part000.p_event_card p ++ (LF ++ LF ++ H2 ++ LF)
              ++ Part000.p_recent_memory p ++ (LF ++ LF ++ H3 ++ LF)
              ++ Part000.p_player_input p ++ (LF ++ LF ++ H4) ++ Part000.p_event_id p).
  match goal with
  | |- trim ?t = _ => assert (Em : t = 10%N :: 87%N :: mid ++ [46%N; 10%N])
                        by (subst mid; list_norm; reflexivity)
  end.
  rewrite Em. rewrite trim_framed by reflexivity.
  subst mid. list_norm. reflexivity.
Qed.

Lemma buildUserPrompt_length (p : Part000.payload) :
  length (Part000.buildUserPrompt p)
  = (143 + length (Part000.p_world_summary p) + length (Part000.p_event_card p)
     + length (Part000.p_recent_memory p) + length (Part000.p_player_input p)
     + length (Part000.p_event_id p))%Z.
Proof.
  rewrite buildUserPrompt_trimmed.
  rewrite !length_app.
  assert (L0 : length (lit "WORLD SUMMARY:") = 14%Z) by (vm_compute; reflexivity).
  assert (L1 : length (lit "CURRENT EVENT CARD (FOLLOW THIS):") = 33%Z)
    by (vm_compute; reflexivity).
  assert (L2 : length (lit "RECENT MEMORY (MOST RECENT LAST):") = 33%Z)
    by (vm_compute; reflexivity).
  assert (L3 : length (lit "PLAYER INPUT:") = 13%Z) by (vm_compute; reflexivity).
  assert (L4 : length (lit "Write the next response for event_id=") = 37%Z)
    by (vm_compute; reflexivity).
  assert (L5 : length (lit ".") = 1%Z) by (vm_compute; reflexivity).
  assert (LL : length LF = 1%Z) by reflexivity.
  rewrite L0, L1, L2, L3, L4, L5, LL. lia.
Qed.

(** The system prompt of the prose variant, before [trim]. *)
Lemma buildSystemPrompt_untrimmed :
  exists rules,
    forall scene,
      Part000.buildSystemPrompt (VString scene)
      = Ok (trim ((10%N :: 89%N :: rules
                   ++ lit "You must obey the Turn Protocol for the provided scene_type: ")
                  ++ scene ++ [46%N; 10%N])).
Proof.
  unfold Part000.buildSystemPrompt.
  match goal with
  | |- exists _, forall scene,
         match _ with Ok _ => Ok (trim (?p0 ++ _ ++ ?p1)) | Throw _ => _ end = _ =>
    set (P0 := p0); set (P1 := p1)
  end.
  set (H := lit "You must obey the Turn Protocol for the provided scene_type: ").
  set (Q := firstn (List.length P0 - 2 - List.length H) (skipn 2 P0)).
  assert (E0 : P0 = 10%N :: 89%N :: Q ++ H) by (vm_compute; reflexivity).
  assert (E1 : P1 = [46%N; 10%N]) by (vm_compute; reflexivity).
  clearbody Q H. clearbody P0 P1. subst P0 P1.
  exists Q. intros scene. reflexivity.
Qed.

(** The system prompt of the prose variant is a fixed text that ends
    with the sentence naming the scene type, the scene type as it is,
    and a full stop. *)
Lemma buildSystemPrompt_trimmed :
  exists rules,
    forall scene,
      Part000.buildSystemPrompt (VString scene)
      = Ok (rules ++ lit "You must obey the Turn Protocol for the provided scene_type: "
            ++ scene ++ lit ".").
Proof.
  destruct buildSystemPrompt_untrimmed as (Q & E).
  exists (89%N :: Q). intros scene. rewrite E. clear E.
  assert (Edot : lit "." = [46%N]) by (vm_compute; reflexivity).
  rewrite Edot. clear Edot.
  generalize (lit "You must obey the Turn Protocol for the provided scene_type: ").
  intros H.
  match goal with
  | |- Ok (trim ?t) = _ =>
    assert (Em : t = 10%N :: 89%N :: (Q ++ H ++ scene) ++ [46%N; 10%N])
      by (list_norm; reflexivity)
  end.
  rewrite Em. rewrite trim_framed by reflexivity.
  list_norm. reflexivity.
Qed.

(** The payload of a body whose five text fields are strings holds these
    strings, each cut at its limit. *)
Lemma make_payload_text (body : value) (p : Part000.payload)
  (eid ws ec rm pin : jsstring) :
  text_field body (lit "event_id") eid ->
  text_field body (lit "world_summary") ws ->
  text_field body (lit "event_card") ec ->
  text_field body (lit "recent_memory") rm ->
  text_field body (lit "player_input") pin ->
  Part000.make_payload body = Ok p ->
  Part000.p_event_id p = truncate eid 200
  /\ Part000.p_world_summary p = truncate ws 6000
  /\ Part000.p_event_card p = truncate ec 5000
  /\ Part000.p_recent_memory p = truncate rm 4000
  /\ Part000.p_player_input p = truncate pin 2000
  /\ Part000.p_scene_type p = Get_optional body (lit "scene_type").
Proof.
  unfold text_field. intros H1 H2 H3 H4 H5 H.
  destruct body as [ | | | | | |props]; try discriminate H1.
  unfold Part000.make_payload in H. cbn [Get Get_optional] in *.
  rewrite H1, H2, H3, H4, H5 in H. rewrite !clampString_string in H.
  destruct (clampString _ 80) as [c|e]; [|discriminate H].
  injection H as <-. cbn. repeat split; reflexivity.
Qed.

(** A completion call of the prose handler comes after the validator has
    accepted the body, and carries the two prompts built from the payload. *)
Lemma generate000_call body w tr r rq :
  Part000.generate body w = (tr, r) ->
  In (EvCreateCompletion rq) tr ->
  exists pl sys,
    Part000.validateGenerateBody body = Ok VNull
    /\ Part000.make_payload body = Ok pl
    /\ Part000.buildSystemPrompt (Part000.p_scene_type pl) = Ok sys
    /\ rq = Part000.completion_request (MODEL w) sys pl.
Proof.
  intros H Hin. unfold Part000.generate, Part000.generate_try in H.
  cbv beta iota zeta delta [bind lift ret env create_completion] in H.
  destruct (Part000.validateGenerateBody body) as [err|e] eqn:V;
    [|injection H as <- <-; destruct Hin as [Q|[]]; discriminate Q].
  assert (Herr : err = VNull \/ truthy err = true).
  { revert V. unfold Part000.validateGenerateBody.
    destruct (missing_field required body) as [[m|]|e0] eqn:E; try discriminate.
    - intros V. injection V as <-. right. exact (@missing_field_message _ _ _ E).
    - destruct (Get body (lit "scene_type")); try discriminate.
      destruct (negb _); intros V; injection V as <-;
        [right; vm_compute; reflexivity | left; reflexivity]. }
  destruct Herr as [-> | T]; [|rewrite T in H; injection H as <- <-; destruct Hin].
  cbn [truthy] in H.
  destruct (JSON_stringify body) as [text|];
    [|injection H as <- <-; destruct Hin as [Q|[]]; discriminate Q].
  destruct (Part000.MAX_INPUT_CHARS <? length text)%Z;
    [injection H as <- <-; destruct Hin|].
  destruct (Part000.make_payload body) as [pl|e] eqn:P;
    [|injection H as <- <-; destruct Hin as [Q|[]]; discriminate Q].
  destruct (truthy (env_value (OPENAI_API_KEY w))); cbn [negb] in H;
    [|injection H as <- <-; destruct Hin].
  destruct (Part000.buildSystemPrompt (Part000.p_scene_type pl)) as [sys|e] eqn:S;
    [|injection H as <- <-; destruct Hin as [Q|[]]; discriminate Q].
  exists pl, sys. split; [reflexivity|]. split; [reflexivity|]. split; [exact S|].
  destruct (chat_completions_create w _) as [c|e]; injection H as <- <-.
  - destruct Hin as [Q|[]]. now injection Q as <-.
  - destruct Hin as [Q|[Q|[]]]; [now injection Q as <-|discriminate Q].
Qed.

(** X12. What the prose variant sends the model as user message, for a
    body whose five text fields are strings: the five sections in order,
    each with its header and the field of the request cut at its limit
    (6000, 5000, 4000 and 2000 characters), and the closing line with the
    event id cut at 200. White space at the ends of a field is kept. *)
Theorem prose_prompt_shows_clamped_fields :
  forall body w tr r rq eid ws ec rm pin,
    text_field body (lit "event_id") eid ->
    text_field body (lit "world_summary") ws ->
    text_field body (lit "event_card") ec ->
    text_field body (lit "recent_memory") rm ->
    text_field body (lit "player_input") pin ->
    Part000.generate body w = (tr, r) ->
    In (EvCreateCompletion rq) tr ->
    user_prompt rq
    = lit "WORLD SUMMARY:" ++ LF ++ truncate ws 6000 ++ LF ++ LF
      ++ lit "CURRENT EVENT CARD (FOLLOW THIS):" ++ LF ++ truncate ec 5000 ++ LF ++ LF
      ++ lit "RECENT MEMORY (MOST RECENT LAST):" ++ LF ++ truncate rm 4000 ++ LF ++ LF
      ++ lit "PLAYER INPUT:" ++ LF ++ truncate pin 2000 ++ LF ++ LF
      ++ lit "Write the next response for event_id=" ++ truncate eid 200 ++ lit ".".
Proof.
  intros body w tr r rq eid ws ec rm pin H1 H2 H3 H4 H5 G Hin.
  destruct (@generate000_call _ _ _ _ _ G Hin) as (pl & sys & _ & P & _ & ->).
  destruct (@make_payload_text _ _ _ _ _ _ _ H1 H2 H3 H4 H5 P) as (<- & <- & <- & <- & <- & _).
  unfold Part000.completion_request, user_prompt. cbn [messages content].
  apply buildUserPrompt_trimmed.
Qed.

Lemma prose_prompt_shows_clamped_fields_witness :
  exists rq,
    In (EvCreateCompletion rq) (fst (Part000.generate prose_request prose_world))
    /\ user_prompt rq
       = lit "WORLD SUMMARY:" ++ LF ++ lit "A harbour town." ++ LF ++ LF
         ++ lit "CURRENT EVENT CARD (FOLLOW THIS):" ++ LF ++ lit "A stranger arrives."
         ++ LF ++ LF
         ++ lit "RECENT MEMORY (MOST RECENT LAST):" ++ LF ++ lit "client memory"
         ++ LF ++ LF
         ++ lit "PLAYER INPUT:" ++ LF ++ lit "look" ++ LF ++ LF
         ++ lit "Write the next response for event_id=" ++ lit "e1" ++ lit ".".
Proof.
  assert (Q : exists rq,
             In (EvCreateCompletion rq) (fst (Part000.generate prose_request prose_world))).
  { eexists. vm_compute. left. reflexivity. }
  destruct Q as (rq & Hin). exists rq. split; [exact Hin|].
  assert (G : Part000.generate prose_request prose_world
              = (fst (Part000.generate prose_request prose_world),
                 snd (Part000.generate prose_request prose_world))).
  { destruct (Part000.generate prose_request prose_world). reflexivity. }
  assert (H1 : text_field prose_request (lit "event_id") (lit "e1"))
    by (vm_compute; reflexivity).
  assert (H2 : text_field prose_request (lit "world_summary") (lit "A harbour town."))
    by (vm_compute; reflexivity).
  assert (H3 : text_field prose_request (lit "event_card") (lit "A stranger arrives."))
    by (vm_compute; reflexivity).
  assert (H4 : text_field prose_request (lit "recent_memory") (lit "client memory"))
    by (vm_compute; reflexivity).
  assert (H5 : text_field prose_request (lit "player_input") (lit "look"))
    by (vm_compute; reflexivity).
  rewrite (@prose_prompt_shows_clamped_fields _ _ _ _ rq _ _ _ _ _ H1 H2 H3 H4 H5 G Hin).
  vm_compute. reflexivity.
Defined.

(** X13. The clamps bound the user message of the prose variant: for a
    body whose five text fields are strings, a completion request carries
    a user message of at most 17343 characters, whatever the lengths of
    the fields (the cap on the serialized body is checked before). *)
Theorem prose_user_prompt_is_bounded :
  forall body w tr r rq eid ws ec rm pin,
    text_field body (lit "event_id") eid ->
    text_field body (lit "world_summary") ws ->
    text_field body (lit "event_card") ec ->
    text_field body (lit "recent_memory") rm ->
    text_field body (lit "player_input") pin ->
    Part000.generate body w = (tr, r) ->
    In (EvCreateCompletion rq) tr ->
    (length (user_prompt rq) <= 17343)%Z.
Proof.
  intros body w tr r rq eid ws ec rm pin H1 H2 H3 H4 H5 G Hin.
  destruct (@generate000_call _ _ _ _ _ G Hin) as (pl & sys & _ & P & _ & ->).
  destruct (@make_payload_text _ _ _ _ _ _ _ H1 H2 H3 H4 H5 P) as (E1 & E2 & E3 & E4 & E5 & _).
  unfold Part000.completion_request, user_prompt. cbn [messages content].
  rewrite buildUserPrompt_length, E1, E2, E3, E4, E5.
  pose proof (@length_truncate eid 200). pose proof (@length_truncate ws 6000).
  pose proof (@length_truncate ec 5000). pose proof (@length_truncate rm 4000).
  pose proof (@length_truncate pin 2000). lia.
Qed.

Lemma prose_user_prompt_is_bounded_witness :
  exists rq,
    In (EvCreateCompletion rq) (fst (Part000.generate prose_request prose_world))
    /\ (length (user_prompt rq) <= 17343)%Z.
Proof.
  assert (Q : exists rq,
             In (EvCreateCompletion rq) (fst (Part000.generate prose_request prose_world))).
  { eexists. vm_compute. left. reflexivity. }
  destruct Q as (rq & Hin). exists rq. split; [exact Hin|].
  assert (G : Part000.generate prose_request prose_world
              = (fst (Part000.generate prose_request prose_world),
                 snd (Part000.generate prose_request prose_world))).
  { destruct (Part000.generate prose_request prose_world). reflexivity. }
  assert (H1 : text_field prose_request (lit "event_id") (lit "e1"))
    by (vm_compute; reflexivity).
  assert (H2 : text_field prose_request (lit "world_summary") (lit "A harbour town."))
    by (vm_compute; reflexivity).
  assert (H3 : text_field prose_request (lit "event_card") (lit "A stranger arrives."))
    by (vm_compute; reflexivity).
  assert (H4 : text_field prose_request (lit "recent_memory") (lit "client memory"))
    by (vm_compute; reflexivity).
  assert (H5 : text_field prose_request (lit "player_input") (lit "look"))
    by (vm_compute; reflexivity).
  exact (@prose_user_prompt_is_bounded _ _ _ _ rq _ _ _ _ _ H1 H2 H3 H4 H5 G Hin).
Defined.

Lemma make_payload_scene_type (props : list (jsstring * value)) (p : Part000.payload) :
  Part000.make_payload (VObject props) = Ok p ->
  Part000.p_scene_type p = Get_optional (VObject props) (lit "scene_type").
Proof.
  unfold Part000.make_payload. cbn [Get Get_optional]. intros H.
  repeat match type of H with
         | context [match clampString ?a ?b with _ => _ end] =>
           destruct (clampString a b); [|discriminate H]
         end.
  injection H as <-. reflexivity.
Qed.

(** X14. The system message of the prose variant is a fixed text, the
    scene type of the request and a full stop; the scene type is
    [scene_only] or [choice_point], since the validator has let nothing
    else through, and it is the only part of the system message a
    request decides. *)
Theorem prose_system_prompt_names_the_scene_type :
  exists rules,
    forall body w tr r rq,
      Part000.generate body w = (tr, r) ->
      In (EvCreateCompletion rq) tr ->
      exists scene,
        text_field body (lit "scene_type") scene
        /\ (scene = lit "scene_only" \/ scene = lit "choice_point")
        /\ system_prompt rq
           = rules ++ lit "You must obey the Turn Protocol for the provided scene_type: "
             ++ scene ++ lit ".".
Proof.
  destruct buildSystemPrompt_trimmed as (rules & E). exists rules.
  intros body w tr r rq G Hin.
  destruct (@generate000_call _ _ _ _ _ G Hin) as (pl & sys & V & P & S & ->).
  unfold Part000.validateGenerateBody in V. apply scene_check_accepts in V.
  destruct V as (Hall & Hst).
  destruct (@has_field_object _ _ (Hall _ scene_type_required)) as (props & ->).
  rewrite (@make_payload_scene_type _ _ P) in S.
  assert (X : exists scene,
             text_field (VObject props) (lit "scene_type") scene
             /\ (scene = lit "scene_only" \/ scene = lit "choice_point")).
  { destruct Hst as [F|F]; eexists; (split; [exact F|]); [left|right]; reflexivity. }
  destruct X as (scene & F & Hs). exists scene. split; [exact F|]. split; [exact Hs|].
  unfold text_field in F. rewrite F, E in S. injection S as <-.
  reflexivity.
Qed.

Lemma prose_system_prompt_names_the_scene_type_witness :
  exists rules rq,
    In (EvCreateCompletion rq) (fst (Part000.generate prose_request prose_world))
    /\ system_prompt rq
       = rules ++ lit "You must obey the Turn Protocol for the provided scene_type: "
         ++ lit "scene_only" ++ lit ".".
Proof.
  destruct prose_system_prompt_names_the_scene_type as (rules & T). exists rules.
  assert (Q : exists rq,
             In (EvCreateCompletion rq) (fst (Part000.generate prose_request prose_world))).
  { eexists. vm_compute. left. reflexivity. }
  destruct Q as (rq & Hin). exists rq. split; [exact Hin|].
  assert (G : Part000.generate prose_request prose_world
              = (fst (Part000.generate prose_request prose_world),
                 snd (Part000.generate prose_request prose_world))).
  { destruct (Part000.generate prose_request prose_world). reflexivity. }
  destruct (T _ _ _ _ rq G Hin) as (scene & F & _ & S).
  assert (F' : text_field prose_request (lit "scene_type") (lit "scene_only"))
    by (vm_compute; reflexivity).
  unfold text_field in F, F'. rewrite F' in F. injection F as <-. exact S.
Defined.
(* ================================================================== *)
(** * Further properties: the sessions of the store *)
(* ================================================================== *)

Section StoreSteps.
Import Part001.

(** What one request can do to the store: nothing, the lazy creation of
    the session of its id, or that and one write of its memory. *)
Lemma generate_store body w m m' tr r :
  generate body w m = (m', tr, r) ->
  m' = m
  \/ exists sid,
      m' = fst (getSession sid m)
      \/ exists mem, m' = set_recent_memory (fst (getSession sid m))
                            (snd (getSession sid m)) mem.
Proof.
  intros H. apply generate_inv in H.
  destruct H as [(_ & _ & [-> | (sid & _ & ->)])
                | (sid & pin & bible & pl & _ & _ & _ & H)].
  - now left.
  - right. exists sid. now left.
  - right. exists sid.
    cbv zeta in H. destruct H as (tail & _ & Hafter). unfold after_call in Hafter.
    destruct (chat_completions_create w _) as [c|e]; cbv zeta in Hafter.
    + destruct (tryParseModelJson (message_content c)) as [parsed|e].
      * destruct (lacks_shape parsed).
        -- destruct Hafter as (_ & -> & _). now left.
        -- destruct Hafter as [(e & _ & -> & _)
                              | (elems & t & js & _ & _ & _ & _ & _ & -> & _)].
           ++ now left.
           ++ right. eexists. reflexivity.
      * destruct Hafter as (_ & -> & _). now left.
    + destruct Hafter as (_ & -> & _). now left.
Qed.

Lemma session_ids_set (m : sessions) : forall loc mem,
  session_ids (set_recent_memory m loc mem) = session_ids m.
Proof.
  unfold session_ids.
  induction m as [|[k s] rest IH]; intros loc mem; cbn [set_recent_memory map];
    [reflexivity|].
  destruct loc; cbn [map fst]; [reflexivity|]. now rewrite IH.
Qed.

Lemma session_ids_getSession (sid : value) (m : sessions) :
  exists added,
    session_ids (fst (getSession sid m)) = session_ids m ++ added
    /\ (List.length added <= 1)%nat.
Proof.
  unfold getSession, session_ids. destruct (Map_find m sid 0); cbn [fst].
  - exists []. rewrite app_nil_r. split; [reflexivity|cbn; lia].
  - exists [sid]. rewrite map_app. split; [reflexivity|cbn; lia].
Qed.

Lemma generate_session_ids body w m m' tr r :
  generate body w m = (m', tr, r) ->
  exists added,
    session_ids m' = session_ids m ++ added /\ (List.length added <= 1)%nat.
Proof.
  intros H. destruct (@generate_store _ _ _ _ _ _ H) as [-> | (sid & [-> | (mem & ->)])].
  - exists []. rewrite app_nil_r. split; [reflexivity|cbn; lia].
  - apply session_ids_getSession.
  - rewrite session_ids_set. apply session_ids_getSession.
Qed.

Lemma Map_find_none (k : value) : forall m i,
  Map_find m k i = None ->
  forall entry, In entry m -> SameValueZero (fst entry) k = false.
Proof.
  induction m as [|[k' s] rest IH]; intros i H entry Hin; [destruct Hin|].
  cbn [Map_find] in H. destruct (SameValueZero k' k) eqn:E; [discriminate|].
  destruct Hin as [<- | Hin]; [exact E|]. exact (IH _ H _ Hin).
Qed.

Lemma distinct_ids_app (m : sessions) (k : value) (s : session) :
  distinct_ids m ->
  (forall entry, In entry m -> SameValueZero (fst entry) k = false) ->
  distinct_ids (m ++ [(k, s)]).
Proof.
  induction m as [|[k' s'] rest IH]; intros D N; cbn [app distinct_ids].
  - split; [intros entry []|exact I].
  - destruct D as [D1 D2]. split.
    + intros entry Hin. apply in_app_or in Hin. destruct Hin as [Hin|[<-|[]]].
      * now apply D1.
      * apply (N (k', s')). now left.
    + apply IH; [exact D2|]. intros entry Hin. apply N. now right.
Qed.

Lemma In_set_recent_memory (m : sessions) : forall loc mem entry,
  In entry (set_recent_memory m loc mem) ->
  exists entry', In entry' m /\ fst entry' = fst entry.
Proof.
  induction m as [|[k s] rest IH]; intros loc mem entry Hin; [destruct Hin|].
  destruct loc; cbn [set_recent_memory] in Hin.
  - destruct Hin as [<- | Hin].
    + exists (k, s). split; [now left|reflexivity].
    + exists entry. split; [now right|reflexivity].
  - destruct Hin as [<- | Hin].
    + exists (k, s). split; [now left|reflexivity].
    + destruct (IH _ _ _ Hin) as (e' & He' & Hf). exists e'. split; [now right|exact Hf].
Qed.

Lemma distinct_ids_set (m : sessions) : forall loc mem,
  distinct_ids m -> distinct_ids (set_recent_memory m loc mem).
Proof.
  induction m as [|[k s] rest IH]; intros loc mem D; [exact I|].
  destruct D as [D1 D2]. destruct loc; cbn [set_recent_memory distinct_ids].
  - split; assumption.
  - split; [|now apply IH].
    intros entry Hin. destruct (@In_set_recent_memory _ _ _ _ Hin) as (e' & He' & <-).
    now apply D1.
Qed.

Lemma distinct_ids_getSession (sid : value) (m : sessions) :
  distinct_ids m -> distinct_ids (fst (getSession sid m)).
Proof.
  intros D. unfold getSession. destruct (Map_find m sid 0) eqn:F; cbn [fst]; [exact D|].
  apply distinct_ids_app; [exact D|]. exact (@Map_find_none _ _ _ F).
Qed.

Lemma generate_keeps_distinct_ids body w m m' tr r :
  generate body w m = (m', tr, r) -> distinct_ids m -> distinct_ids m'.
Proof.
  intros H D. destruct (@generate_store _ _ _ _ _ _ H) as [-> | (sid & [-> | (mem & ->)])].
  - exact D.
  - now apply distinct_ids_getSession.
  - apply distinct_ids_set. now apply distinct_ids_getSession.
Qed.

End StoreSteps.

(** X15. The store only grows: after any sequence of requests the ids of
    the sessions are those of before, in their order, followed by the
    ids of the sessions created since, at most one for each request. No
    request removes a session or gives one another id. *)
Theorem sessions_are_only_added :
  forall reqs m,
    exists added,
      session_ids (fst (Part001.serve m reqs)) = session_ids m ++ added
      /\ (List.length added <= List.length reqs)%nat.
Proof.
  induction reqs as [|[body w] rest IH]; intros m.
  - exists []. cbn [Part001.serve fst]. rewrite app_nil_r. split; [reflexivity|cbn; lia].
  - cbn [Part001.serve].
    destruct (Part001.generate body w m) as [[m' tr] r] eqn:G.
    destruct (@generate_session_ids _ _ _ _ _ _ G) as (a1 & E1 & L1).
    destruct (IH m') as (a2 & E2 & L2).
    destruct (Part001.serve m' rest) as [m'' rs]. cbn [fst] in *.
    exists (a1 ++ a2). rewrite E2, E1, <- app_assoc. split; [reflexivity|].
    rewrite List.length_app. cbn [List.length]. lia.
Qed.

(** X16. The store holds one session for an id: [getSession] creates a
    session only when no session of the store answers to the id, so on a
    server that started with no session no two sessions ever have ids
    that are the same value. *)
Theorem one_session_for_an_id :
  forall reqs, distinct_ids (fst (Part001.serve [] reqs)).
Proof.
  intros reqs.
  assert (K : forall m, distinct_ids m -> distinct_ids (fst (Part001.serve m reqs))).
  { induction reqs as [|[body w] rest IH]; intros m Hm; [exact Hm|].
    cbn [Part001.serve].
    destruct (Part001.generate body w m) as [[m' tr] r] eqn:G.
    pose proof (@generate_keeps_distinct_ids _ _ _ _ _ _ G Hm) as Hm'.
    specialize (IH m' Hm').
    destruct (Part001.serve m' rest) as [m'' rs]. exact IH. }
  apply K. exact I.
Qed.
(* ================================================================== *)
(** * Further properties: JSON.parse always answers *)
(* ================================================================== *)

Lemma skip_ws_length (s : jsstring) :
  (List.length (skip_ws s) <= List.length s)%nat.
Proof.
  induction s as [|c t IH]; cbn [skip_ws]; [lia|].
  destruct (is_json_ws c); cbn [List.length] in *; lia.
Qed.

Lemma skip_ws_cons (s : jsstring) (c : code_unit) (t : jsstring) :
  skip_ws s = c :: t -> (S (List.length t) <= List.length s)%nat.
Proof.
  intros E. pose proof (skip_ws_length s) as L. rewrite E in L. exact L.
Qed.

Lemma take_digits_length : forall s acc count d n r,
  take_digits s acc count = (d, n, r) -> (List.length r <= List.length s)%nat.
Proof.
  induction s as [|c t IH]; intros acc count d n r H; cbn [take_digits] in H.
  - injection H as <- <- <-. lia.
  - destruct (is_digit c).
    + apply IH in H. cbn [List.length]. lia.
    + injection H as <- <- <-. lia.
Qed.

Ltac digits_facts :=
  repeat match goal with
         | E : take_digits _ _ _ = (_, _, _) |- _ => apply take_digits_length in E
         | E : (_, _) = (_, _) |- _ => injection E as ? ?; subst
         | E : Some _ = Some _ |- _ => injection E as ?; subst
         end.

Lemma parse_number_length (s : jsstring) (n : number) (r : jsstring) :
  parse_number s = POk n r -> (List.length r <= List.length s)%nat.
Proof.
  unfold parse_number. intros H.
  repeat break_hyp H; try discriminate H; injection H as _ <-;
    digits_facts; cbn [List.length] in *; lia.
Qed.

Lemma parse_number_fuel (s : jsstring) : parse_number s <> POutOfFuel.
Proof.
  unfold parse_number. intros H.
  repeat break_hyp H; discriminate H.
Qed.

Lemma parse_string_chars_length : forall n s acc k r,
  (List.length s <= n)%nat ->
  parse_string_chars s acc = POk k r -> (List.length r < List.length s)%nat.
Proof.
  induction n as [|n IH]; intros s acc k r Hn H.
  - destruct s; [discriminate H|cbn [List.length] in Hn; lia].
  - destruct s as [|c t]; [discriminate H|].
    cbn [parse_string_chars] in H. cbn [List.length] in *.
    destruct (c =? 34)%N; [injection H as _ <-; lia|].
    destruct (c <? 32)%N; [discriminate H|].
    destruct (c =? 92)%N.
    + destruct t as [|x t1]; [discriminate H|]. cbn [List.length] in *.
      destruct (x =? 117)%N.
      * destruct t1 as [|h1 [|h2 [|h3 [|h4 t2]]]]; try discriminate H.
        destruct (hex4 h1 h2 h3 h4); [|discriminate H].
        apply IH in H; cbn [List.length] in *; lia.
      * destruct (simple_escape x); [|discriminate H].
        apply IH in H; lia.
    + apply IH in H; lia.
Qed.

Lemma parse_string_chars_fuel : forall n s acc,
  (List.length s <= n)%nat -> parse_string_chars s acc <> POutOfFuel.
Proof.
  induction n as [|n IH]; intros s acc Hn H.
  - destruct s; [discriminate H|cbn [List.length] in Hn; lia].
  - destruct s as [|c t]; [discriminate H|].
    cbn [parse_string_chars] in H. cbn [List.length] in *.
    destruct (c =? 34)%N; [discriminate H|].
    destruct (c <? 32)%N; [discriminate H|].
    destruct (c =? 92)%N.
    + destruct t as [|x t1]; [discriminate H|]. cbn [List.length] in *.
      destruct (x =? 117)%N.
      * destruct t1 as [|h1 [|h2 [|h3 [|h4 t2]]]]; try discriminate H.
        destruct (hex4 h1 h2 h3 h4); [|discriminate H].
        apply IH in H; [exact H|cbn [List.length] in *; lia].
      * destruct (simple_escape x); [|discriminate H].
        apply IH in H; [exact H|lia].
    + apply IH in H; [exact H|lia].
Qed.

Lemma expect_literal_length (word : jsstring) (v v' : value) (s r : jsstring) :
  expect_literal word v s = POk v' r -> (List.length r <= List.length s)%nat.
Proof.
  unfold expect_literal. destruct (is_prefix word s); [|discriminate].
  intros H. injection H as _ <-. rewrite List.length_skipn. lia.
Qed.

Lemma expect_literal_fuel (word : jsstring) (v : value) (s : jsstring) :
  expect_literal word v s <> POutOfFuel.
Proof. unfold expect_literal. destruct (is_prefix word s); discriminate. Qed.

(** What a parser leaves is no longer than what it was given. *)
Lemma parse_value_length : forall fuel,
  (forall s v r, parse_value fuel s = POk v r -> (List.length r <= List.length s)%nat)
  /\ (forall s acc v r, parse_elements fuel s acc = POk v r ->
                        (List.length r <= List.length s)%nat)
  /\ (forall s acc v r, parse_members fuel s acc = POk v r ->
                        (List.length r <= List.length s)%nat).
Proof.
  induction fuel as [|fuel (IHv & IHe & IHm)].
  - repeat split; intros; discriminate.
  - split; [|split].
    + intros s v r H. cbn [parse_value] in H.
      destruct (skip_ws s) as [|c t] eqn:W; [discriminate H|].
      apply skip_ws_cons in W.
      destruct (c =? 123)%N.
      { destruct (skip_ws t) as [|c' t'] eqn:W'; [discriminate H|].
        pose proof (skip_ws_cons _ W') as L'.
        destruct (c' =? 125)%N; [injection H as _ <-; lia|].
        apply IHm in H. lia. }
      destruct (c =? 91)%N.
      { destruct (skip_ws t) as [|c' t'] eqn:W'; [discriminate H|].
        pose proof (skip_ws_cons _ W') as L'.
        destruct (c' =? 93)%N; [injection H as _ <-; lia|].
        apply IHe in H. lia. }
      destruct (c =? 34)%N.
      { destruct (parse_string_chars t []) as [str r0| |] eqn:P; try discriminate H.
        injection H as _ <-.
        apply parse_string_chars_length with (n := List.length t) in P; lia. }
      destruct (c =? 116)%N; [apply expect_literal_length in H; cbn [List.length] in H; lia|].
      destruct (c =? 102)%N; [apply expect_literal_length in H; cbn [List.length] in H; lia|].
      destruct (c =? 110)%N; [apply expect_literal_length in H; cbn [List.length] in H; lia|].
      destruct ((c =? 45)%N || is_digit c); [|discriminate H].
      destruct (parse_number (c :: t)) as [n r0| |] eqn:P; try discriminate H.
      injection H as _ <-. apply parse_number_length in P. cbn [List.length] in P. lia.
    + intros s acc v r H. cbn [parse_elements] in H.
      destruct (parse_value fuel s) as [v0 r0| |] eqn:P; try discriminate H.
      apply IHv in P.
      destruct (skip_ws r0) as [|c t] eqn:W; [discriminate H|].
      apply skip_ws_cons in W.
      destruct (c =? 44)%N; [apply IHe in H; lia|].
      destruct (c =? 93)%N; [injection H as _ <-; lia|discriminate H].
    + intros s acc v r H. cbn [parse_members] in H.
      destruct (skip_ws s) as [|c t] eqn:W; [discriminate H|].
      apply skip_ws_cons in W.
      destruct (c =? 34)%N; [|discriminate H].
      destruct (parse_string_chars t []) as [k r0| |] eqn:P; try discriminate H.
      apply parse_string_chars_length with (n := List.length t) in P; [|lia].
      destruct (skip_ws r0) as [|c1 t1] eqn:W1; [discriminate H|].
      apply skip_ws_cons in W1.
      destruct (c1 =? 58)%N; [|discriminate H].
      destruct (parse_value fuel t1) as [v0 r2| |] eqn:P2; try discriminate H.
      apply IHv in P2. cbv zeta in H.
      destruct (skip_ws r2) as [|c2 t2] eqn:W2; [discriminate H|].
      apply skip_ws_cons in W2.
      destruct (c2 =? 44)%N; [apply IHm in H; lia|].
      destruct (c2 =? 125)%N; [injection H as _ <-; lia|discriminate H].
Qed.

(** Fuel for twice the length of the text, and one more, is never used up. *)
Lemma parse_value_fuel : forall fuel,
  (forall s, (2 * List.length s + 1 <= fuel)%nat -> parse_value fuel s <> POutOfFuel)
  /\ (forall s acc, (2 * List.length s + 2 <= fuel)%nat ->
                    parse_elements fuel s acc <> POutOfFuel)
  /\ (forall s acc, (2 * List.length s + 2 <= fuel)%nat ->
                    parse_members fuel s acc <> POutOfFuel).
Proof.
  induction fuel as [|fuel (IHv & IHe & IHm)].
  - repeat split; intros; lia.
  - split; [|split].
    + intros s Hf H. cbn [parse_value] in H.
      destruct (skip_ws s) as [|c t] eqn:W; [discriminate H|].
      apply skip_ws_cons in W.
      destruct (c =? 123)%N.
      { destruct (skip_ws t) as [|c' t'] eqn:W'; [discriminate H|].
        destruct (c' =? 125)%N; [discriminate H|].
        apply IHm in H; [exact H|lia]. }
      destruct (c =? 91)%N.
      { destruct (skip_ws t) as [|c' t'] eqn:W'; [discriminate H|].
        destruct (c' =? 93)%N; [discriminate H|].
        apply IHe in H; [exact H|lia]. }
      destruct (c =? 34)%N.
      { destruct (parse_string_chars t []) as [str r0| |] eqn:P; try discriminate H.
        apply parse_string_chars_fuel with (n := List.length t) in P; [exact P|lia]. }
      destruct (c =? 116)%N; [now apply expect_literal_fuel in H|].
      destruct (c =? 102)%N; [now apply expect_literal_fuel in H|].
      destruct (c =? 110)%N; [now apply expect_literal_fuel in H|].
      destruct ((c =? 45)%N || is_digit c); [|discriminate H].
      destruct (parse_number (c :: t)) as [n r0| |] eqn:P; try discriminate H.
      now apply parse_number_fuel in P.
    + intros s acc Hf H. cbn [parse_elements] in H.
      destruct (parse_value fuel s) as [v0 r0| |] eqn:P; try discriminate H.
      * apply (proj1 (parse_value_length fuel)) in P.
        destruct (skip_ws r0) as [|c t] eqn:W; [discriminate H|].
        apply skip_ws_cons in W.
        destruct (c =? 44)%N; [apply IHe in H; [exact H|lia]|].
        destruct (c =? 93)%N; discriminate H.
      * apply IHv in P; [exact P|lia].
    + intros s acc Hf H. cbn [parse_members] in H.
      destruct (skip_ws s) as [|c t] eqn:W; [discriminate H|].
      apply skip_ws_cons in W.
      destruct (c =? 34)%N; [|discriminate H].
      destruct (parse_string_chars t []) as [k r0| |] eqn:P; try discriminate H.
      * apply parse_string_chars_length with (n := List.length t) in P; [|lia].
        destruct (skip_ws r0) as [|c1 t1] eqn:W1; [discriminate H|].
        apply skip_ws_cons in W1.
        destruct (c1 =? 58)%N; [|discriminate H].
        destruct (parse_value fuel t1) as [v0 r2| |] eqn:P2; try discriminate H.
        -- apply (proj1 (parse_value_length fuel)) in P2. cbv zeta in H.
           destruct (skip_ws r2) as [|c2 t2] eqn:W2; [discriminate H|].
           apply skip_ws_cons in W2.
           destruct (c2 =? 44)%N; [apply IHm in H; [exact H|lia]|].
           destruct (c2 =? 125)%N; discriminate H.
        -- apply IHv in P2; [exact P2|lia].
      * apply parse_string_chars_fuel with (n := List.length t) in P; [exact P|lia].
Qed.

(** [JSON.parse] always answers: every text is parsed to a value or
    rejected with a SyntaxError. The recursion of the parser stays within
    twice the length of the text, so the bound on it is never met. *)
Lemma JSON_parse_total (text : jsstring) :
  (exists v, JSON_parse text = Ok v)
  \/ JSON_parse text = Throw (SyntaxError "Unexpected token in JSON").
Proof.
  unfold JSON_parse.
  destruct (parse_value (2 * List.length text + 1) text) as [v rest| |] eqn:P.
  - destruct (skip_ws rest); [left; now exists v|right; reflexivity].
  - right. reflexivity.
  - exfalso. revert P. apply (proj1 (parse_value_fuel _)). lia.
Qed.

(** X17. The recovery parser always answers, in one of three ways: with
    a value, with the error "Invalid JSON" of its last line, or with the
    SyntaxError of its second [JSON.parse], which it does not catch. No
    model output makes it fail in another way, however long or deeply
    nested; the SyntaxError of the first parse is never what it throws
    when the output has no opening brace before a closing one. *)
Theorem tryParseModelJson_outcomes :
  forall raw,
    ((exists v, Part001.tryParseModelJson raw = Ok v)
     \/ Part001.tryParseModelJson raw = Throw (Error "Invalid JSON")
     \/ Part001.tryParseModelJson raw = Throw (SyntaxError "Unexpected token in JSON"))
    /\ ((indexOf raw (lit "{") <? lastIndexOf raw (lit "}"))%Z = false ->
        Part001.tryParseModelJson raw <> Throw (SyntaxError "Unexpected token in JSON")).
Proof.
  intros raw. unfold Part001.tryParseModelJson.
  destruct (JSON_parse_total raw) as [(v & ->) | ->].
  - split; [left; now exists v|discriminate].
  - cbv zeta. split.
    + destruct (_ && _ && _); [|right; left; reflexivity].
      destruct (JSON_parse_total (slice raw (indexOf raw (lit "{"))
                                        (lastIndexOf raw (lit "}") + 1)))
        as [(v & ->) | ->]; [left; now exists v|right; right; reflexivity].
    + intros ->. rewrite andb_false_r. discriminate.
Qed.

Lemma tryParseModelJson_outcomes_witness :
  (indexOf (lit "} {") (lit "{") <? lastIndexOf (lit "} {") (lit "}"))%Z = false
  /\ Part001.tryParseModelJson (lit "} {")
     <> Throw (SyntaxError "Unexpected token in JSON").
Proof.
  assert (H : (indexOf (lit "} {") (lit "{") <? lastIndexOf (lit "} {") (lit "}"))%Z = false)
    by (vm_compute; reflexivity).
  split; [exact H|]. exact (proj2 (tryParseModelJson_outcomes (lit "} {")) H).
Defined.
